(** * Robot Fleet Dashboard: motor telemetry polling and display helpers

    A shallow embedding of
    - [static/js/motorDataWorker.js] (the background poller that runs in a
      Web Worker),
    - [main.js] ([setupMotorDataUpdateRate], [setupMotorDataWorker]: the
      orchestrator, its merge handlers and the fallback poller),
    - [MotorDataService.js], [MotorDataComponent.js] and
      [MotorDetailComponent] (value formatter, abnormality classifier, zero
      and data-presence checks, motor status and motor errors),
    - [RobotIndicatorComponent.js] (the error indicators),
    together with the properties of the specification that concern them.

    JavaScript numbers are IEEE 754 binary64 values: they are modelled by
    Rocq's primitive [float]. Counters that the code only ever increments by
    one from zero ([consecutiveErrors], [motorUpdateKey]) and clock readings
    ([Date.now()]) are integers far below 2^53 and are modelled by [Z].
    JavaScript objects are finite maps from property names to values. The
    number a string or an array reads as is left to the engine
    ([Conversions]); that the conversion of an object can throw is
    modelled. *)

From Stdlib Require Import ZArith Floats Lia Ascii String.
From Stdlib Require Uint63.
From stdpp Require Import gmap strings list pretty.

#[local] Set Warnings "-register-all,-inexact-float".
#[local] Open Scope Z_scope.

(** ** JavaScript values *)

(** The values that [response.json()] and the structured clone of a message
    can carry, plus [undefined]. *)
Inductive jsval : Type :=
  | VUndefined
  | VNull
  | VBool (b : bool)
  | VNumber (x : float)
  | VString (s : string)
  | VArray (l : list jsval)
  | VObject (m : gmap string jsval).

(** ToBoolean. *)
Definition truthy (v : jsval) : bool :=
  match v with
  | VUndefined | VNull => false
  | VBool b => b
  | VNumber x => negb (is_nan x || is_zero x)
  | VString s => negb (String.eqb s EmptyString)
  | VArray _ | VObject _ => true
  end.

(** [a || b] *)
Definition js_or (a b : jsval) : jsval := if truthy a then a else b.

(** [typeof v === 'number'] *)
Definition typeof_number (v : jsval) : bool :=
  match v with VNumber _ => true | _ => false end.

(** Errors thrown by the language or by the code: constructor name and
    message. *)
Record js_error := JsError { err_name : string; err_message : string }.

(** [v.k] for one of the property names the code reads ([command],
    [interval], [motor_data], [ping_status], ...: none is an array index or
    [length]). Reading a property of [undefined] or [null] throws a
    TypeError; a primitive, or an object without the property, gives
    [undefined]. *)
Definition get_prop (v : jsval) (k : string) : js_error + jsval :=
  match v with
  | VUndefined =>
      inl (JsError "TypeError"
             ("Cannot read properties of undefined (reading '" +:+ k +:+ "')"))
  | VNull =>
      inl (JsError "TypeError"
             ("Cannot read properties of null (reading '" +:+ k +:+ "')"))
  | VObject m => inr (default VUndefined (m !! k))
  | VBool _ | VNumber _ | VString _ | VArray _ => inr VUndefined
  end.

(** [m.k] on an object known to be one. *)
Definition field (m : gmap string jsval) (k : string) : jsval :=
  default VUndefined (m !! k).

(** Own enumerable properties copied by object spread [{...v}]: those of an
    object; the indices of an array or of a string; nothing for the other
    primitives, [undefined] and [null]. *)
Definition index_props (l : list jsval) : gmap string jsval :=
  list_to_map (imap (fun i v => (pretty i, v)) l).

Definition own_props (v : jsval) : gmap string jsval :=
  match v with
  | VObject m => m
  | VArray l => index_props l
  | VString s =>
      index_props ((fun c => VString (String c EmptyString)) <$> list_ascii_of_string s)
  | _ => ∅
  end.

(** [{...a, ...b}]: the properties of [b] win. *)
Definition spread2 (a b : jsval) : gmap string jsval := own_props b ∪ own_props a.

(** ** Decimal rendering of numbers (Number.prototype.toFixed, toExponential) *)

Definition digit_char (d : Z) : ascii := ascii_of_nat (48 + Z.to_nat d).

Fixpoint decimal_go (fuel : nat) (n : Z) (acc : list ascii) : list ascii :=
  match fuel with
  | O => acc
  | S fuel' =>
      let acc' := digit_char (n mod 10) :: acc in
      if n <? 10 then acc' else decimal_go fuel' (n / 10) acc'
  end.

(** The decimal digits of [n >= 0], most significant first; a number below
    [2^k] has at most [k] digits, so the fuel never runs out. *)
Definition decimal (n : Z) : list ascii :=
  decimal_go (S (Z.to_nat (Z.log2 n))) n [].

(** The mathematical value [m * 2^e] of a finite binary64 number as a fraction
    of two positive integers. *)
Definition ratio (m : positive) (e : Z) : Z * Z :=
  if 0 <=? e then (Z.pos m * 2 ^ e, 1) else (Z.pos m, 2 ^ (- e)).

(** The integer closest to [p / q]; of two equally close ones, the larger. *)
Definition round_half_up (p q : Z) : Z := (2 * p + q) / (2 * q).

Definition sign_chars (s : bool) : list ascii := if s then ["-"%char] else [].

(** Steps 11.b and 11.c of Number.prototype.toFixed: the digits of [n], padded
    with zeros to [fd + 1] characters, with a point before the last [fd]. *)
Definition fixed_digits (fd : nat) (n : Z) : list ascii :=
  let m := decimal n in
  match fd with
  | O => m
  | S _ =>
      let k := length m in
      let m := if (k <=? fd)%nat then replicate (fd + 1 - k)%nat "0"%char ++ m else m in
      let k := length m in
      take (k - fd)%nat m ++ "."%char :: drop (k - fd)%nat m
  end.

Fixpoint log10_up (fuel : nat) (p q e : Z) : Z * Z :=
  match fuel with
  | O => (e, q)
  | S fuel' => if 10 * q <=? p then log10_up fuel' p (10 * q) (e + 1) else (e, q)
  end.

Fixpoint log10_down (fuel : nat) (p q e : Z) : Z * Z :=
  match fuel with
  | O => (e, p)
  | S fuel' => if q <=? p then (e, p) else log10_down fuel' (10 * p) q (e - 1)
  end.

(** For [p / q > 0], the exponent [e] with [10^e <= p / q < 10^(e+1)] and the
    fraction [p' / q' = (p / q) / 10^e], which lies in [[1, 10)]. *)
Definition normalize10 (p q : Z) : Z * Z * Z :=
  if q <=? p then
    let '(e, q') := log10_up (S (Z.to_nat (Z.log2 p))) p q 0 in (e, p, q')
  else
    let '(e, p') := log10_down (S (Z.to_nat (Z.log2 q))) p q 0 in (e, p', q).

(** Steps 10 to 14 of Number.prototype.toExponential for [p / q > 0]. *)
Definition exponential_digits (fd : nat) (p q : Z) : list ascii :=
  let '(e, p', q') := normalize10 p q in
  let n0 := round_half_up (p' * 10 ^ Z.of_nat fd) q' in
  let '(e, n) := if n0 =? 10 ^ Z.of_nat (S fd) then (e + 1, 10 ^ Z.of_nat fd) else (e, n0) in
  let m := decimal n in
  let m := match fd with
           | O => m
           | S _ => take 1 m ++ "."%char :: drop 1 m
           end in
  m ++ "e"%char :: (if e <? 0 then "-"%char else "+"%char) :: decimal (Z.abs e).

(** [x.toExponential(fd)], for [0 <= fd <= 100]. *)
Definition toExponential (fd : nat) (x : float) : string :=
  match Prim2SF x with
  | S754_nan => "NaN"
  | S754_infinity s => string_of_list_ascii (sign_chars s) +:+ "Infinity"
  | S754_zero _ =>
      string_of_list_ascii (fixed_digits fd 0 ++ list_ascii_of_string "e+0")
  | S754_finite s m e =>
      let '(p, q) := ratio m e in
      string_of_list_ascii (sign_chars s ++ exponential_digits fd p q)
  end.

Section ToFixed.
(** Number::toString on a finite number of magnitude at least 10^21, which
    [toFixed] delegates to: a built-in that stays abstract here. *)
Variable NumberToString : float -> string.

(** [x.toFixed(fd)], for [0 <= fd <= 100]. *)
Definition toFixed (fd : nat) (x : float) : string :=
  match Prim2SF x with
  | S754_nan => "NaN"
  | S754_infinity s => string_of_list_ascii (sign_chars s) +:+ "Infinity"
  | S754_zero _ => string_of_list_ascii (fixed_digits fd 0)
  | S754_finite s m e =>
      let '(p, q) := ratio m e in
      if 10 ^ 21 * q <=? p then
        string_of_list_ascii (sign_chars s) +:+ NumberToString (abs x)
      else
        string_of_list_ascii
          (sign_chars s ++ fixed_digits fd (round_half_up (p * 10 ^ Z.of_nat fd) q))
  end.
End ToFixed.

(** *** Shapes of rendered numbers *)

Definition is_digit (c : ascii) : bool :=
  (48 <=? nat_of_ascii c)%nat && (nat_of_ascii c <=? 57)%nat.

(** The longest prefix of digits, and what follows it. *)
Fixpoint span_digits (l : list ascii) : list ascii * list ascii :=
  match l with
  | c :: l' =>
      if is_digit c then let '(ds, rest) := span_digits l' in (c :: ds, rest)
      else ([], l)
  | [] => ([], [])
  end.

Definition strip_sign (l : list ascii) : list ascii :=
  match l with
  | c :: l' => if Ascii.eqb c "-" then l' else l
  | [] => []
  end.

(** An optional minus sign, at least one digit, a point, exactly [fd]
    digits. *)
Definition fixed_form (fd : nat) (s : string) : bool :=
  let '(ip, rest) := span_digits (strip_sign (list_ascii_of_string s)) in
  match ip, rest with
  | _ :: _, c :: fp =>
      Ascii.eqb c "." && (length fp =? fd)%nat && forallb is_digit fp
  | _, _ => false
  end.

(** An optional minus sign, one digit, a point, exactly [fd] digits, [e], a
    sign, at least one digit. *)
Definition exponential_form (fd : nat) (s : string) : bool :=
  match strip_sign (list_ascii_of_string s) with
  | d :: c :: rest =>
      is_digit d && Ascii.eqb c "." &&
      let '(fp, rest) := span_digits rest in
      (length fp =? fd)%nat &&
      match rest with
      | e :: sg :: ex =>
          Ascii.eqb e "e" && (Ascii.eqb sg "+" || Ascii.eqb sg "-") &&
          negb (length ex =? 0)%nat && forallb is_digit ex
      | _ => false
      end
  | _ => false
  end.

(** ** More of the language *)

(** [a && b] *)
Definition js_and (a b : jsval) : jsval := if truthy a then b else a.

(** The number of an array length or string length. *)
Definition number_of_nat (n : nat) : float :=
  PrimFloat.of_uint63 (Uint63.of_Z (Z.of_nat n)).

(** [v[k]] for a key computed at run time (a robot name, never the name of a
    method of [Object.prototype]): on an array or a string the key may be an
    index or [length]. *)
Definition member (v : jsval) (k : string) : js_error + jsval :=
  match v with
  | VArray l =>
      if String.eqb k "length" then inr (VNumber (number_of_nat (length l)))
      else inr (default VUndefined (index_props l !! k))
  | VString s =>
      if String.eqb k "length" then inr (VNumber (number_of_nat (String.length s)))
      else inr (default VUndefined (own_props v !! k))
  | _ => get_prop v k
  end.

(** [v.k] where [v] is known to be truthy, so that the access cannot throw. *)
Definition read_prop (v : jsval) (k : string) : jsval :=
  match get_prop v k with
  | inr x => x
  | inl _ => VUndefined
  end.

(** [Object.keys(v).length] for a truthy [v]. *)
Definition Object_keys_length (v : jsval) : nat := size (own_props v).

(** [typeof v === 'object'] *)
Definition typeof_object (v : jsval) : bool :=
  match v with VNull | VObject _ | VArray _ => true | _ => false end.

(** [v === 0] *)
Definition is_zero_number (v : jsval) : bool :=
  match v with VNumber x => (x =? 0)%float | _ => false end.

(** [Array.prototype.some], [find] and [filter] with a callback that may
    throw: the elements are visited in order, and [some] and [find] stop at
    the first one the callback accepts. *)
Fixpoint array_some (callback : jsval -> js_error + bool) (l : list jsval)
  : js_error + bool :=
  match l with
  | [] => inr false
  | x :: l' =>
      match callback x with
      | inl err => inl err
      | inr true => inr true
      | inr false => array_some callback l'
      end
  end.

Fixpoint array_find (callback : jsval -> js_error + bool) (l : list jsval)
  : js_error + jsval :=
  match l with
  | [] => inr VUndefined
  | x :: l' =>
      match callback x with
      | inl err => inl err
      | inr true => inr x
      | inr false => array_find callback l'
      end
  end.

Fixpoint array_filter (callback : jsval -> js_error + bool) (l : list jsval)
  : js_error + list jsval :=
  match l with
  | [] => inr []
  | x :: l' =>
      match callback x with
      | inl err => inl err
      | inr keep =>
          match array_filter callback l' with
          | inl err => inl err
          | inr kept => inr (if keep then x :: kept else kept)
          end
      end
  end.

(** [v.some(callback)] and the like, [callee] being the text of [v.some]: of
    the values a parsed payload holds only an array has these methods; on any
    other the call throws a TypeError. *)
Definition call_method {A} (callee method : string) (v : jsval)
    (run : list jsval -> js_error + A) : js_error + A :=
  match v with
  | VArray l => run l
  | VUndefined | VNull =>
      match get_prop v method with
      | inl err => inl err
      | inr _ => inl (JsError "TypeError" (callee +:+ " is not a function"))
      end
  | _ => inl (JsError "TypeError" (callee +:+ " is not a function"))
  end.

(** The result of [getMotorStatusDisplay]. *)
Record status_display := StatusDisplay { text : string; color : string }.

(** The magnitude of a number in units of 2^-1074, the smallest positive
    binary64 value: an integer for every finite number; the infinities are
    given 2^2098, above every finite magnitude. Not meant for NaN. *)
Definition magnitude (x : float) : Z :=
  match Prim2SF x with
  | S754_zero _ | S754_nan => 0
  | S754_infinity _ => 2 ^ 2098
  | S754_finite _ m e => Z.pos m * 2 ^ (e + 1074)
  end.

(** The six readings the zero checks look at: [pos_rad], [vel_rpm] and
    [current] of [motor1 || {}] and of [motor2 || {}]. *)
Definition tracked (entry : jsval) : list jsval :=
  let motor1 := js_or (read_prop entry "motor1") (VObject ∅) in
  let motor2 := js_or (read_prop entry "motor2") (VObject ∅) in
  [read_prop motor1 "pos_rad"; read_prop motor1 "vel_rpm"; read_prop motor1 "current";
   read_prop motor2 "pos_rad"; read_prop motor2 "vel_rpm"; read_prop motor2 "current"].

(** What a parsed JSON payload holds for a numeric field: a number (JSON has
    no NaN), [null], or nothing, which reads as [undefined]. *)
Definition reading (v : jsval) : bool :=
  match v with
  | VNumber x => negb (is_nan x)
  | VUndefined | VNull => true
  | _ => false
  end.

(** ** Value formatter and abnormality classifier *)

(** [type === s] in a [switch] over string cases. *)
Definition is_str (v : jsval) (s : string) : bool :=
  match v with VString t => String.eqb t s | _ => false end.

(** ToNumber, the operand conversion of [value > 5] and [Math.abs(value)].
    On a string, an array or an object it is the abstract [ToNumberOther]:
    the readings the properties below are about are numbers, [undefined] or
    [null]. *)
Definition ToNumber (ToNumberOther : jsval -> float) (v : jsval) : float :=
  match v with
  | VUndefined => nan
  | VNull => 0%float
  | VBool b => if b then 1%float else 0%float
  | VNumber x => x
  | VString _ | VArray _ | VObject _ => ToNumberOther v
  end.

(** [Math.abs(value)] *)
Definition Math_abs (ToNumberOther : jsval -> float) (v : jsval) : float :=
  abs (ToNumber ToNumberOther v).

(** ToPrimitive can throw. A plain object is converted by [valueOf] (the
    inherited one returns the object itself, an own property of that name in a
    parsed payload is not callable: either way the conversion goes on) and then
    by [toString]: the inherited one gives ["[object Object]"], while an own
    property [toString], which in a parsed payload is never a function, leaves
    no way to a primitive and the conversion throws a TypeError. An array is
    converted by joining the strings of its elements ([null] gives the empty
    string), so it throws when one of them does. *)
Fixpoint unconvertible (v : jsval) : bool :=
  match v with
  | VObject m => bool_decide (is_Some (m !! "toString"))
  | VArray l => existsb unconvertible l
  | _ => false
  end.

Definition cannot_convert : js_error :=
  JsError "TypeError" "Cannot convert object to primitive value".

(** The number a string is read as (StringToNumber), and the number the
    joined elements of a convertible array are read as: the engine's part of
    ToNumber. *)
Class Conversions := ToNumberOf : jsval -> float.

(** An engine in which no string and no array reads as a number. *)
Definition no_numerals : Conversions := fun _ => nan.

(** ToNumber with the exception it can throw; ["[object Object]"] is not a
    number. *)
Definition ToNumber_or_throw {conv : Conversions} (v : jsval) : js_error + float :=
  if unconvertible v then inl cannot_convert
  else inr (match v with
            | VObject _ => nan
            | _ => ToNumber ToNumberOf v
            end).

(** MotorDataService.js *)
Module MotorDataService.
Section Builtins.
Variable NumberToString : float -> string.
Variable ToNumberOther : jsval -> float.

Definition formatMotorValue (value : jsval) : string :=
  match value with
  | VUndefined | VNull => "N/A"
  | VNumber x =>
      if (1000 <? Math_abs ToNumberOther value)%float then toExponential 2 x
      else toFixed NumberToString 3 x
  | _ => "Invalid"
  end.

Definition isMotorValueAbnormal (value type : jsval) : bool :=
  match value with
  | VUndefined | VNull => false
  | _ =>
      if is_str type "current" then (5 <? ToNumber ToNumberOther value)%float
      else if is_str type "velocity" then (1000 <? Math_abs ToNumberOther value)%float
      else if is_str type "position" then (100000 <? Math_abs ToNumberOther value)%float
      else false
  end.

(** [MotorDataService.hasMotorData]; it also logs when it returns early. *)
Definition hasMotorData (robotName : string) (motorData : jsval) : js_error + bool :=
  if negb (truthy motorData) then inr false
  else
    match member motorData robotName with
    | inl err => inl err
    | inr entry =>
        if negb (truthy entry) then inr false
        else
          let motor1 := js_or (read_prop entry "motor1") (VObject ∅) in
          let motor2 := js_or (read_prop entry "motor2") (VObject ∅) in
          inr ((0 <? Object_keys_length motor1)%nat
               || (0 <? Object_keys_length motor2)%nat)
    end.

(** [MotorDataService.areAllValuesZero] *)
Definition areAllValuesZero (robotName : string) (motorData : jsval) : js_error + bool :=
  if negb (truthy motorData) then inr true
  else
    match member motorData robotName with
    | inl err => inl err
    | inr entry =>
        if negb (truthy entry) then inr true
        else
          let motor1 := js_or (read_prop entry "motor1") (VObject ∅) in
          let motor2 := js_or (read_prop entry "motor2") (VObject ∅) in
          let nonzero motor k :=
            js_and (read_prop motor k)
              (VBool (0.0001 <=? Math_abs ToNumberOther (read_prop motor k))%float) in
          inr (negb (truthy
            (js_or (js_or (js_or (js_or (js_or
               (nonzero motor1 "pos_rad") (nonzero motor1 "vel_rpm"))
               (nonzero motor1 "current")) (nonzero motor2 "pos_rad"))
               (nonzero motor2 "vel_rpm")) (nonzero motor2 "current"))))
    end.

(** [MotorDataService.isZeroValue] (declared three times with the same
    body). *)
Definition isZeroValue (value : jsval) : bool :=
  match value with
  | VUndefined | VNull => true
  | _ => (Math_abs ToNumberOther value <? 0.0001)%float
  end.

(** The callback [error => error && error.error_code === '1201']. *)
Definition is_motor_error (error : jsval) : js_error + bool :=
  inr (truthy error && is_str (read_prop error "error_code") "1201").

(** [MotorDataService.getMotorStatusDisplay] *)
Definition getMotorStatusDisplay (robotStatus : jsval) : js_error + status_display :=
  if negb (truthy robotStatus) || negb (typeof_object robotStatus)
  then inr (StatusDisplay "No Data" "text-gray-500")
  else
    let watchDoggoErrors :=
      js_or (read_prop robotStatus "watch_doggo_error_rm") (VArray []) in
    match call_method "watchDoggoErrors.some" "some" watchDoggoErrors
            (array_some is_motor_error) with
    | inl err => inl err
    | inr hasMotorError =>
        if hasMotorError then inr (StatusDisplay "Error" "text-red-500")
        else if truthy (read_prop robotStatus "is_cleaning")
        then inr (StatusDisplay "Running" "text-green-500")
        else if truthy (read_prop robotStatus "is_navigating")
        then inr (StatusDisplay "Moving" "text-blue-500")
        else inr (StatusDisplay "Idle" "text-gray-500")
    end.

(** [MotorDataService.getMotorErrors] *)
Definition getMotorErrors (robotStatus : jsval) : js_error + list jsval :=
  if negb (truthy robotStatus)
     || negb (truthy (read_prop robotStatus "watch_doggo_error_rm"))
  then inr []
  else
    call_method "robotStatus.watch_doggo_error_rm.filter" "filter"
      (read_prop robotStatus "watch_doggo_error_rm") (array_filter is_motor_error).
End Builtins.
End MotorDataService.

(** MotorDataComponent.js, [methods] *)
Module MotorDataComponent.
Section Builtins.
Variable NumberToString : float -> string.
Variable ToNumberOther : jsval -> float.

Definition formatMotorValue (value : jsval) : string :=
  match value with
  | VUndefined | VNull => "N/A"
  | VNumber x =>
      if (1000 <? Math_abs ToNumberOther value)%float then toExponential 2 x
      else toFixed NumberToString 3 x
  | _ => "Invalid"
  end.

Definition isMotorValueAbnormal (value type : jsval) : bool :=
  match value with
  | VUndefined | VNull => false
  | _ =>
      if is_str type "current" then (5 <? ToNumber ToNumberOther value)%float
      else if is_str type "velocity" then (1000 <? Math_abs ToNumberOther value)%float
      else if is_str type "position" then (100000 <? Math_abs ToNumberOther value)%float
      else false
  end.

(** [computed.hasMotorData], on [this.robotName] and [this.motorData]. *)
Definition hasMotorData (robotName : string) (motorData : jsval) : js_error + bool :=
  match member motorData robotName with
  | inl err => inl err
  | inr entry =>
      if negb (truthy entry) then inr false
      else
        let motor1 := js_or (read_prop entry "motor1") (VObject ∅) in
        let motor2 := js_or (read_prop entry "motor2") (VObject ∅) in
        inr ((0 <? Object_keys_length motor1)%nat
             || (0 <? Object_keys_length motor2)%nat)
  end.

(** [computed.hasNonZeroValues]: the value of the [||] chain, which the
    template tests for truthiness. *)
Definition hasNonZeroValues (robotName : string) (motorData : jsval)
  : js_error + jsval :=
  match member motorData robotName with
  | inl err => inl err
  | inr entry =>
      if negb (truthy entry) then inr (VBool false)
      else
        let motor1 := js_or (read_prop entry "motor1") (VObject ∅) in
        let motor2 := js_or (read_prop entry "motor2") (VObject ∅) in
        let nonzero motor k :=
          js_and (read_prop motor k)
            (VBool (0.001 <? Math_abs ToNumberOther (read_prop motor k))%float) in
        inr (js_or (js_or (js_or (js_or (js_or
               (nonzero motor1 "pos_rad") (nonzero motor1 "vel_rpm"))
               (nonzero motor1 "current")) (nonzero motor2 "pos_rad"))
               (nonzero motor2 "vel_rpm")) (nonzero motor2 "current"))
  end.

(** [methods.isZeroValue] *)
Definition isZeroValue (value : jsval) : bool :=
  match value with
  | VUndefined | VNull => true
  | _ => (Math_abs ToNumberOther value <? 0.001)%float
  end.

(** [methods.hasValue] *)
Definition hasValue (value : jsval) : bool :=
  match value with
  | VUndefined | VNull => false
  | _ => (0.001 <=? Math_abs ToNumberOther value)%float
  end.

(** The callback [error => error && error.error_code === '1201']. *)
Definition is_motor_error (error : jsval) : js_error + bool :=
  inr (truthy error && is_str (read_prop error "error_code") "1201").

(** [computed.getMotorStatusDisplay] *)
Definition getMotorStatusDisplay (robotStatus : jsval) : js_error + status_display :=
  if negb (truthy robotStatus) || negb (typeof_object robotStatus)
  then inr (StatusDisplay "No Data" "text-gray-500")
  else
    let watchDoggoErrors :=
      js_or (read_prop robotStatus "watch_doggo_error_rm") (VArray []) in
    match call_method "watchDoggoErrors.some" "some" watchDoggoErrors
            (array_some is_motor_error) with
    | inl err => inl err
    | inr hasMotorError =>
        if hasMotorError then inr (StatusDisplay "Error" "text-red-500")
        else if truthy (read_prop robotStatus "is_cleaning")
        then inr (StatusDisplay "Running" "text-green-500")
        else if truthy (read_prop robotStatus "is_navigating")
        then inr (StatusDisplay "Moving" "text-blue-500")
        else inr (StatusDisplay "Idle" "text-gray-500")
    end.

(** [computed.getMotorErrors] *)
Definition getMotorErrors (robotStatus : jsval) : js_error + list jsval :=
  if negb (truthy robotStatus)
     || negb (truthy (read_prop robotStatus "watch_doggo_error_rm"))
  then inr []
  else
    call_method "status.watch_doggo_error_rm.filter" "filter"
      (read_prop robotStatus "watch_doggo_error_rm") (array_filter is_motor_error).
End Builtins.
End MotorDataComponent.

(** MotorDetailComponent, [methods] *)
Module MotorDetailComponent.
Section Builtins.
Variable NumberToString : float -> string.
Variable ToNumberOther : jsval -> float.

(** Always two fractional digits, whatever the magnitude. *)
Definition formatMotorValue (value : jsval) : string :=
  match value with
  | VUndefined | VNull => "N/A"
  | VNumber x => toFixed NumberToString 2 x
  | _ => "Invalid"
  end.

(** The [switch] has no [position] case. *)
Definition isMotorValueAbnormal (value type : jsval) : bool :=
  match value with
  | VUndefined | VNull => false
  | _ =>
      if is_str type "current" then (5 <? ToNumber ToNumberOther value)%float
      else if is_str type "velocity" then (1000 <? Math_abs ToNumberOther value)%float
      else false
  end.

(** [computed.hasMotorData] *)
Definition hasMotorData (robotName : string) (motorData : jsval) : js_error + bool :=
  match member motorData robotName with
  | inl err => inl err
  | inr entry =>
      if negb (truthy entry) then inr false
      else
        let motor1 := js_or (read_prop entry "motor1") (VObject ∅) in
        let motor2 := js_or (read_prop entry "motor2") (VObject ∅) in
        inr ((0 <? Object_keys_length motor1)%nat
             || (0 <? Object_keys_length motor2)%nat)
  end.

(** [computed.areAllValuesZero]: every operand of [||] and [&&] is a
    boolean. *)
Definition areAllValuesZero (robotName : string) (motorData : jsval)
  : js_error + bool :=
  match member motorData robotName with
  | inl err => inl err
  | inr entry =>
      if negb (truthy entry) then inr true
      else
        let motor1 := js_or (read_prop entry "motor1") (VObject ∅) in
        let motor2 := js_or (read_prop entry "motor2") (VObject ∅) in
        let zero motor k :=
          negb (truthy (read_prop motor k))
          || (Math_abs ToNumberOther (read_prop motor k) <? 0.01)%float in
        inr (zero motor1 "pos_rad" && zero motor1 "vel_rpm" && zero motor1 "current"
             && zero motor2 "pos_rad" && zero motor2 "vel_rpm" && zero motor2 "current")
  end.

(** [methods.isZeroValue] *)
Definition isZeroValue (value : jsval) : bool :=
  match value with
  | VUndefined | VNull => true
  | _ => (Math_abs ToNumberOther value <? 0.01)%float
  end.
End Builtins.
End MotorDetailComponent.

(** RobotIndicatorComponent.js, [computed]: the error indicators. *)
Module RobotIndicatorComponent.

Definition activeErrors (robotStatus : jsval) : jsval :=
  if negb (truthy robotStatus)
     || negb (truthy (read_prop robotStatus "watch_doggo_error_rm"))
  then VArray []
  else js_or (read_prop robotStatus "watch_doggo_error_rm") (VArray []).

(** [this.activeErrors.length]; [activeErrors] is never [undefined] or
    [null]. *)
Definition errorCount (robotStatus : jsval) : jsval :=
  match member (activeErrors robotStatus) "length" with
  | inr n => n
  | inl _ => VUndefined
  end.

(** [this.errorCount === 0]: the length of an array is 0 exactly when it has
    no element. *)
Definition errorCount_is_0 (robotStatus : jsval) : bool :=
  match activeErrors robotStatus with
  | VArray l => match l with [] => true | _ => false end
  | VString s => String.eqb s EmptyString
  | _ => is_zero_number (errorCount robotStatus)
  end.

(** The callback [error => codes.includes(error.error_code)]; with a single
    code, [error => error.error_code === code]. Unlike the callbacks of
    [MotorDataService] it reads [error_code] without a guard. *)
Definition has_code (codes : list string) (error : jsval) : js_error + bool :=
  match get_prop error "error_code" with
  | inl err => inl err
  | inr code => inr (existsb (is_str code) codes)
  end.

Definition hasCriticalError (robotStatus : jsval) : js_error + bool :=
  call_method "this.activeErrors.some" "some" (activeErrors robotStatus)
    (array_some (has_code ["1416"; "1417"; "3605"])).

Definition errorBadgeColor (robotStatus : jsval) : js_error + string :=
  if errorCount_is_0 robotStatus then inr EmptyString
  else
    match call_method "this.activeErrors.some" "some" (activeErrors robotStatus)
            (array_some (has_code ["1416"; "1417"])) with
    | inl err => inl err
    | inr true => inr "bg-red-600 text-white"
    | inr false =>
        match call_method "this.activeErrors.some" "some" (activeErrors robotStatus)
                (array_some (has_code ["1201"])) with
        | inl err => inl err
        | inr true => inr "bg-orange-500 text-white"
        | inr false => inr "bg-yellow-500 text-black"
        end
    end.

Definition mostSevereError (robotStatus : jsval) : js_error + jsval :=
  if errorCount_is_0 robotStatus then inr VNull
  else
    match call_method "this.activeErrors.find" "find" (activeErrors robotStatus)
            (array_find (has_code ["1416"; "1417"; "3605"])) with
    | inl err => inl err
    | inr criticalError =>
        if truthy criticalError then get_prop criticalError "error_code"
        else
          match member (activeErrors robotStatus) "0" with
          | inl err => inl err
          | inr (VUndefined | VNull) => inr VUndefined
          | inr first => get_prop first "error_code"
          end
    end.

End RobotIndicatorComponent.

(** ** Computations that act on a state and may throw *)

Definition M (S A : Type) : Type := S -> (js_error + A) * S.
Definition ret {S A} (a : A) : M S A := fun st => (inr a, st).
Definition throw {S A} (err : js_error) : M S A := fun st => (inl err, st).
Definition bind {S A B} (c : M S A) (k : A -> M S B) : M S B :=
  fun st => match c st with
            | (inl err, st') => (inl err, st')
            | (inr a, st') => k a st'
            end.
Definition read {S A} (f : S -> A) : M S A := fun st => (inr (f st), st).
Definition update {S} (f : S -> S) : M S unit := fun st => (inr tt, f st).
Definition lift {S A} (r : js_error + A) : M S A :=
  match r with inl err => throw err | inr a => ret a end.

Notation "'let!' x := c 'in' k" := (bind c (fun x => k))
  (at level 10, x name, c at level 100, k at level 200).
Notation "c ;;; k" := (bind c (fun _ => k))
  (at level 100, k at level 200, right associativity).

(** ** HTTP fetches *)

(** How one [fetch] of [/api/robot-status] ends: the promise rejects (network
    failure), or a response arrives with its [ok] flag and status code, whose
    [json()] either rejects (unparseable body) or yields the decoded
    payload. *)
Inductive fetch_result :=
  | FetchRejected (err : js_error)
  | FetchResponse (ok : bool) (status : Z) (body : js_error + jsval).

(** Messages the worker posts to the main thread. *)
Inductive out_msg :=
  | MotorDataMsg (motorData pingStatus : jsval) (timestamp : Z)
  | ErrorMsg (error : string).

(** The motor data a fetch delivers, if any: the response is ok, its body
    decodes to an object, and that object has a truthy [motor_data]. Every
    other outcome (network failure, error status, unparseable body, payload
    without motor data) is a failed motor fetch. *)
Definition motor_payload (r : fetch_result) : option jsval :=
  match r with
  | FetchResponse true _ (inr (VObject m)) =>
      match m !! "motor_data" with
      | Some motor_data => if truthy motor_data then Some motor_data else None
      | None => None
      end
  | _ => None
  end.

(** ** motorDataWorker.js *)
Module Worker.

(** How a top-level binding was declared. *)
Inductive decl := DeclConst | DeclLet.

Definition MAX_CONSECUTIVE_ERRORS : Z := 3.

(** The module-level bindings of the worker script, then the part of its
    environment the script acts on: pending timeouts (all with callback
    [pollMotorData]) by id with their delay, the next id [setTimeout] returns,
    the activations of [pollMotorData] suspended at [await fetch] (each with
    the [timestamp] it holds), the requests issued so far, the messages
    posted, and the errors thrown out of the message listener. *)
Record state := State {
  POLLING_INTERVAL : float;
  isRunning : bool;
  pollTimer : option positive;
  consecutiveErrors : Z;
  timers : gmap positive float;
  next_timer : positive;
  in_flight : list Z;
  fetches : list Z;
  outbox : list out_msg;
  uncaught : list js_error;
}.

(** [const POLLING_INTERVAL = 500] *)
Definition POLLING_INTERVAL_decl : decl := DeclConst.

Definition set_POLLING_INTERVAL (v : float) (st : state) : state :=
  State v (isRunning st) (pollTimer st) (consecutiveErrors st) (timers st)
    (next_timer st) (in_flight st) (fetches st) (outbox st) (uncaught st).
Definition set_isRunning (v : bool) (st : state) : state :=
  State (POLLING_INTERVAL st) v (pollTimer st) (consecutiveErrors st) (timers st)
    (next_timer st) (in_flight st) (fetches st) (outbox st) (uncaught st).
Definition set_consecutiveErrors (v : Z) (st : state) : state :=
  State (POLLING_INTERVAL st) (isRunning st) (pollTimer st) v (timers st)
    (next_timer st) (in_flight st) (fetches st) (outbox st) (uncaught st).
Definition set_timers (v : gmap positive float) (st : state) : state :=
  State (POLLING_INTERVAL st) (isRunning st) (pollTimer st) (consecutiveErrors st) v
    (next_timer st) (in_flight st) (fetches st) (outbox st) (uncaught st).
Definition set_in_flight (v : list Z) (st : state) : state :=
  State (POLLING_INTERVAL st) (isRunning st) (pollTimer st) (consecutiveErrors st)
    (timers st) (next_timer st) v (fetches st) (outbox st) (uncaught st).
Definition add_uncaught (err : js_error) (st : state) : state :=
  State (POLLING_INTERVAL st) (isRunning st) (pollTimer st) (consecutiveErrors st)
    (timers st) (next_timer st) (in_flight st) (fetches st) (outbox st)
    (uncaught st ++ [err]).

(** [self.postMessage(msg)] *)
Definition postMessage (msg : out_msg) (st : state) : state :=
  State (POLLING_INTERVAL st) (isRunning st) (pollTimer st) (consecutiveErrors st)
    (timers st) (next_timer st) (in_flight st) (fetches st) (outbox st ++ [msg])
    (uncaught st).

(** [pollTimer = setTimeout(pollMotorData, delay)] *)
Definition schedule (delay : float) (st : state) : state :=
  State (POLLING_INTERVAL st) (isRunning st) (Some (next_timer st))
    (consecutiveErrors st) (<[next_timer st := delay]> (timers st))
    (Pos.succ (next_timer st)) (in_flight st) (fetches st) (outbox st) (uncaught st).

(** [if (pollTimer) { clearTimeout(pollTimer); }]: a timer id is a positive
    integer, so it is truthy; clearing an id that already fired or was
    cleared does nothing. *)
Definition clear_pollTimer (st : state) : state :=
  match pollTimer st with
  | Some id => set_timers (delete id (timers st)) st
  | None => st
  end.

(** [pollMotorData], up to its first [await]: reads the clock and issues the
    request. *)
Definition pollMotorData_begin (now : Z) (st : state) : state :=
  State (POLLING_INTERVAL st) (isRunning st) (pollTimer st) (consecutiveErrors st)
    (timers st) (next_timer st) (in_flight st ++ [now]) (fetches st ++ [now])
    (outbox st) (uncaught st).

(** One operand [(v && Math.abs(v) > 0.01)] of [hasNonZeroValues]: whether it
    is truthy, or the error the conversion of [v] throws. *)
Definition above_hundredth {conv : Conversions} (v : jsval) : js_error + bool :=
  if truthy v then
    match ToNumber_or_throw v with
    | inl err => inl err
    | inr x => inr (0.01 <? abs x)%float
    end
  else inr false.

(** The body of the [for ... in] loop on one entry [robotData] of
    [data.motor_data]: whether the entry has the expected structure, or the
    error thrown. The six operands of [||] are evaluated in order until one is
    truthy, as the elements of an array are by [some]; what the body logs is
    left out. *)
Definition inspect_robot {conv : Conversions} (robotData : jsval) : js_error + bool :=
  if truthy (js_and robotData
               (js_or (read_prop robotData "motor1") (read_prop robotData "motor2")))
  then
    match array_some above_hundredth (tracked robotData) with
    | inl err => inl err
    | inr hasNonZeroValues => inr true
    end
  else inr false.

(** The loop, [hasValidData] being the flag it maintains. *)
Fixpoint inspect_all {conv : Conversions} (entries : list jsval) (hasValidData : bool)
  : js_error + bool :=
  match entries with
  | [] => inr hasValidData
  | robotData :: entries' =>
      match inspect_robot robotData with
      | inl err => inl err
      | inr valid => inspect_all entries' (hasValidData || valid)
      end
  end.

(** The diagnostic pass of [pollMotorData] over a truthy [data.motor_data]:
    it counts the keys, visits every enumerable property ([for ... in]: the
    properties of an object, the indices of an array or of a string) and
    returns [hasValidData], which is only logged. The order of the visits does
    not show: the pass changes nothing, and the one error it can throw is
    [cannot_convert]. *)
Definition diagnostics {conv : Conversions} (motor_data : jsval) : js_error + bool :=
  inspect_all (map_to_list (own_props motor_data)).*2 false.

(** The [try] block of [pollMotorData] after the request, up to the reset of
    the error count: the error it throws, or the payload that passed the
    validation and the diagnostic pass. *)
Definition validate {conv : Conversions} (r : fetch_result) : js_error + jsval :=
  match r with
  | FetchRejected err => inl err
  | FetchResponse ok status body =>
      if negb ok then
        inl (JsError "Error" ("Server responded with status: " +:+ pretty status))
      else
        match body with
        | inl err => inl err
        | inr data =>
            match get_prop data "motor_data" with
            | inl err => inl err
            | inr motor_data =>
                if negb (truthy motor_data) then
                  inl (JsError "Error" "Motor data missing in response")
                else
                  match diagnostics motor_data with
                  | inl err => inl err
                  | inr hasValidData => inr data
                  end
            end
        end
  end.

(** [pollMotorData] from the point where the request that was issued at
    [timestamp] has settled with [r]. *)
Definition pollMotorData_resume {conv : Conversions} (timestamp : Z) (r : fetch_result)
    (st : state) : state :=
  let st :=
    match validate r with
    | inr data =>
        let st := set_consecutiveErrors 0 st in
        postMessage
          (MotorDataMsg
             (js_or (match get_prop data "motor_data" with inr v => v | inl _ => VUndefined end)
                    (VObject ∅))
             (js_or (match get_prop data "ping_status" with inr v => v | inl _ => VUndefined end)
                    (VObject ∅))
             timestamp) st
    | inl error =>
        let st := set_consecutiveErrors (consecutiveErrors st + 1) st in
        postMessage (ErrorMsg (err_message error)) st
    end in
  if isRunning st then
    let nextInterval :=
      if MAX_CONSECUTIVE_ERRORS <? consecutiveErrors st
      then (POLLING_INTERVAL st * 2)%float
      else POLLING_INTERVAL st in
    schedule nextInterval st
  else st.

(** [startPolling] *)
Definition startPolling (now : Z) (st : state) : state := pollMotorData_begin now st.

(** [POLLING_INTERVAL = v]: assigning to a [const] binding throws. *)
Definition assign_POLLING_INTERVAL (v : float) : M state unit :=
  match POLLING_INTERVAL_decl with
  | DeclConst => throw (JsError "TypeError" "Assignment to constant variable.")
  | DeclLet => update (set_POLLING_INTERVAL v)
  end.

(** The ['message'] listener, on [e.data = data]. *)
Definition on_message (now : Z) (data : jsval) : M state unit :=
  let! command := lift (get_prop data "command") in
  if is_str command "start" then
    update (set_isRunning true) ;;;
    update (startPolling now)
  else if is_str command "stop" then
    update (set_isRunning false) ;;;
    update clear_pollTimer
  else if is_str command "poll" then
    update clear_pollTimer ;;;
    update (pollMotorData_begin now)
  else if is_str command "setInterval" then
    let! newInterval := lift (get_prop data "interval") in
    match newInterval with
    | VNumber x =>
        if truthy newInterval then
          assign_POLLING_INTERVAL x ;;;
          let! running := read isRunning in
          if running then
            update clear_pollTimer ;;;
            update (startPolling now)
          else ret tt
        else ret tt
    | _ => ret tt
    end
  else ret tt.

(** What can happen to the worker: a message arrives from the main thread, a
    pending timeout fires, or the [i]-th request in flight settles. [now] is
    the clock reading at that moment. *)
Inductive event :=
  | Message (now : Z) (data : jsval)
  | TimerFires (now : Z) (id : positive)
  | Settled (i : nat) (r : fetch_result).

Definition step {conv : Conversions} (st : state) (ev : event) : state :=
  match ev with
  | Message now data =>
      match on_message now data st with
      | (inr _, st') => st'
      | (inl err, st') => add_uncaught err st'
      end
  | TimerFires now id =>
      match timers st !! id with
      | Some _ => pollMotorData_begin now (set_timers (delete id (timers st)) st)
      | None => st
      end
  | Settled i r =>
      match in_flight st !! i with
      | Some timestamp =>
          pollMotorData_resume timestamp r (set_in_flight (delete i (in_flight st)) st)
      | None => st
      end
  end.

Definition run {conv : Conversions} (st : state) (evs : list event) : state :=
  foldl step st evs.

(** Evaluating the script when the worker is created: the bindings are
    initialised and [startPolling()] runs before the listener is installed. *)
Definition load (now : Z) : state :=
  startPolling now
    (State 500%float true None 0 ∅ 1%positive [] [] [] []).

(** The commands of the protocol. *)
Definition command (name : string) : jsval :=
  VObject {[ "command" := VString name ]}.
Definition setInterval_command (interval : jsval) : jsval :=
  VObject (<[ "interval" := interval ]> {[ "command" := VString "setInterval" ]}).

Definition is_start (ev : event) : bool :=
  match ev with
  | Message _ data =>
      match get_prop data "command" with
      | inr c => is_str c "start"
      | inl _ => false
      end
  | _ => false
  end.

(** A command that begins a fetch cycle of its own: [start] or [poll]. The
    orchestrator sends neither, only [stop]. *)
Definition begins_cycle (ev : event) : bool :=
  match ev with
  | Message _ data =>
      match get_prop data "command" with
      | inr c => is_str c "start" || is_str c "poll"
      | inl _ => false
      end
  | _ => false
  end.

(** One polling loop: either no request is in flight and the only timeout
    that can be pending is the one in [pollTimer], or one request is in
    flight and no timeout is pending. *)
Definition single_loop (st : state) : Prop :=
  (in_flight st = [] /\ forall id, is_Some (timers st !! id) -> pollTimer st = Some id)
  \/ ((exists timestamp, in_flight st = [timestamp]) /\ timers st = ∅).

(** The number of [error] messages at the end of the outbox: the failures
    since the last [motorData] message. *)
Fixpoint leading_errors (l : list out_msg) : nat :=
  match l with
  | ErrorMsg _ :: l' => S (leading_errors l')
  | _ => O
  end.

Definition trailing_errors (l : list out_msg) : nat := leading_errors (rev l).

End Worker.

(** ** main.js: the orchestrator *)
Module Main.

(** The reactive references the set-up functions work on: [robotData.value]
    (an object), [motorUpdateKey.value], [lastUpdate.value] (the clock reading
    it was rendered from), [error.value] ([null] or a message) and
    [loading.value]. *)
Record state := State {
  robotData : gmap string jsval;
  motorUpdateKey : Z;
  lastUpdate : Z;
  error : option string;
  loading : bool;
}.

(** [response.ok] check that throws, then [await response.json()]. *)
Definition json_or_throw (r : fetch_result) : js_error + jsval :=
  match r with
  | FetchRejected err => inl err
  | FetchResponse ok status body =>
      if negb ok then
        inl (JsError "Error" ("Server responded with status: " +:+ pretty status))
      else body
  end.

(** The [catch] and [finally] blocks of [fetchGeneralData] and
    [fetchAllData]. *)
Definition load_failed (err : js_error) (st : state) : state :=
  State (robotData st) (motorUpdateKey st) (lastUpdate st)
    (Some ("Failed to load data: " +:+ err_message err)) false.

(** The object literal assigned to [robotData.value] in
    [fetchGeneralData]. *)
Definition general_merge (data : jsval) (rd : gmap string jsval)
  : js_error + gmap string jsval :=
  match get_prop data "ping_status",
        get_prop data "robot_status",
        get_prop data "cleaning_device_status" with
  | inr ping_status, inr robot_status, inr cleaning_device_status =>
      inr (<["cleaningDeviceStatus" :=
               js_or (js_or cleaning_device_status (field rd "cleaningDeviceStatus"))
                     (VObject ∅)]>
          (<["robotStatus" :=
               js_or (js_or robot_status (field rd "robotStatus")) (VObject ∅)]>
          (<["pingStatus" :=
               js_or (js_or ping_status (field rd "pingStatus")) (VObject ∅)]> rd)))
  | inl err, _, _ | _, inl err, _ | _, _, inl err => inl err
  end.

(** [fetchGeneralData] of [setupMotorDataWorker], from the point where its
    request has settled with [r]. *)
Definition fetchGeneralData_resume (now : Z) (r : fetch_result) (st : state) : state :=
  match json_or_throw r with
  | inl err => load_failed err st
  | inr data =>
      match general_merge data (robotData st) with
      | inl err => load_failed err st
      | inr rd => State rd (motorUpdateKey st) now None false
      end
  end.

(** [fetchAllData] of [setupMotorDataUpdateRate]. *)
Definition fetchAllData_resume (now : Z) (r : fetch_result) (st : state) : state :=
  match json_or_throw r with
  | inl err => load_failed err st
  | inr data =>
      match get_prop data "ping_status",
            get_prop data "robot_status",
            get_prop data "cleaning_device_status",
            get_prop data "motor_data" with
      | inr ping_status, inr robot_status, inr cleaning_device_status, inr motor_data =>
          State
            (<["motorData" := js_or motor_data (VObject ∅)]>
            (<["cleaningDeviceStatus" := js_or cleaning_device_status (VObject ∅)]>
            (<["robotStatus" := js_or robot_status (VObject ∅)]>
            (<["pingStatus" := js_or ping_status (VObject ∅)]> ∅))))
            (motorUpdateKey st) now None false
      | inl err, _, _, _ | _, inl err, _, _ | _, _, inl err, _ | _, _, _, inl err =>
          load_failed err st
      end
  end.

(** [robotData.value.motorData = motor_data; motorUpdateKey.value++] *)
Definition motor_merge (motor_data : jsval) (st : state) : state :=
  State (<["motorData" := motor_data]> (robotData st)) (motorUpdateKey st + 1)
    (lastUpdate st) (error st) (loading st).

(** [fetchMotorDataOnly] of [setupMotorDataUpdateRate], from the point where
    its request has settled: a response that is not ok returns silently, an
    exception is caught and only logged. *)
Definition fetchMotorDataOnly_resume (r : fetch_result) (st : state) : state :=
  match r with
  | FetchRejected _ => st
  | FetchResponse ok _ body =>
      if negb ok then st
      else
        match body with
        | inl _ => st
        | inr data =>
            match get_prop data "motor_data" with
            | inl _ => st
            | inr motor_data =>
                if truthy motor_data then motor_merge motor_data st else st
            end
        end
  end.

(** The interval callback of [setupFallbackPolling], likewise. *)
Definition fallbackPoll_resume (r : fetch_result) (st : state) : state :=
  match r with
  | FetchRejected _ => st
  | FetchResponse ok _ body =>
      if negb ok then st
      else
        match body with
        | inl _ => st
        | inr data =>
            match get_prop data "motor_data" with
            | inl _ => st
            | inr motor_data =>
                if truthy motor_data then motor_merge motor_data st else st
            end
        end
  end.

(** The ['message'] listener that [initWorker] installs on the worker. *)
Definition worker_onmessage (message : out_msg) (st : state) : state :=
  match message with
  | MotorDataMsg motorData pingStatus _ =>
      if truthy motorData then
        let rd := <["motorData" := motorData]> (robotData st) in
        let rd :=
          if truthy pingStatus then
            <["pingStatus" := VObject (spread2 (field rd "pingStatus") pingStatus)]> rd
          else rd in
        State rd (motorUpdateKey st + 1) (lastUpdate st) (error st) (loading st)
      else st
  | ErrorMsg _ => st
  end.

(** What can happen to the references: a request of one of the four fetch
    functions settles, or a message arrives from the worker. *)
Inductive event :=
  | GeneralSettled (now : Z) (r : fetch_result)
  | AllSettled (now : Z) (r : fetch_result)
  | MotorOnlySettled (r : fetch_result)
  | FallbackSettled (r : fetch_result)
  | WorkerMessage (message : out_msg).

Definition step (st : state) (ev : event) : state :=
  match ev with
  | GeneralSettled now r => fetchGeneralData_resume now r st
  | AllSettled now r => fetchAllData_resume now r st
  | MotorOnlySettled r => fetchMotorDataOnly_resume r st
  | FallbackSettled r => fallbackPoll_resume r st
  | WorkerMessage message => worker_onmessage message st
  end.

Definition run (st : state) (evs : list event) : state := foldl step st evs.



(** *** The start sequence of [setupMotorDataWorker] *)

Inductive callback := FetchGeneralData | FallbackPoll.

(** The effects of the [cleanup] closures: [clearInterval(id)], and the block
    that stops and terminates the worker if there is one. *)
Inductive cleanup_step := ClearInterval (id : positive) | StopWorker.

(** What the start sequence acts on: the [setInterval] registrations (callback
    and period by id), the next id, whether [worker] holds a worker, the
    [let cleanup] binding ([None] until its declaration has been evaluated),
    and the number of requests [fetchGeneralData] has issued. *)
Record runtime := Runtime {
  intervals : gmap positive (callback * Z);
  next_interval : positive;
  worker : bool;
  cleanup : option (list cleanup_step);
  general_requests : nat;
}.

(** [setInterval(cb, period)] *)
Definition setInterval (cb : callback) (period : Z) : M runtime positive :=
  fun rt =>
    (inr (next_interval rt),
     Runtime (<[next_interval rt := (cb, period)]> (intervals rt))
       (Pos.succ (next_interval rt)) (worker rt) (cleanup rt) (general_requests rt)).

(** Reading [cleanup]: a [let] binding cannot be read before its declaration
    has been evaluated. *)
Definition read_cleanup : M runtime (list cleanup_step) :=
  fun rt =>
    match cleanup rt with
    | Some c => (inr c, rt)
    | None =>
        (inl (JsError "ReferenceError" "Cannot access 'cleanup' before initialization"),
         rt)
    end.

Definition write_cleanup (c : list cleanup_step) : M runtime unit :=
  update (fun rt => Runtime (intervals rt) (next_interval rt) (worker rt) (Some c)
                      (general_requests rt)).

Definition set_worker : M runtime unit :=
  update (fun rt => Runtime (intervals rt) (next_interval rt) true (cleanup rt)
                      (general_requests rt)).

(** [fetchGeneralData()], up to its first [await]. *)
Definition fetchGeneralData_begin : M runtime unit :=
  update (fun rt => Runtime (intervals rt) (next_interval rt) (worker rt) (cleanup rt)
                      (S (general_requests rt))).

Definition setupFallbackPolling : M runtime unit :=
  let! motorInterval := setInterval FallbackPoll 1000 in
  let! originalCleanup := read_cleanup in
  write_cleanup (originalCleanup ++ [ClearInterval motorInterval]).

(** [new_Worker] is how [new Worker(...)] ends: [None] when it returns a
    worker, [Some err] when it throws [err]. The [catch] block is not inside
    any other [try]. *)
Definition initWorker (new_Worker : option js_error) : M runtime unit :=
  match new_Worker with
  | None => set_worker
  | Some _ => setupFallbackPolling
  end.

(** The body of [setupMotorDataWorker] after its function definitions; it
    returns the [cleanup] of the handle. *)
Definition setupMotorDataWorker (new_Worker : option js_error)
  : M runtime (list cleanup_step) :=
  fetchGeneralData_begin ;;;
  let! mainDataInterval := setInterval FetchGeneralData 5000 in
  initWorker new_Worker ;;;
  write_cleanup [ClearInterval mainDataInterval; StopWorker] ;;;
  read_cleanup.

Definition fresh : runtime := Runtime ∅ 1%positive false None 0.

(** One effect of a [cleanup] closure: [clearInterval(id)], or the block
    [if (worker) { worker.postMessage({command: 'stop'}); worker.terminate();
    worker = null; }]. *)
Definition run_cleanup_step (rt : runtime) (c : cleanup_step) : runtime :=
  match c with
  | ClearInterval id =>
      Runtime (delete id (intervals rt)) (next_interval rt) (worker rt) (cleanup rt)
        (general_requests rt)
  | StopWorker =>
      if worker rt then
        Runtime (intervals rt) (next_interval rt) false (cleanup rt) (general_requests rt)
      else rt
  end.

(** Calling the [cleanup] of a handle. *)
Definition run_cleanup (c : list cleanup_step) (rt : runtime) : runtime :=
  foldl run_cleanup_step rt c.

(** *** [setupMotorDataUpdateRate] *)

(** The callbacks [setupMotorDataUpdateRate] hands to the timer functions; the
    third is the arrow function that starts the motor interval. *)
Inductive rate_callback := FetchAllData | FetchMotorDataOnly | StartMotorInterval.

Inductive timer_kind := Repeating | OneShot.

(** What [setupMotorDataUpdateRate] acts on: the timers of the page, by id
    ([setInterval] and [setTimeout] draw their ids from one pool, and
    [clearInterval] cancels whichever timer has the id); the next id; the
    variables [mainDataInterval] and [motorDataInterval] ([None] while
    [undefined]); and the number of requests [fetchAllData] has issued. *)
Record rate_runtime := RateRuntime {
  rate_timers : gmap positive (timer_kind * rate_callback * Z);
  rate_next : positive;
  mainDataInterval : option positive;
  motorDataInterval : option positive;
  all_requests : nat;
}.

(** [setInterval(cb, ms)] or [setTimeout(cb, ms)]: the id, and the runtime with
    the timer. *)
Definition add_timer (kind : timer_kind) (cb : rate_callback) (ms : Z)
    (rt : rate_runtime) : positive * rate_runtime :=
  (rate_next rt,
   RateRuntime (<[rate_next rt := (kind, cb, ms)]> (rate_timers rt))
     (Pos.succ (rate_next rt)) (mainDataInterval rt) (motorDataInterval rt)
     (all_requests rt)).

(** [clearInterval(v)]: with [undefined] it cancels nothing. *)
Definition clearInterval (v : option positive) (rt : rate_runtime) : rate_runtime :=
  match v with
  | Some id =>
      RateRuntime (delete id (rate_timers rt)) (rate_next rt) (mainDataInterval rt)
        (motorDataInterval rt) (all_requests rt)
  | None => rt
  end.

(** The body of [setupMotorDataUpdateRate] after its function definitions:
    the two interval variables are declared, [fetchAllData()] issues its
    request, the main interval is set, and the start of the motor interval is
    put off by a second. *)
Definition setupMotorDataUpdateRate (rt : rate_runtime) : rate_runtime :=
  let rt := RateRuntime (rate_timers rt) (rate_next rt) None None
              (S (all_requests rt)) in
  let '(id, rt) := add_timer Repeating FetchAllData 1000 rt in
  let rt := RateRuntime (rate_timers rt) (rate_next rt) (Some id)
              (motorDataInterval rt) (all_requests rt) in
  snd (add_timer OneShot StartMotorInterval 1000 rt).

(** The timer [id] fires. A one-shot timer is gone once it has fired; the
    delayed arrow function sets the motor interval and stores its id. The
    interval callbacks only issue requests. *)
Definition rate_timer_fires (id : positive) (rt : rate_runtime) : rate_runtime :=
  match rate_timers rt !! id with
  | Some (OneShot, StartMotorInterval, _) =>
      let rt := RateRuntime (delete id (rate_timers rt)) (rate_next rt)
                  (mainDataInterval rt) (motorDataInterval rt) (all_requests rt) in
      let '(motor, rt) := add_timer Repeating FetchMotorDataOnly 50 rt in
      RateRuntime (rate_timers rt) (rate_next rt) (mainDataInterval rt) (Some motor)
        (all_requests rt)
  | Some (Repeating, FetchAllData, _) =>
      RateRuntime (rate_timers rt) (rate_next rt) (mainDataInterval rt)
        (motorDataInterval rt) (S (all_requests rt))
  | _ => rt
  end.

(** The [cleanup] of the handle [setupMotorDataUpdateRate] returns. *)
Definition rate_cleanup (rt : rate_runtime) : rate_runtime :=
  let rt := clearInterval (mainDataInterval rt) rt in
  clearInterval (motorDataInterval rt) rt.

End Main.


(** * Properties *)

(** ** Decimal digits *)

Lemma is_digit_digit_char d : 0 <= d < 10 -> is_digit (digit_char d) = true.
Proof.
  intros H. unfold is_digit, digit_char.
  rewrite nat_ascii_embedding by lia.
  apply andb_true_iff; split; apply Nat.leb_le; lia.
Qed.

Lemma decimal_go_digits fuel : forall n acc,
  0 <= n -> forallb is_digit acc = true ->
  forallb is_digit (decimal_go fuel n acc) = true.
Proof.
  induction fuel as [|fuel IH]; intros n acc Hn Hacc; cbn [decimal_go]; [done|].
  assert (Hd : forallb is_digit (digit_char (n mod 10) :: acc) = true).
  { cbn [forallb]. rewrite is_digit_digit_char; [done|]. apply Z.mod_pos_bound. lia. }
  destruct (n <? 10); [done|].
  apply IH; [|done]. apply Z.div_pos; lia.
Qed.

Lemma decimal_digits n : 0 <= n -> forallb is_digit (decimal n) = true.
Proof. intros. by apply decimal_go_digits. Qed.

Lemma decimal_go_length fuel : forall n acc,
  (length acc <= length (decimal_go fuel n acc))%nat.
Proof.
  induction fuel as [|fuel IH]; intros n acc; cbn [decimal_go]; [lia|].
  destruct (n <? 10); cbn [length]; [lia|].
  etrans; [|apply IH]. cbn [length]. lia.
Qed.

Lemma decimal_nonempty n : (1 <= length (decimal n))%nat.
Proof.
  unfold decimal. cbn [decimal_go]. destruct (n <? 10); cbn [length]; [lia|].
  etrans; [|apply decimal_go_length]. cbn [length]. lia.
Qed.

(** A number with three decimal digits is rendered with three characters. *)
Lemma decimal_three n :
  100 <= n < 1000 -> exists a b c, decimal n = [a; b; c].
Proof.
  intros Hn. unfold decimal.
  assert (6 <= Z.log2 n) by (change 6 with (Z.log2 64); apply Z.log2_le_mono; lia).
  destruct (Z.to_nat (Z.log2 n)) as [|[|fuel]] eqn:E; [lia..|].
  cbn [decimal_go].
  assert (n / 10 / 10 < 10) by (do 2 (apply Z.div_lt_upper_bound; [lia|]); lia).
  assert (10 <= n / 10) by (apply Z.div_le_lower_bound; lia).
  rewrite (proj2 (Z.ltb_ge n 10)) by lia.
  rewrite (proj2 (Z.ltb_ge (n / 10) 10)) by lia.
  rewrite (proj2 (Z.ltb_lt (n / 10 / 10) 10)) by lia.
  eauto.
Qed.

Lemma span_digits_app ds c rest :
  forallb is_digit ds = true -> is_digit c = false ->
  span_digits (ds ++ c :: rest) = (ds, c :: rest).
Proof.
  intros Hds Hc. induction ds as [|d ds IH]; simpl in *.
  - by rewrite Hc.
  - apply andb_true_iff in Hds as [-> Hds]. by rewrite IH.
Qed.

Lemma strip_sign_digits s l c :
  is_digit c = true -> strip_sign (sign_chars s ++ c :: l) = c :: l.
Proof.
  intros Hc. destruct s; cbn; [done|].
  destruct (Ascii.eqb_spec c "-") as [->|]; [done|done].
Qed.

(** The digits of [fixed_digits]: a non-empty integer part, a point and [fd]
    fractional digits. *)
Lemma fixed_digits_shape fd n :
  0 <= n ->
  exists ip fp, fixed_digits (S fd) n = ip ++ "."%char :: fp
    /\ (1 <= length ip)%nat /\ forallb is_digit ip = true
    /\ length fp = S fd /\ forallb is_digit fp = true.
Proof.
  intros Hn. unfold fixed_digits.
  set (m := if (length (decimal n) <=? S fd)%nat
            then replicate (S fd + 1 - length (decimal n)) "0"%char ++ decimal n
            else decimal n).
  assert (Hlen : (S fd + 1 <= length m)%nat).
  { subst m. destruct (Nat.leb_spec (length (decimal n)) (S fd)).
    - rewrite length_app, length_replicate. lia.
    - lia. }
  assert (Hdig : forallb is_digit m = true).
  { subst m. destruct (_ <=? _)%nat; [|by apply decimal_digits].
    rewrite forallb_app, decimal_digits by done.
    rewrite andb_true_r. apply forallb_forall. intros c Hc.
    apply list_elem_of_In, elem_of_replicate in Hc as [-> _]. done. }
  exists (take (length m - S fd) m), (drop (length m - S fd) m).
  split; [done|]. rewrite length_take, length_drop.
  rewrite <- (take_drop (length m - S fd) m), forallb_app in Hdig.
  apply andb_true_iff in Hdig as [? ?]. repeat split; [lia|done|lia|done].
Qed.

Lemma fixed_form_intro fd s ip fp :
  (1 <= length ip)%nat -> forallb is_digit ip = true ->
  length fp = fd -> forallb is_digit fp = true ->
  fixed_form fd (string_of_list_ascii (sign_chars s ++ ip ++ "."%char :: fp)) = true.
Proof.
  intros Hip Hdip Hfp Hdfp. unfold fixed_form.
  rewrite list_ascii_of_string_of_list_ascii.
  destruct ip as [|c ip]; [cbn in Hip; lia|].
  cbn [forallb] in Hdip. apply andb_true_iff in Hdip as [Hc Hdip].
  rewrite <- app_comm_cons, strip_sign_digits by done.
  rewrite app_comm_cons, span_digits_app by (cbn [forallb]; by rewrite ?Hc, ?Hdip).
  rewrite Hdfp, Hfp, Nat.eqb_refl. done.
Qed.

Lemma fixed_digits_form fd s n :
  0 <= n ->
  fixed_form (S fd) (string_of_list_ascii (sign_chars s ++ fixed_digits (S fd) n)) = true.
Proof.
  intros Hn. destruct (fixed_digits_shape fd n Hn) as (ip & fp & -> & ? & ? & ? & ?).
  by apply fixed_form_intro.
Qed.

Lemma round_half_up_nonneg p q : 0 <= p -> 0 < q -> 0 <= round_half_up p q.
Proof. intros. unfold round_half_up. apply Z.div_pos; lia. Qed.

(** ** Exponent search *)

Lemma log10_up_spec fuel : forall p q e,
  0 < q <= p -> p < q * 2 ^ Z.of_nat fuel -> 0 <= e ->
  exists e' q', log10_up fuel p q e = (e', q') /\ 0 < q' <= p /\ p < 10 * q' /\ 0 <= e'.
Proof.
  induction fuel as [|fuel IH]; intros p q e Hq Hp He.
  - change (2 ^ Z.of_nat 0) with 1 in Hp. lia.
  - cbn [log10_up]. destruct (Z.leb_spec (10 * q) p) as [Hle|Hgt].
    + apply IH; [lia| |lia].
      rewrite Nat2Z.inj_succ, Z.pow_succ_r in Hp by lia.
      assert (0 < 2 ^ Z.of_nat fuel) by (apply Z.pow_pos_nonneg; lia). nia.
    + exists e, q. repeat split; lia.
Qed.

Lemma normalize10_ge1 p q :
  0 < q <= p ->
  exists e q', normalize10 p q = (e, p, q') /\ 0 < q' <= p /\ p < 10 * q' /\ 0 <= e.
Proof.
  intros Hq. unfold normalize10.
  rewrite (proj2 (Z.leb_le q p)) by lia.
  destruct (log10_up_spec (S (Z.to_nat (Z.log2 p))) p q 0) as (e & q' & -> & ?); [lia| |lia|eauto].
  rewrite Nat2Z.inj_succ, Z2Nat.id by apply Z.log2_nonneg.
  assert (p < 2 ^ Z.succ (Z.log2 p)) by (apply Z.log2_spec; lia).
  assert (0 < 2 ^ Z.succ (Z.log2 p)) by lia. nia.
Qed.

(** For a value of at least one, [exponential_digits 2] is a digit, a point,
    two digits, [e+] and a non-empty exponent. *)
Lemma exponential_digits_shape p q :
  0 < q <= p ->
  exists a b c ex, exponential_digits 2 p q
                   = a :: "."%char :: b :: c :: "e"%char :: "+"%char :: ex
    /\ forallb is_digit [a; b; c] = true
    /\ (1 <= length ex)%nat /\ forallb is_digit ex = true.
Proof.
  intros Hq. unfold exponential_digits.
  destruct (normalize10_ge1 p q Hq) as (e & q' & -> & Hq' & Hp & He).
  change (10 ^ Z.of_nat 2) with 100. change (10 ^ Z.of_nat 3) with 1000.
  set (n0 := round_half_up (p * 100) q').
  assert (Hn0 : 100 <= n0 <= 1000).
  { subst n0. unfold round_half_up. split.
    - apply Z.div_le_lower_bound; lia.
    - assert ((2 * (p * 100) + q') / (2 * q') < 1001); [|lia].
      apply Z.div_lt_upper_bound; lia. }
  assert (exists e1 n, (if n0 =? 1000 then (e + 1, 100) else (e, n0)) = (e1, n)
                       /\ 0 <= e1 /\ 100 <= n < 1000) as (e1 & n & -> & He1 & Hn).
  { destruct (Z.eqb_spec n0 1000); eexists _, _; (split; [done|]); lia. }
  destruct (decimal_three n Hn) as (a & b & c & Hd).
  pose proof (decimal_digits n ltac:(lia)) as Hdig.
  rewrite Hd in Hdig |- *. cbn [take drop app].
  rewrite (proj2 (Z.ltb_ge e1 0)) by lia.
  exists a, b, c, (decimal (Z.abs e1)). repeat split; [done| |].
  - apply decimal_nonempty.
  - apply decimal_digits. lia.
Qed.

Lemma exponential_form_intro s a b c ex :
  forallb is_digit [a; b; c] = true ->
  (1 <= length ex)%nat -> forallb is_digit ex = true ->
  exponential_form 2
    (string_of_list_ascii
       (sign_chars s ++ a :: "."%char :: b :: c :: "e"%char :: "+"%char :: ex)) = true.
Proof.
  intros Habc Hlen Hex. unfold exponential_form.
  cbn [forallb] in Habc.
  apply andb_true_iff in Habc as [Ha [Hb [Hc _]%andb_true_iff]%andb_true_iff].
  rewrite list_ascii_of_string_of_list_ascii, strip_sign_digits by done.
  rewrite Ha. change (b :: c :: "e"%char :: "+"%char :: ex)
    with ([b; c] ++ "e"%char :: "+"%char :: ex).
  rewrite span_digits_app by (cbn [forallb]; by rewrite ?Hb, ?Hc).
  rewrite Hex. destruct ex; [cbn in Hlen; lia|]. done.
Qed.

(** ** Binary64 values and their comparisons *)

Lemma digits2_pos_bounds m :
  2 ^ (Z.pos (digits2_pos m) - 1) <= Z.pos m < 2 ^ Z.pos (digits2_pos m).
Proof.
  induction m as [m IH|m IH|]; cbn [digits2_pos].
  - rewrite Pos2Z.inj_succ. replace (Z.succ (Z.pos (digits2_pos m)) - 1)
      with (Z.succ (Z.pos (digits2_pos m) - 1)) by lia.
    rewrite !Z.pow_succ_r by lia. lia.
  - rewrite Pos2Z.inj_succ. replace (Z.succ (Z.pos (digits2_pos m)) - 1)
      with (Z.succ (Z.pos (digits2_pos m) - 1)) by lia.
    rewrite !Z.pow_succ_r by lia. lia.
  - change (2 ^ (1 - 1)) with 1. change (2 ^ 1) with 2. lia.
Qed.

(** The mantissa and exponent of a finite non-zero binary64 number. *)
Lemma finite_bounds x s m e :
  Prim2SF x = S754_finite s m e ->
  Z.pos m < 2 ^ 53 /\ -1074 <= e <= 971 /\ (-1074 < e -> 2 ^ 52 <= Z.pos m).
Proof.
  intros E. pose proof (Prim2SF_valid x) as V. rewrite E in V.
  cbn [SpecFloat.valid_binary] in V. unfold bounded, canonical_mantissa, fexp in V.
  apply andb_true_iff in V as [V1 V2].
  apply Z.eqb_eq in V1. apply Z.leb_le in V2.
  change (SpecFloat.emin prec emax) with (-1074) in V1.
  change prec with 53 in V1. change (emax - prec) with 971 in V2.
  pose proof (digits2_pos_bounds m) as [Hlo Hhi].
  assert (Hd : Z.pos (digits2_pos m) <= 53) by lia.
  split; [|split; [lia|]].
  - eapply Z.lt_le_trans; [exact Hhi|]. apply Z.pow_le_mono_r; lia.
  - intros He. assert (Z.pos (digits2_pos m) = 53) as Hd53 by lia.
    rewrite Hd53 in Hlo. exact Hlo.
Qed.

Lemma ratio_pos m e p q : ratio m e = (p, q) -> 0 < p /\ 0 < q.
Proof.
  unfold ratio. destruct (Z.leb_spec 0 e); intros [= <- <-].
  - assert (0 < 2 ^ e) by (apply Z.pow_pos_nonneg; lia). lia.
  - assert (0 < 2 ^ (- e)) by (apply Z.pow_pos_nonneg; lia). lia.
Qed.

Lemma abs_finite x s m e :
  Prim2SF x = S754_finite s m e -> Prim2SF (abs x) = S754_finite false m e.
Proof. intros E. by rewrite FloatAxioms.abs_spec, E. Qed.

(** [1000 < |x|] on a finite non-zero [x = m * 2^e], read on the fraction. *)
Lemma gt_1000_ratio x s m e p q :
  Prim2SF x = S754_finite s m e -> ratio m e = (p, q) ->
  (1000 <? abs x)%float = true -> 1000 * q < p.
Proof.
  intros E R H. pose proof (finite_bounds x s m e E) as (Hm & He & Hn).
  rewrite FloatAxioms.ltb_spec, (abs_finite x s m e E) in H.
  change (Prim2SF 1000) with (S754_finite false 8796093022208000 (-43)) in H.
  unfold SFltb, SFcompare in H. unfold ratio in R.
  destruct (Z.compare_spec (-43) e) as [<-|Hlt|Hgt]; [| |discriminate H].
  - cbn in R. injection R as <- <-. rewrite Pos.compare_cont_spec in H.
    cbn [Pos.switch_Eq] in H. change (2 ^ (- (-43))) with 8796093022208.
    destruct (Pos.compare_spec 8796093022208000 m) as [A|A|A];
      first [discriminate H | apply (f_equal Z.pos) in A; lia
            | apply Pos2Z.pos_lt_pos in A; lia].
  - specialize (Hn ltac:(lia)). change (2 ^ 52) with 4503599627370496 in Hn.
    destruct (Z.leb_spec 0 e); injection R as <- <-.
    + assert (0 < 2 ^ e) by (apply Z.pow_pos_nonneg; lia). nia.
    + assert (2 ^ (- e) <= 2 ^ 42) by (apply Z.pow_le_mono_r; lia).
      change (2 ^ 42) with 4398046511104 in *. lia.
Qed.

Lemma le_1000_ratio x s m e p q :
  Prim2SF x = S754_finite s m e -> ratio m e = (p, q) ->
  (1000 <? abs x)%float = false -> p <= 1000 * q.
Proof.
  intros E R H. pose proof (finite_bounds x s m e E) as (Hm & He & Hn).
  rewrite FloatAxioms.ltb_spec, (abs_finite x s m e E) in H.
  change (Prim2SF 1000) with (S754_finite false 8796093022208000 (-43)) in H.
  unfold SFltb, SFcompare in H. unfold ratio in R.
  change (2 ^ 53) with 9007199254740992 in Hm. clear Hn.
  destruct (Z.compare_spec (-43) e) as [<-|Hlt|Hgt]; [|discriminate H|].
  - cbn in R. injection R as <- <-. rewrite Pos.compare_cont_spec in H.
    cbn [Pos.switch_Eq] in H. change (2 ^ (- (-43))) with 8796093022208.
    destruct (Pos.compare_spec 8796093022208000 m) as [A|A|A];
      first [discriminate H | apply (f_equal Z.pos) in A; lia
            | apply Pos2Z.pos_lt_pos in A; lia].
  - rewrite (proj2 (Z.leb_gt 0 e)) in R by lia. injection R as <- <-.
    assert (2 ^ 44 <= 2 ^ (- e)) by (apply Z.pow_le_mono_r; lia).
    change (2 ^ 44) with 17592186044416 in *. lia.
Qed.

Lemma lt_1e21_ratio x s m e p q :
  Prim2SF x = S754_finite s m e -> ratio m e = (p, q) ->
  (abs x <? 1e21)%float = true -> p < 10 ^ 21 * q.
Proof.
  intros E R H. pose proof (finite_bounds x s m e E) as (Hm & He & Hn).
  rewrite FloatAxioms.ltb_spec, (abs_finite x s m e E) in H.
  change (Prim2SF 1e21) with (S754_finite false 7629394531250000 17) in H.
  unfold SFltb, SFcompare in H. unfold ratio in R.
  change (2 ^ 53) with 9007199254740992 in Hm. clear Hn.
  change (10 ^ 21) with 1000000000000000000000.
  destruct (Z.compare_spec e 17) as [->|Hlt|Hgt]; [| |discriminate H].
  - cbn in R. injection R as <- <-. rewrite Pos.compare_cont_spec in H.
    cbn [Pos.switch_Eq] in H. change (2 ^ 17) with 131072.
    destruct (Pos.compare_spec m 7629394531250000) as [A|A|A];
      first [discriminate H | apply (f_equal Z.pos) in A; lia
            | apply Pos2Z.pos_lt_pos in A; lia].
  - destruct (Z.leb_spec 0 e); injection R as <- <-.
    + assert (2 ^ e <= 2 ^ 16) by (apply Z.pow_le_mono_r; lia).
      assert (0 < 2 ^ e) by (apply Z.pow_pos_nonneg; lia).
      change (2 ^ 16) with 65536 in *. nia.
    + assert (0 < 2 ^ (- e)) by (apply Z.pow_pos_nonneg; lia). nia.
Qed.

Lemma scale_lt m1 e1 m2 e2 :
  0 <= e1 < e2 -> 0 < m1 < 2 ^ 53 -> 2 ^ 52 <= m2 ->
  m1 * 2 ^ e1 < m2 * 2 ^ e2.
Proof.
  intros He Hm1 Hm2.
  replace e2 with (e1 + (e2 - e1)) by lia. rewrite Z.pow_add_r by lia.
  assert (2 ^ 1 <= 2 ^ (e2 - e1)) by (apply Z.pow_le_mono_r; lia).
  assert (0 < 2 ^ e1) by (apply Z.pow_pos_nonneg; lia).
  change (2 ^ 1) with 2 in *. change (2 ^ 53) with (2 * 2 ^ 52) in Hm1.
  generalize dependent (2 ^ 52). generalize dependent (2 ^ e1).
  generalize dependent (2 ^ (e2 - e1)). intros B HB A HA C Hm1 Hm2.
  assert (m1 * A < 2 * C * A) by nia.
  assert (2 * C * A <= 2 * m2 * A) by nia.
  assert (2 * (m2 * A) <= B * (m2 * A)) by (apply Z.mul_le_mono_nonneg_r; nia).
  nia.
Qed.

(** Comparing a positive finite constant [c = mc * 2^ec] with the magnitude
    of a finite non-zero [x = m * 2^e] is comparing the two values, here both
    in units of 2^-1074. *)
Lemma ltb_abs_finite c mc ec x s m e :
  Prim2SF c = S754_finite false mc ec -> Prim2SF x = S754_finite s m e ->
  (c <? abs x)%float = true
  <-> Z.pos mc * 2 ^ (ec + 1074) < Z.pos m * 2 ^ (e + 1074).
Proof.
  intros Ec Ex.
  pose proof (finite_bounds c false mc ec Ec) as (Hmc & Hec & Hnc).
  pose proof (finite_bounds x s m e Ex) as (Hm & He & Hn).
  rewrite FloatAxioms.ltb_spec, (abs_finite x s m e Ex), Ec.
  unfold SFltb, SFcompare.
  destruct (Z.compare_spec ec e) as [->|Hlt|Hgt].
  - rewrite Pos.compare_cont_spec. cbn [Pos.switch_Eq].
    assert (0 < 2 ^ (e + 1074)) by (apply Z.pow_pos_nonneg; lia).
    generalize dependent (2 ^ (e + 1074)). intros P HP.
    destruct (Pos.compare_spec mc m) as [A|A|A].
    + subst. split; [discriminate|lia].
    + apply Pos2Z.pos_lt_pos in A. split; [intros _; nia|done].
    + apply Pos2Z.pos_lt_pos in A. split; [discriminate|nia].
  - split; [intros _|done]. apply scale_lt; [lia|lia|apply Hn; lia].
  - split; [discriminate|]. intros H.
    assert (Z.pos m * 2 ^ (e + 1074) < Z.pos mc * 2 ^ (ec + 1074));
      [apply scale_lt; [lia|lia|apply Hnc; lia]|lia].
Qed.

(** The same for [c < x]: a negative [x] is never above [c]. *)
Lemma ltb_finite c mc ec x s m e :
  Prim2SF c = S754_finite false mc ec -> Prim2SF x = S754_finite s m e ->
  (c <? x)%float = true
  <-> s = false /\ Z.pos mc * 2 ^ (ec + 1074) < Z.pos m * 2 ^ (e + 1074).
Proof.
  intros Ec Ex. destruct s.
  - rewrite FloatAxioms.ltb_spec, Ec, Ex. cbn. split; [discriminate|intros [? _]; done].
  - rewrite <- (ltb_abs_finite c mc ec x false m e Ec Ex).
    rewrite !FloatAxioms.ltb_spec, (abs_finite x false m e Ex), Ex. tauto.
Qed.

(** ** Shapes of [toFixed] and [toExponential] *)

Lemma is_nan_nan x : Prim2SF x = S754_nan -> is_nan x = true.
Proof.
  intros E. unfold is_nan. by rewrite FloatAxioms.eqb_spec, E.
Qed.

Lemma toFixed_finite_form nts fd x :
  (abs x <? 1e21)%float = true ->
  fixed_form (S fd) (toFixed nts (S fd) x) = true.
Proof.
  intros H. unfold toFixed. destruct (Prim2SF x) as [s|s| |s m e] eqn:E.
  - by apply (fixed_digits_form fd false 0).
  - rewrite FloatAxioms.ltb_spec, FloatAxioms.abs_spec, E in H. done.
  - rewrite FloatAxioms.ltb_spec, FloatAxioms.abs_spec, E in H. done.
  - destruct (ratio m e) as [p q] eqn:R.
    pose proof (lt_1e21_ratio x s m e p q E R H).
    pose proof (ratio_pos m e p q R) as [? ?].
    rewrite (proj2 (Z.leb_gt (10 ^ 21 * q) p)) by done.
    apply fixed_digits_form, round_half_up_nonneg; [|done].
    assert (0 < 10 ^ Z.of_nat (S fd)) by (apply Z.pow_pos_nonneg; lia). nia.
Qed.

Lemma toFixed_small_form nts fd x :
  is_nan x = false -> (1000 <? abs x)%float = false ->
  fixed_form (S fd) (toFixed nts (S fd) x) = true.
Proof.
  intros Hnan H. unfold toFixed. destruct (Prim2SF x) as [s|s| |s m e] eqn:E.
  - by apply (fixed_digits_form fd false 0).
  - rewrite FloatAxioms.ltb_spec, FloatAxioms.abs_spec, E in H. done.
  - by rewrite is_nan_nan in Hnan.
  - destruct (ratio m e) as [p q] eqn:R.
    pose proof (le_1000_ratio x s m e p q E R H).
    pose proof (ratio_pos m e p q R) as [? ?].
    rewrite (proj2 (Z.leb_gt (10 ^ 21 * q) p)).
    2:{ change (10 ^ 21) with 1000000000000000000000. lia. }
    apply fixed_digits_form, round_half_up_nonneg; [|done].
    assert (0 < 10 ^ Z.of_nat (S fd)) by (apply Z.pow_pos_nonneg; lia). nia.
Qed.

Lemma toExponential_large_form x :
  is_infinity x = false -> (1000 <? abs x)%float = true ->
  exponential_form 2 (toExponential 2 x) = true.
Proof.
  intros Hinf H. unfold toExponential. destruct (Prim2SF x) as [s|s| |s m e] eqn:E.
  - rewrite FloatAxioms.ltb_spec, FloatAxioms.abs_spec, E in H. done.
  - unfold is_infinity in Hinf. rewrite FloatAxioms.eqb_spec, FloatAxioms.abs_spec, E in Hinf. done.
  - rewrite FloatAxioms.ltb_spec, FloatAxioms.abs_spec, E in H. done.
  - destruct (ratio m e) as [p q] eqn:R.
    pose proof (gt_1000_ratio x s m e p q E R H).
    pose proof (ratio_pos m e p q R) as [? ?].
    destruct (exponential_digits_shape p q) as (a & b & c & ex & -> & ? & ? & ?); [lia|].
    by apply exponential_form_intro.
Qed.

(** The recognisers and the renderers on known renderings. *)
Example fixed_form_examples :
  fixed_form 3 "0.123" = true /\ fixed_form 3 "-0.000" = true
  /\ fixed_form 2 "1500.40" = true /\ fixed_form 3 "0.12" = false
  /\ fixed_form 3 "1.50e+3" = false /\ fixed_form 3 ".123" = false.
Proof. repeat split. Qed.

Example exponential_form_examples :
  exponential_form 2 "1.50e+3" = true /\ exponential_form 2 "-9.60e+4" = true
  /\ exponential_form 2 "1.23e-4" = true /\ exponential_form 2 "1500.400" = false
  /\ exponential_form 2 "15.0e+2" = false /\ exponential_form 2 "1.5e+3" = false.
Proof. repeat split. Qed.

Example toFixed_examples :
  toFixed (fun _ => EmptyString) 3 999.9996 = "1000.000"%string
  /\ toFixed (fun _ => EmptyString) 3 (-0.0001) = "-0.000"%string
  /\ toFixed (fun _ => EmptyString) 3 (-0) = "0.000"%string
  /\ toFixed (fun _ => EmptyString) 2 1.005 = "1.00"%string
  /\ toFixed (fun _ => EmptyString) 0 2.5 = "3"%string.
Proof. repeat split; vm_compute; reflexivity. Qed.

Example toExponential_examples :
  toExponential 2 96000 = "9.60e+4"%string
  /\ toExponential 2 999999 = "1.00e+6"%string
  /\ toExponential 2 (-1234.5) = "-1.23e+3"%string
  /\ toExponential 2 0.00012345 = "1.23e-4"%string
  /\ toExponential 2 0 = "0.00e+0"%string.
Proof. repeat split; vm_compute; reflexivity. Qed.

(** ** The value formatter *)

(** C7, as stated, fails. The detail view's formatter
    ([MotorDetailComponent.formatMotorValue]) renders 1500.4 as ["1500.40"],
    fixed-point with two fractional digits, not as ["1.50e+3"], and 0.12345 as
    ["0.12"]; and the service formatter renders the numeric inputs NaN and
    Infinity as ["NaN"] and ["Infinity"], neither fixed-point nor
    exponential. *)
Lemma formatMotorValue_not_uniform :
  MotorDetailComponent.formatMotorValue (fun _ => EmptyString) (VNumber 1500.4)
    = "1500.40"%string
  /\ MotorDetailComponent.formatMotorValue (fun _ => EmptyString) (VNumber 0.12345)
    = "0.12"%string
  /\ typeof_number (VNumber nan) = true
  /\ MotorDataService.formatMotorValue (fun _ => EmptyString) (fun _ => nan) (VNumber nan)
    = "NaN"%string
  /\ fixed_form 3 "NaN" = false
  /\ (1000 <? abs infinity)%float = true
  /\ MotorDataService.formatMotorValue (fun _ => EmptyString) (fun _ => nan)
       (VNumber infinity) = "Infinity"%string
  /\ exponential_form 2 "Infinity" = false.
Proof. repeat split; vm_compute; reflexivity. Qed.

(** C7, amended. [MotorDataService.formatMotorValue], and the identical
    formatter of [MotorDataComponent], render [undefined] and [null] as
    ["N/A"], every other value that is not a number as ["Invalid"], a finite
    number of magnitude above 1000 in exponential form with two fractional
    digits, every other finite number in fixed-point form with three
    fractional digits, and NaN and the infinities by their names; 1500.4 gives
    ["1.50e+3"] and 0.12345 gives ["0.123"]. The formatter of
    [MotorDetailComponent] agrees on values that are not numbers and renders
    every number of magnitude below 10^21 in fixed-point form with two
    fractional digits. *)
Theorem formatMotorValue_spec (NumberToString : float -> string)
    (ToNumberOther : jsval -> float) :
  let format := MotorDataService.formatMotorValue NumberToString ToNumberOther in
  let detail := MotorDetailComponent.formatMotorValue NumberToString in
  format VUndefined = "N/A"%string /\ format VNull = "N/A"%string
  /\ (forall v, typeof_number v = false -> v <> VUndefined -> v <> VNull ->
        format v = "Invalid"%string)
  /\ (forall x, is_finite x = true -> (1000 <? abs x)%float = true ->
        exponential_form 2 (format (VNumber x)) = true)
  /\ (forall x, is_finite x = true -> (1000 <? abs x)%float = false ->
        fixed_form 3 (format (VNumber x)) = true)
  /\ format (VNumber nan) = "NaN"%string
  /\ format (VNumber infinity) = "Infinity"%string
  /\ format (VNumber neg_infinity) = "-Infinity"%string
  /\ format (VNumber 1500.4) = "1.50e+3"%string
  /\ format (VNumber 0.12345) = "0.123"%string
  /\ (forall v,
        MotorDataComponent.formatMotorValue NumberToString ToNumberOther v = format v)
  /\ (forall v, typeof_number v = false -> detail v = format v)
  /\ (forall x, (abs x <? 1e21)%float = true ->
        fixed_form 2 (detail (VNumber x)) = true).
Proof.
  intros format detail. subst format detail.
  unfold MotorDataService.formatMotorValue, MotorDetailComponent.formatMotorValue,
    MotorDataComponent.formatMotorValue, Math_abs.
  cbn [ToNumber].
  split; [done|]. split; [done|].
  split. { intros [] ? ? ?; done. }
  split.
  { intros x Hfin Hgt. rewrite Hgt. apply toExponential_large_form; [|done].
    unfold is_finite in Hfin. apply negb_true_iff, orb_false_iff in Hfin. tauto. }
  split.
  { intros x Hfin Hle. rewrite Hle. apply toFixed_small_form; [|done].
    unfold is_finite in Hfin. apply negb_true_iff, orb_false_iff in Hfin. tauto. }
  split; [vm_compute; reflexivity|].
  split; [vm_compute; reflexivity|].
  split; [vm_compute; reflexivity|].
  split; [vm_compute; reflexivity|].
  split; [vm_compute; reflexivity|].
  split; [done|].
  split. { intros [] ?; done. }
  intros x Hx. by apply toFixed_finite_form.
Qed.

(** The amended C7 at 96000, 0.5 and 123456; the string ["x"] is
    ["Invalid"]. *)
Lemma formatMotorValue_spec_witness :
  MotorDataService.formatMotorValue (fun _ => EmptyString) (fun _ => nan)
    (VString "x") = "Invalid"%string
  /\ exponential_form 2
       (MotorDataService.formatMotorValue (fun _ => EmptyString) (fun _ => nan)
          (VNumber 96000)) = true
  /\ fixed_form 3
       (MotorDataService.formatMotorValue (fun _ => EmptyString) (fun _ => nan)
          (VNumber 0.5)) = true
  /\ MotorDetailComponent.formatMotorValue (fun _ => EmptyString) (VBool true)
     = MotorDataService.formatMotorValue (fun _ => EmptyString) (fun _ => nan)
         (VBool true)
  /\ fixed_form 2
       (MotorDetailComponent.formatMotorValue (fun _ => EmptyString)
          (VNumber 123456)) = true.
Proof.
  destruct (formatMotorValue_spec (fun _ => EmptyString) (fun _ => nan))
    as (_ & _ & Hinv & Hexp & Hfix & _ & _ & _ & _ & _ & _ & Hdet & Hdfix).
  split; [apply Hinv; [reflexivity|discriminate|discriminate]|].
  split; [apply Hexp; reflexivity|].
  split; [apply Hfix; reflexivity|].
  split; [apply Hdet; reflexivity|].
  apply Hdfix; reflexivity.
Defined.

(** ** The abnormality classifier *)

(** The ceilings are strict, current is compared with its sign, and NaN is
    never abnormal. *)
Example isMotorValueAbnormal_examples :
  MotorDataService.isMotorValueAbnormal (fun _ => nan) (VNumber 5) (VString "current")
  = false
  /\ MotorDataService.isMotorValueAbnormal (fun _ => nan) (VNumber 5.5)
       (VString "current") = true
  /\ MotorDataService.isMotorValueAbnormal (fun _ => nan) (VNumber (-8))
       (VString "current") = false
  /\ MotorDataService.isMotorValueAbnormal (fun _ => nan) (VNumber (-1000.5))
       (VString "velocity") = true
  /\ MotorDataService.isMotorValueAbnormal (fun _ => nan) (VNumber 100000)
       (VString "position") = false
  /\ MotorDataService.isMotorValueAbnormal (fun _ => nan) (VNumber nan)
       (VString "velocity") = false
  /\ MotorDataService.isMotorValueAbnormal (fun _ => nan) (VNumber 9)
       (VString "torque") = false.
Proof. repeat split; vm_compute; reflexivity. Qed.

(** C8, as stated, fails: the classifier of [MotorDetailComponent] has no
    [position] case and returns [false] for a position of 200000, which
    exceeds the ceiling of 100000. *)
Lemma isMotorValueAbnormal_detail_position :
  MotorDetailComponent.isMotorValueAbnormal (fun _ => nan)
    (VNumber 200000) (VString "position") = false
  /\ (100000 <? abs 200000)%float = true.
Proof. split; vm_compute; reflexivity. Qed.

(** C8, amended. For every number, [MotorDataService.isMotorValueAbnormal] and
    the identical classifier of [MotorDataComponent] return [true] exactly when
    the value exceeds the ceiling of its kind (current > 5, |velocity| > 1000,
    |position| > 100000); the classifier of [MotorDetailComponent] does so for
    current and velocity, the two kinds its template asks about, and returns
    [false] for every position; all three return [false] for [undefined] and
    [null]. The comparisons are those of binary64 numbers; on a finite
    non-zero [x = (-1)^s * m * 2^e] they say that the value itself exceeds
    the ceiling, both written here in units of 2^-1074. *)
Theorem isMotorValueAbnormal_spec (ToNumberOther : jsval -> float) :
  let service := MotorDataService.isMotorValueAbnormal ToNumberOther in
  let component := MotorDataComponent.isMotorValueAbnormal ToNumberOther in
  let detail := MotorDetailComponent.isMotorValueAbnormal ToNumberOther in
  (forall x,
      service (VNumber x) (VString "current") = (5 <? x)%float
      /\ service (VNumber x) (VString "velocity") = (1000 <? abs x)%float
      /\ service (VNumber x) (VString "position") = (100000 <? abs x)%float)
  /\ (forall x s m e,
        Prim2SF x = S754_finite s m e ->
        let v := Z.pos m * 2 ^ (e + 1074) in
        (service (VNumber x) (VString "current") = true
         <-> s = false /\ 5 * 2 ^ 1074 < v)
        /\ (service (VNumber x) (VString "velocity") = true <-> 1000 * 2 ^ 1074 < v)
        /\ (service (VNumber x) (VString "position") = true
            <-> 100000 * 2 ^ 1074 < v))
  /\ (forall value type, component value type = service value type)
  /\ (forall x,
        detail (VNumber x) (VString "current") = (5 <? x)%float
        /\ detail (VNumber x) (VString "velocity") = (1000 <? abs x)%float
        /\ detail (VNumber x) (VString "position") = false)
  /\ (forall type,
        service VUndefined type = false /\ service VNull type = false
        /\ component VUndefined type = false /\ component VNull type = false
        /\ detail VUndefined type = false /\ detail VNull type = false).
Proof.
  intros service component detail. subst service component detail.
  split; [repeat split; reflexivity|].
  split; [|repeat split; reflexivity].
  intros x s m e Ex v.
  change (MotorDataService.isMotorValueAbnormal ToNumberOther (VNumber x)
            (VString "current")) with (5 <? x)%float.
  change (MotorDataService.isMotorValueAbnormal ToNumberOther (VNumber x)
            (VString "velocity")) with (1000 <? abs x)%float.
  change (MotorDataService.isMotorValueAbnormal ToNumberOther (VNumber x)
            (VString "position")) with (100000 <? abs x)%float.
  replace (5 * 2 ^ 1074) with (Z.pos 5629499534213120 * 2 ^ (-50 + 1074))
    by (vm_compute; reflexivity).
  replace (1000 * 2 ^ 1074) with (Z.pos 8796093022208000 * 2 ^ (-43 + 1074))
    by (vm_compute; reflexivity).
  replace (100000 * 2 ^ 1074) with (Z.pos 6871947673600000 * 2 ^ (-36 + 1074))
    by (vm_compute; reflexivity).
  split; [exact (ltb_finite 5 _ _ x s m e eq_refl Ex)|].
  split.
  - exact (ltb_abs_finite 1000 _ _ x s m e eq_refl Ex).
  - exact (ltb_abs_finite 100000 _ _ x s m e eq_refl Ex).
Qed.

(** The amended C8 at 1500 = 6597069766656000 * 2^-42: as a velocity it is
    abnormal, and its value exceeds 1000. *)
Lemma isMotorValueAbnormal_spec_witness :
  MotorDataService.isMotorValueAbnormal (fun _ => nan) (VNumber 1500)
    (VString "velocity") = true
  /\ 1000 * 2 ^ 1074 < 6597069766656000 * 2 ^ (-42 + 1074).
Proof.
  destruct (isMotorValueAbnormal_spec (fun _ => nan)) as (_ & Hvalue & _).
  destruct (Hvalue 1500%float false 6597069766656000%positive (-42) eq_refl)
    as (_ & Hvel & _).
  split; [reflexivity|]. apply Hvel. reflexivity.
Defined.

(** ** The background poller *)

Import Worker.

(** The one error the diagnostic pass can throw. *)
Lemma above_hundredth_error {conv : Conversions} v err :
  above_hundredth v = inl err -> err = cannot_convert.
Proof.
  unfold above_hundredth, ToNumber_or_throw.
  destruct (truthy v); [|discriminate]. destruct (unconvertible v); [|discriminate].
  by intros [= <-].
Qed.

Lemma inspect_robot_error {conv : Conversions} robotData err :
  inspect_robot robotData = inl err -> err = cannot_convert.
Proof.
  unfold inspect_robot. destruct (truthy (js_and _ _)); [|discriminate].
  generalize (tracked robotData). intros l.
  destruct (array_some above_hundredth l) as [err'|b] eqn:E; [|discriminate].
  intros [= <-]. induction l as [|v l IH]; [discriminate|].
  cbn [array_some] in E.
  destruct (above_hundredth v) as [e|[]] eqn:Ev; [|discriminate|by apply IH].
  injection E as <-. by apply (above_hundredth_error v).
Qed.

Lemma inspect_all_error {conv : Conversions} entries flag err :
  inspect_all entries flag = inl err -> err = cannot_convert.
Proof.
  revert flag. induction entries as [|e entries IH]; intros flag; [discriminate|].
  cbn [inspect_all]. destruct (inspect_robot e) as [err'|valid] eqn:E.
  - intros [= <-]. by apply (inspect_robot_error e).
  - apply IH.
Qed.

(** On a reading (a number, [null] or nothing) no conversion throws. *)
Lemma above_hundredth_reading {conv : Conversions} l :
  forallb reading l = true -> exists b, array_some above_hundredth l = inr b.
Proof.
  induction l as [|v l IH]; [by eexists|]. cbn [forallb array_some].
  intros [Hv Hl]%andb_true_iff. destruct (IH Hl) as [b Hb].
  assert (Hc : exists c, above_hundredth v = inr c).
  { unfold above_hundredth, ToNumber_or_throw.
    destruct v as [| |c|x|t|a|m]; try discriminate; cbn [truthy unconvertible];
      [by eexists..|]. destruct (negb _); by eexists. }
  destruct Hc as [[] ->]; [by eexists|]. by exists b.
Qed.

Lemma inspect_all_readings {conv : Conversions} entries flag :
  Forall (fun e => forallb reading (tracked e) = true) entries ->
  exists b, inspect_all entries flag = inr b.
Proof.
  intros H. revert flag. induction H as [|e entries He _ IH]; intros flag; [by eexists|].
  cbn [inspect_all]. unfold inspect_robot.
  destruct (truthy (js_and _ _)); [|apply IH].
  destruct (above_hundredth_reading (tracked e) He) as [b ->]. apply IH.
Qed.

(** A payload of the data model: every entry of the motor data has numbers,
    [null] or nothing for its six readings. *)
Lemma diagnostics_readings {conv : Conversions} motor_data :
  map_Forall (fun _ e => forallb reading (tracked e) = true) (own_props motor_data) ->
  exists b, diagnostics motor_data = inr b.
Proof.
  intros H. apply inspect_all_readings. apply Forall_fmap.
  apply map_Forall_to_list in H. eapply Forall_impl; [exact H|]. by intros [k e].
Qed.

Lemma inspect_all_throws {conv : Conversions} entries flag :
  (exists err, inspect_all entries flag = inl err)
  <-> Exists (fun e => exists err, inspect_robot e = inl err) entries.
Proof.
  revert flag. induction entries as [|e entries IH]; intros flag; cbn [inspect_all].
  - split; [by intros [err ?]|by intros ?%Exists_nil].
  - rewrite Exists_cons. destruct (inspect_robot e) as [err|valid] eqn:E.
    + split; [intros _; left|]; eauto.
    + rewrite IH. split; [by right|]. by intros [[err ?]|?].
Qed.

(** The diagnostic pass throws exactly when the inspection of some entry of
    the motor data does, in whatever order the entries are visited. *)
Lemma diagnostics_throws {conv : Conversions} motor_data :
  (exists err, diagnostics motor_data = inl err)
  <-> exists k e, own_props motor_data !! k = Some e
                  /\ exists err, inspect_robot e = inl err.
Proof.
  unfold diagnostics. rewrite inspect_all_throws, Exists_exists. split.
  - intros (e & [[k e'] [-> Hin]]%list_elem_of_fmap & He).
    exists k, e'. split; [by apply elem_of_map_to_list|exact He].
  - intros (k & e & Hk & He). exists e. split; [|exact He].
    apply list_elem_of_fmap. exists (k, e). split; [done|].
    by apply elem_of_map_to_list.
Qed.

(** The pass at work. A reading above 0.01 ends the [||] chain, so a later
    reading that cannot be converted is not looked at; an entry without
    [motor1] and [motor2] is not inspected; an object without [toString] of
    its own reads as NaN; an array is converted through its elements; and the
    loop goes on after an entry that passed. *)
Example diagnostics_examples :
  let conv := no_numerals in
  let bad := VObject {[ "toString" := VNumber 0 ]} in
  let robot readings := VObject {[ "motor1" := VObject readings ]} in
  diagnostics (VObject {[ "base1" :=
     robot (<["vel_rpm" := bad]> {[ "pos_rad" := VNumber 5 ]}) ]}) = inr true
  /\ diagnostics (VObject {[ "base1" :=
       robot (<["vel_rpm" := bad]> {[ "pos_rad" := VNumber 0.005 ]}) ]})
     = inl cannot_convert
  /\ diagnostics (VObject {[ "base1" := VObject {[ "status" := bad ]} ]}) = inr false
  /\ diagnostics (VObject {[ "base1" :=
       robot {[ "current" := VObject {[ "valueOf" := VNumber 0 ]} ]} ]}) = inr true
  /\ diagnostics (VObject {[ "base1" := robot {[ "current" := VArray [VNull; bad] ]} ]})
     = inl cannot_convert
  /\ diagnostics (VObject (<["base2" := robot {[ "current" := bad ]}]>
                             {[ "base1" := robot {[ "current" := VNumber 1 ]} ]}))
     = inl cannot_convert.
Proof. repeat split; vm_compute; reflexivity. Qed.

(** The [try] block of [pollMotorData] completes exactly when the fetch
    delivers motor data and the diagnostic pass over it does not throw; the
    pass can only throw [cannot_convert]. *)
Lemma validate_cases {conv : Conversions} r :
  match motor_payload r with
  | Some motor_data =>
      match diagnostics motor_data with
      | inr _ =>
          exists data, validate r = inr data
            /\ get_prop data "motor_data" = inr motor_data /\ truthy motor_data = true
      | inl err => validate r = inl cannot_convert
      end
  | None => exists err, validate r = inl err
  end.
Proof.
  destruct r as [err|[] status [err|data]]; cbn [motor_payload validate negb]; eauto.
  destruct data as [| | | | | |m]; cbn [get_prop truthy negb]; eauto.
  destruct (m !! "motor_data") as [md|] eqn:E; cbn [default from_option id truthy negb]; eauto.
  destruct (truthy md) eqn:T; cbn [negb]; eauto.
  destruct (diagnostics md) as [err|b] eqn:D.
  - unfold diagnostics in D. by rewrite (inspect_all_error _ _ _ D).
  - exists (VObject m). split; [reflexivity|]. cbn [get_prop]. rewrite E. done.
Qed.

(** Conversely, a completed [try] block has motor data to post. *)
Lemma validate_inr {conv : Conversions} r data :
  validate r = inr data ->
  exists motor_data,
    motor_payload r = Some motor_data
    /\ get_prop data "motor_data" = inr motor_data /\ truthy motor_data = true
    /\ exists hasValidData, diagnostics motor_data = inr hasValidData.
Proof.
  intros H. pose proof (validate_cases r) as Hv.
  destruct (motor_payload r) as [md|]; [|destruct Hv as [err Hv]; congruence].
  destruct (diagnostics md) as [err|b] eqn:D; [congruence|].
  destruct Hv as (data' & Hd & Hg & Ht). rewrite Hd in H. injection H as <-.
  exists md. split; [done|]. split; [done|]. split; [done|]. by exists b.
Qed.

(** A fetch that delivers no motor data makes the [try] block throw. *)
Lemma validate_none {conv : Conversions} r :
  motor_payload r = None -> exists err, validate r = inl err.
Proof. intros H. pose proof (validate_cases r) as Hv. by rewrite H in Hv. Qed.

Lemma step_stop {conv : Conversions} st now :
  step st (Message now (command "stop")) = clear_pollTimer (set_isRunning false st).
Proof. reflexivity. Qed.

Lemma step_poll {conv : Conversions} st now :
  step st (Message now (command "poll")) = pollMotorData_begin now (clear_pollTimer st).
Proof. reflexivity. Qed.

(** While the poller is stopped, an event other than a [start] command leaves
    it stopped and schedules no timeout. *)
Lemma stopped_step {conv : Conversions} st ev :
  is_start ev = false -> isRunning st = false ->
  isRunning (step st ev) = false /\ timers (step st ev) ⊆ timers st.
Proof.
  intros Hev Hst. destruct st as [pi run pt ce tm nt fl fs ob uc].
  cbn in Hst. subst run. destruct ev as [now data|now id|i r].
  - cbn [is_start] in Hev. cbn [step]. unfold on_message, bind, lift.
    destruct (get_prop data "command") as [err|c]; [cbn; done|].
    cbn [ret]. rewrite Hev.
    destruct (is_str c "stop").
    { destruct pt; cbn; (split; [done|]); [apply delete_subseteq|done]. }
    destruct (is_str c "poll").
    { destruct pt; cbn; (split; [done|]); [apply delete_subseteq|done]. }
    destruct (is_str c "setInterval"); [|cbn; done].
    destruct (get_prop data "interval") as [err|v]; [cbn; done|].
    cbn [ret]. destruct v; try (cbn; done).
    destruct (truthy (VNumber x)); cbn; done.
  - cbn [step timers]. destruct (tm !! id); [|done].
    cbn. split; [done|apply delete_subseteq].
  - cbn [step in_flight]. destruct (fl !! i); [|done].
    unfold pollMotorData_resume. destruct (validate r); cbn; done.
Qed.

Lemma stopped_run {conv : Conversions} evs : forall st,
  forallb (fun ev => negb (is_start ev)) evs = true -> isRunning st = false ->
  isRunning (run st evs) = false /\ timers (run st evs) ⊆ timers st.
Proof.
  induction evs as [|ev evs IH]; intros st Hevs Hst; [done|].
  cbn [forallb] in Hevs. apply andb_true_iff in Hevs as [Hev Hevs].
  apply negb_true_iff in Hev.
  destruct (stopped_step st ev Hev Hst) as [Hrun Hsub].
  destruct (IH (step st ev) Hevs Hrun) as [? ?].
  split; [done|]. by etrans.
Qed.

Lemma isRunning_stop {conv : Conversions} st now :
  isRunning (step st (Message now (command "stop"))) = false.
Proof. rewrite step_stop. unfold clear_pollTimer. by destruct (pollTimer _). Qed.

(** The error count after a fetch cycle. *)
Lemma resume_count {conv : Conversions} st timestamp r :
  consecutiveErrors (pollMotorData_resume timestamp r st)
  = match motor_payload r with
    | Some motor_data =>
        match diagnostics motor_data with
        | inr _ => 0
        | inl _ => consecutiveErrors st + 1
        end
    | None => consecutiveErrors st + 1
    end.
Proof.
  unfold pollMotorData_resume. pose proof (validate_cases r) as Hv.
  destruct st as [pi run pt ce tm nt fl fs ob uc].
  destruct (motor_payload r) as [md|].
  - destruct (diagnostics md) as [err|b].
    + rewrite Hv. by destruct run.
    + destruct Hv as (data & -> & _ & _). by destruct run.
  - destruct Hv as (err & ->). by destruct run.
Qed.

(** The message a completed fetch cycle posts. *)
Lemma resume_outbox {conv : Conversions} st timestamp r :
  exists msg,
    outbox (pollMotorData_resume timestamp r st) = outbox st ++ [msg]
    /\ match motor_payload r with
       | Some motor_data =>
           match diagnostics motor_data with
           | inr _ =>
               truthy motor_data = true
               /\ exists pingStatus, msg = MotorDataMsg motor_data pingStatus timestamp
           | inl _ => msg = ErrorMsg (err_message cannot_convert)
           end
       | None => exists text, msg = ErrorMsg text
       end.
Proof.
  unfold pollMotorData_resume. pose proof (validate_cases r) as Hv.
  destruct st as [pi run pt ce tm nt fl fs ob uc].
  destruct (motor_payload r) as [md|].
  - destruct (diagnostics md) as [err|b].
    + rewrite Hv. destruct run; cbn; eauto.
    + destruct Hv as (data & -> & -> & Htr).
      destruct run; cbn; unfold js_or at 1; rewrite Htr; eauto 10.
  - destruct Hv as (err & ->). destruct run; cbn; eauto 10.
Qed.

(** What a settled request does to a stopped poller: one message, no
    timeout. *)
Lemma stopped_settle {conv : Conversions} st i timestamp r :
  isRunning st = false -> in_flight st !! i = Some timestamp ->
  let st' := step st (Settled i r) in
  timers st' = timers st /\ pollTimer st' = pollTimer st
  /\ fetches st' = fetches st
  /\ exists msg, outbox st' = outbox st ++ [msg]
       /\ match motor_payload r with
          | Some motor_data =>
              match diagnostics motor_data with
              | inr _ =>
                  exists pingStatus, msg = MotorDataMsg motor_data pingStatus timestamp
              | inl _ => msg = ErrorMsg (err_message cannot_convert)
              end
          | None => exists text, msg = ErrorMsg text
          end.
Proof.
  intros Hst Hi. cbn [step]. rewrite Hi.
  destruct (resume_outbox (set_in_flight (delete i (in_flight st)) st) timestamp r)
    as (msg & Hout & Hmsg).
  assert (Hframe : forall st0, isRunning st0 = false ->
    timers (pollMotorData_resume timestamp r st0) = timers st0
    /\ pollTimer (pollMotorData_resume timestamp r st0) = pollTimer st0
    /\ fetches (pollMotorData_resume timestamp r st0) = fetches st0).
  { intros [pi run pt ce tm nt fl fs ob uc] Hr. cbn in Hr. subst run.
    unfold pollMotorData_resume. by destruct (validate r). }
  destruct (Hframe (set_in_flight (delete i (in_flight st)) st) Hst) as (-> & -> & ->).
  do 3 (split; [reflexivity|]). exists msg. split; [exact Hout|].
  destruct (motor_payload r) as [md|]; [|exact Hmsg].
  destruct (diagnostics md); [exact Hmsg|]. by destruct Hmsg.
Qed.

Lemma setInterval_command_props v :
  get_prop (setInterval_command v) "command" = inr (VString "setInterval")
  /\ get_prop (setInterval_command v) "interval" = inr v.
Proof.
  unfold setInterval_command. cbn [get_prop]. split.
  - by rewrite lookup_insert_ne, lookup_singleton_eq.
  - by rewrite lookup_insert_eq.
Qed.

(** A [setInterval] command with a number that is neither zero nor NaN reaches
    the assignment to the [const] binding, which throws: the listener ends
    there and the state is as before. *)
Lemma setInterval_number st now x :
  truthy (VNumber x) = true ->
  on_message now (setInterval_command (VNumber x)) st
  = (inl (JsError "TypeError" "Assignment to constant variable."), st).
Proof.
  intros Hx. destruct (setInterval_command_props (VNumber x)) as [Hc Hi].
  unfold on_message, bind, lift. rewrite Hc, Hi. cbn -[truthy]. by rewrite Hx.
Qed.

(** A [setInterval] command whose interval is not a number is ignored. *)
Lemma setInterval_not_a_number {conv : Conversions} st now v :
  typeof_number v = false ->
  step st (Message now (setInterval_command v)) = st.
Proof.
  intros Hv. destruct (setInterval_command_props v) as [Hc Hi].
  unfold step, on_message, bind, lift. rewrite Hc, Hi. cbn -[truthy].
  destruct v; done.
Qed.

(** C2 at the command [{command: 'setInterval', interval: 1000}], sent to a
    freshly created worker: the listener throws a TypeError, the interval
    stays at 500 and nothing else changes. *)
Theorem setInterval_1000_throws {conv : Conversions} :
  let st := load 0 in
  let st' := step st (Message 5 (setInterval_command (VNumber 1000))) in
  st' = add_uncaught (JsError "TypeError" "Assignment to constant variable.") st
  /\ POLLING_INTERVAL st' = 500%float.
Proof. split; reflexivity. Qed.

(** C3, as stated, fails: a [poll] command received after [stop] issues a
    request. *)
Lemma poll_after_stop_fetches :
  let conv := no_numerals in
  let stopped := step (load 0) (Message 10 (command "stop")) in
  fetches stopped = [0]
  /\ fetches (step stopped (Message 20 (command "poll"))) = [0; 20]
  /\ step stopped (Message 20 (command "poll")) <> stopped.
Proof.
  repeat split. intros H. apply (f_equal fetches) in H. discriminate H.
Qed.

(** C3, amended. After the worker has processed [stop], a second [stop] does
    not throw and changes nothing; a [poll] command issues exactly one
    request, schedules nothing and posts nothing, and nothing is scheduled
    when that request settles; and whatever arrives, as long as it is not a
    [start] command, the worker stays stopped and no timeout is added. *)
Theorem after_stop {conv : Conversions} st now :
  let stopped := step st (Message now (command "stop")) in
  (forall now', step stopped (Message now' (command "stop")) = stopped)
  /\ (forall now',
        let polled := step stopped (Message now' (command "poll")) in
        fetches polled = fetches stopped ++ [now']
        /\ in_flight polled = in_flight stopped ++ [now']
        /\ timers polled = timers stopped
        /\ isRunning polled = false
        /\ outbox polled = outbox stopped
        /\ uncaught polled = uncaught stopped
        /\ forall r,
             let settled := step polled (Settled (length (in_flight stopped)) r) in
             timers settled = timers stopped /\ fetches settled = fetches polled)
  /\ (forall evs,
        forallb (fun ev => negb (is_start ev)) evs = true ->
        isRunning (run stopped evs) = false
        /\ timers (run stopped evs) ⊆ timers stopped).
Proof.
  intros stopped. assert (Hrun : isRunning stopped = false) by apply isRunning_stop.
  split; [|split].
  - intros now'. subst stopped. rewrite !step_stop.
    destruct st as [pi run pt ce tm nt fl fs ob uc].
    destruct pt; cbn; [|done]. by rewrite delete_delete_eq.
  - intros now' polled.
    assert (Hpolled : polled = pollMotorData_begin now' (clear_pollTimer stopped))
      by apply step_poll.
    assert (Htm : timers polled = timers stopped).
    { rewrite Hpolled. subst stopped. rewrite step_stop.
      destruct st as [pi run pt ce tm nt fl fs ob uc].
      destruct pt; cbn; [|done]. by rewrite delete_delete_eq. }
    assert (Hfl : in_flight polled = in_flight stopped ++ [now']).
    { rewrite Hpolled. unfold clear_pollTimer. by destruct (pollTimer stopped). }
    assert (Hrun' : isRunning polled = false).
    { rewrite Hpolled. unfold clear_pollTimer.
      destruct (pollTimer stopped); cbn; exact Hrun. }
    repeat split; try done;
      try (rewrite Hpolled; unfold clear_pollTimer; by destruct (pollTimer stopped)).
    + destruct (stopped_settle polled (length (in_flight stopped)) now' r Hrun')
        as (-> & _); [|done].
      rewrite Hfl. by rewrite lookup_app_r, Nat.sub_diag.
    + destruct (stopped_settle polled (length (in_flight stopped)) now' r Hrun')
        as (_ & _ & -> & _); [|done].
      rewrite Hfl. by rewrite lookup_app_r, Nat.sub_diag.
  - intros evs Hevs. by apply stopped_run.
Qed.

(** The amended C3 on a worker that is stopped while its first request is in
    flight and then receives [poll], an unknown command and the two
    responses. *)
Lemma after_stop_witness :
  let conv := no_numerals in
  let stopped := step (load 0) (Message 10 (command "stop")) in
  let evs := [Message 20 (command "poll"); Message 25 (command "resume");
              Settled 0 (FetchRejected (JsError "TypeError" "Failed to fetch"));
              Settled 0 (FetchResponse false 503 (inl (JsError "SyntaxError" "Unexpected token")))] in
  isRunning (run stopped evs) = false /\ timers (run stopped evs) ⊆ timers stopped.
Proof.
  intros conv stopped evs.
  destruct (after_stop (load 0) 10) as (_ & _ & H). apply H. reflexivity.
Defined.

(** The timeout a running poller sets at the end of a fetch cycle. *)
Lemma resume_schedule {conv : Conversions} st timestamp r :
  isRunning st = true ->
  let st' := pollMotorData_resume timestamp r st in
  pollTimer st' = Some (next_timer st)
  /\ timers st' = <[next_timer st :=
                      if 3 <? consecutiveErrors st'
                      then (POLLING_INTERVAL st * 2)%float
                      else POLLING_INTERVAL st]> (timers st).
Proof.
  intros Hrun st'. subst st'. unfold pollMotorData_resume.
  destruct st as [pi run pt ce tm nt fl fs ob uc]. cbn in Hrun. subst run.
  destruct (validate r); cbn; done.
Qed.

(** C4, as stated, fails: a fetch that succeeds and delivers motor data is
    counted as an error when the diagnostic pass over the data throws. Here
    the first reading is an object with a property [toString], which
    [Math.abs] cannot convert: the error count goes from 3 to 4, an [error]
    message is posted and the next cycle comes after 1000 ms. *)
Lemma delivered_payload_counted_as_error :
  let conv := no_numerals in
  let motor_data :=
    VObject {[ "base1" :=
      VObject {[ "motor1" :=
        VObject {[ "pos_rad" := VObject {[ "toString" := VNumber 0 ]} ]} ]} ]} in
  let r := FetchResponse true 200 (inr (VObject {[ "motor_data" := motor_data ]})) in
  let st := State 500%float true (Some 7%positive) 3 ∅ 8%positive [] [0] [] [] in
  let st' := pollMotorData_resume 0 r st in
  motor_payload r = Some motor_data
  /\ consecutiveErrors st' = 4
  /\ outbox st' = [ErrorMsg "Cannot convert object to primitive value"]
  /\ timers st' !! 8%positive = Some 1000%float.
Proof. repeat split; vm_compute; reflexivity. Qed.

(** C4, amended. When a fetch cycle completes, [consecutiveErrors] grows by
    exactly 1 if the cycle failed and is reset to 0 otherwise, where a cycle
    fails when the fetch delivers no motor data (network failure, error
    status, unparseable body, payload without motor data) or when the
    diagnostic pass over the delivered motor data throws. The pass does not
    throw on motor data whose readings are numbers, [null] or absent, so such
    a payload always resets the count. If the poller is running, the next
    cycle is scheduled (a new timeout, recorded in [pollTimer]) after exactly
    twice the interval when the resulting count exceeds 3, and after exactly
    the interval otherwise. With the interval of 500 ms the script declares,
    these delays are 1000 ms and 500 ms. *)
Theorem pollMotorData_backoff {conv : Conversions} st timestamp r :
  let st' := pollMotorData_resume timestamp r st in
  consecutiveErrors st'
  = match motor_payload r with
    | Some motor_data =>
        match diagnostics motor_data with
        | inr _ => 0
        | inl _ => consecutiveErrors st + 1
        end
    | None => consecutiveErrors st + 1
    end
  /\ (forall motor_data,
        motor_payload r = Some motor_data ->
        map_Forall (fun _ e => forallb reading (tracked e) = true)
          (own_props motor_data) ->
        consecutiveErrors st' = 0)
  /\ (isRunning st = true ->
      pollTimer st' = Some (next_timer st)
      /\ timers st' = <[next_timer st :=
                          if 3 <? consecutiveErrors st'
                          then (POLLING_INTERVAL st * 2)%float
                          else POLLING_INTERVAL st]> (timers st)
      /\ (POLLING_INTERVAL st = 500%float ->
          timers st' !! next_timer st
          = Some (if 3 <? consecutiveErrors st' then 1000%float else 500%float))).
Proof.
  intros st'. split; [apply resume_count|]. split.
  - intros md Hr Hmd. unfold st'. rewrite resume_count, Hr.
    by destruct (diagnostics_readings md Hmd) as [b ->].
  - intros Hrun. destruct (resume_schedule st timestamp r Hrun) as [Hpt Htm].
    split; [exact Hpt|]. split; [exact Htm|].
    intros Hpi. fold st' in Htm. rewrite Htm, lookup_insert_eq, Hpi.
    by destruct (3 <? consecutiveErrors st').
Qed.

(** The amended C4 on a running poller with three consecutive errors: if its
    next fetch is rejected, the count becomes 4 and the next cycle comes after
    1000 ms; if it delivers a position for one robot, the count is reset and
    the next cycle comes after 500 ms. *)
Lemma pollMotorData_backoff_witness :
  let conv := no_numerals in
  let st := State 500%float true (Some 7%positive) 3 ∅ 8%positive [] [0] [] [] in
  let failed := FetchRejected (JsError "TypeError" "Failed to fetch") in
  let motor_data :=
    VObject {[ "base1" :=
      VObject {[ "motor1" := VObject {[ "pos_rad" := VNumber 1.5 ]} ]} ]} in
  let ok := FetchResponse true 200 (inr (VObject {[ "motor_data" := motor_data ]})) in
  (consecutiveErrors (pollMotorData_resume 0 failed st) = 4
   /\ pollTimer (pollMotorData_resume 0 failed st) = Some 8%positive
   /\ timers (pollMotorData_resume 0 failed st) !! 8%positive = Some 1000%float)
  /\ (consecutiveErrors (pollMotorData_resume 0 ok st) = 0
      /\ timers (pollMotorData_resume 0 ok st) !! 8%positive = Some 500%float).
Proof.
  intros conv st failed motor_data ok. split.
  - destruct (pollMotorData_backoff st 0 failed) as (Hcount & _ & Hsched).
    destruct (Hsched eq_refl) as (Htimer & _ & Hdelay).
    split; [exact Hcount|]. split; [exact Htimer|]. exact (Hdelay eq_refl).
  - destruct (pollMotorData_backoff st 0 ok) as (_ & Hreset & Hsched).
    assert (Hc : consecutiveErrors (pollMotorData_resume 0 ok st) = 0).
    { apply (Hreset motor_data); [reflexivity|].
      apply map_Forall_to_list. vm_compute. repeat constructor. }
    split; [exact Hc|].
    destruct (Hsched eq_refl) as (_ & _ & Hdelay).
    pose proof (Hdelay eq_refl) as Hd. rewrite Hc in Hd. exact Hd.
Defined.

(** C9, as stated, fails: a request in flight when [stop] arrives that then
    succeeds and delivers motor data posts an [error] message, not a
    [motorData] result, when the diagnostic pass over the data throws. Here
    the current of the second motor is an object with a property [toString],
    which [Math.abs] cannot convert. *)
Lemma delivered_payload_posts_error_after_stop :
  let conv := no_numerals in
  let motor_data :=
    VObject {[ "base1" :=
      VObject {[ "motor2" :=
        VObject {[ "current" := VObject {[ "toString" := VString "1.5" ]} ]} ]} ]} in
  let r := FetchResponse true 200 (inr (VObject {[ "motor_data" := motor_data ]})) in
  let stopped := step (load 0) (Message 10 (command "stop")) in
  let settled := step stopped (Settled 0 r) in
  motor_payload r = Some motor_data
  /\ outbox settled = [ErrorMsg "Cannot convert object to primitive value"]
  /\ timers settled = ∅ /\ fetches settled = [0].
Proof. repeat split; vm_compute; reflexivity. Qed.

(** C9, amended. Processing [stop] leaves the poller stopped with the timeout
    recorded in [pollTimer] cancelled, the other timeouts and the requests in
    flight untouched. If that timeout was the only pending one, none is
    pending afterwards. From then on, as long as no [start] command arrives,
    the poller stays stopped and no timeout is ever added; and each request
    that was or comes to be in flight, when it settles, posts exactly one
    message, schedules nothing and issues no request. The message is a
    [motorData] result carrying the fetched motor data and the request's
    timestamp if the fetch delivered motor data and the diagnostic pass over
    it did not throw, which it never does on motor data whose readings are
    numbers, [null] or absent; it is an [error] message if the fetch delivered
    no motor data or the diagnostic pass threw. *)
Theorem stop_ends_loop {conv : Conversions} st now :
  let stopped := step st (Message now (command "stop")) in
  isRunning stopped = false
  /\ (forall id, pollTimer st = Some id -> timers stopped !! id = None)
  /\ timers stopped ⊆ timers st
  /\ ((forall id, is_Some (timers st !! id) -> pollTimer st = Some id) ->
      timers stopped = ∅)
  /\ in_flight stopped = in_flight st
  /\ fetches stopped = fetches st
  /\ outbox stopped = outbox st
  /\ forall evs,
       forallb (fun ev => negb (is_start ev)) evs = true ->
       let later := run stopped evs in
       isRunning later = false
       /\ timers later ⊆ timers stopped
       /\ forall i timestamp r,
            in_flight later !! i = Some timestamp ->
            let settled := step later (Settled i r) in
            timers settled = timers later
            /\ pollTimer settled = pollTimer later
            /\ fetches settled = fetches later
            /\ exists msg, outbox settled = outbox later ++ [msg]
                 /\ match motor_payload r with
                    | Some motor_data =>
                        match diagnostics motor_data with
                        | inr _ =>
                            exists pingStatus,
                              msg = MotorDataMsg motor_data pingStatus timestamp
                        | inl _ => msg = ErrorMsg (err_message cannot_convert)
                        end
                    | None => exists text, msg = ErrorMsg text
                    end
                 /\ forall motor_data,
                      motor_payload r = Some motor_data ->
                      map_Forall (fun _ e => forallb reading (tracked e) = true)
                        (own_props motor_data) ->
                      exists pingStatus,
                        msg = MotorDataMsg motor_data pingStatus timestamp.
Proof.
  intros stopped. assert (Hrun : isRunning stopped = false) by apply isRunning_stop.
  split; [done|]. subst stopped. rewrite step_stop in *.
  destruct st as [pi run pt ce tm nt fl fs ob uc].
  split. { intros id. cbn. intros ->. cbn. apply lookup_delete_eq. }
  split. { destruct pt; cbn; [apply delete_subseteq|done]. }
  split.
  { cbn. intros Honly. apply map_eq. intros id. rewrite lookup_empty.
    destruct pt as [id'|]; cbn.
    - destruct (decide (id' = id)) as [->|Hne]; [apply lookup_delete_eq|].
      rewrite lookup_delete_ne by done.
      destruct (tm !! id) eqn:E; [|done].
      specialize (Honly id). rewrite E in Honly.
      specialize (Honly ltac:(eauto)). congruence.
    - destruct (tm !! id) eqn:E; [|done].
      specialize (Honly id). rewrite E in Honly.
      specialize (Honly ltac:(eauto)). congruence. }
  split. { by destruct pt. }
  split. { by destruct pt. }
  split. { by destruct pt. }
  intros evs Hevs later.
  destruct (stopped_run evs _ Hevs Hrun) as [Hlater Hsub].
  split; [done|]. split; [done|].
  intros i timestamp r Hi.
  destruct (stopped_settle later i timestamp r Hlater Hi)
    as (Htm & Hpt & Hfs & msg & Hout & Hmsg).
  do 3 (split; [done|]). exists msg. split; [exact Hout|]. split; [exact Hmsg|].
  intros md Hr Hmd. rewrite Hr in Hmsg.
  by destruct (diagnostics_readings md Hmd) as [b Hb]; rewrite Hb in Hmsg.
Qed.

(** The amended C9 on a worker that is stopped while its first request is in
    flight: the request then delivers a velocity for one robot, which posts
    one [motorData] message and schedules nothing. *)
Lemma stop_ends_loop_witness :
  let conv := no_numerals in
  let stopped := step (load 0) (Message 10 (command "stop")) in
  let motor_data :=
    VObject {[ "base1" :=
      VObject {[ "motor1" := VObject {[ "vel_rpm" := VNumber 12 ]} ]} ]} in
  let r := FetchResponse true 200 (inr (VObject {[ "motor_data" := motor_data ]})) in
  timers stopped = ∅
  /\ timers (step stopped (Settled 0 r)) = timers stopped
  /\ exists msg, outbox (step stopped (Settled 0 r)) = outbox stopped ++ [msg]
       /\ exists pingStatus, msg = MotorDataMsg motor_data pingStatus 0.
Proof.
  intros conv stopped motor_data r.
  destruct (stop_ends_loop (load 0) 10) as (_ & _ & _ & Hnone & _ & _ & _ & Hlater).
  split.
  { apply Hnone. intros id [d Hd]. vm_compute in Hd. discriminate Hd. }
  destruct (Hlater [] eq_refl) as (_ & _ & Hsettle).
  destruct (Hsettle 0%nat 0 r eq_refl) as (Htm & _ & _ & msg & Hout & _ & Hmsg).
  split; [exact Htm|]. exists msg. split; [exact Hout|].
  apply Hmsg; [reflexivity|].
  apply map_Forall_to_list. vm_compute. repeat constructor.
Defined.

(** C10. Evaluating the worker script leaves the poller running with one
    request issued and in flight, before the listener has received anything;
    whatever that request's outcome, its completion schedules the next cycle
    500 ms later, and that timeout issues the second request. *)
Theorem load_starts_polling {conv : Conversions} now :
  let st := load now in
  isRunning st = true /\ fetches st = [now] /\ in_flight st = [now]
  /\ outbox st = [] /\ uncaught st = [] /\ timers st = ∅
  /\ forall r,
       let st' := step st (Settled 0 r) in
       pollTimer st' = Some 1%positive
       /\ timers st' = {[ 1%positive := 500%float ]}
       /\ forall now', fetches (step st' (TimerFires now' 1%positive)) = [now; now'].
Proof.
  intros st.
  do 6 (split; [reflexivity|]).
  intros r st'.
  assert (Hst' : st' = pollMotorData_resume now r
                         (State 500%float true None 0 ∅ 1%positive [] [now] [] []))
    by reflexivity.
  clearbody st'. subst st'.
  destruct (resume_schedule
              (State 500%float true None 0 ∅ 1%positive [] [now] [] []) now r eq_refl)
    as [Hpt Htm].
  pose proof (resume_count
                (State 500%float true None 0 ∅ 1%positive [] [now] [] []) now r) as Hc.
  cbn [next_timer POLLING_INTERVAL timers consecutiveErrors] in Hpt, Htm, Hc.
  rewrite Hc in Htm.
  assert (Htm' : timers (pollMotorData_resume now r
                           (State 500%float true None 0 ∅ 1%positive [] [now] [] []))
                 = {[ 1%positive := 500%float ]}).
  { rewrite Htm.
    destruct (motor_payload r) as [md|]; [destruct (diagnostics md)|]; reflexivity. }
  split; [exact Hpt|]. split; [exact Htm'|].
  intros now'. cbn [step]. rewrite Htm', lookup_singleton_eq.
  unfold pollMotorData_resume. destruct (validate r); reflexivity.
Qed.

(** As long as no [start] or [poll] command arrives, the worker runs a single
    loop. *)
Lemma single_loop_step {conv : Conversions} st ev :
  begins_cycle ev = false -> single_loop st -> single_loop (step st ev).
Proof.
  intros Hev Hst. destruct st as [pi run pt ce tm nt fl fs ob uc].
  unfold single_loop in *. cbn in Hst.
  destruct ev as [now data|now id|i r].
  - cbn [begins_cycle] in Hev. cbn [step]. unfold on_message, bind, lift.
    destruct (get_prop data "command") as [err|c]; [cbn; done|].
    apply orb_false_iff in Hev as [Hstart Hpoll].
    cbn [ret]. rewrite Hstart.
    destruct (is_str c "stop").
    { destruct pt as [id|]; cbn; [|done].
      destruct Hst as [[-> Honly]|[Hfl ->]]; [left|right].
      - split; [done|]. intros id' [d Hd].
        apply lookup_delete_Some in Hd as [_ Hd]. eauto.
      - split; [done|]. apply delete_empty. }
    rewrite Hpoll.
    destruct (is_str c "setInterval"); [|cbn; done].
    destruct (get_prop data "interval") as [err|v]; [cbn; done|].
    cbn [ret]. destruct v; try (cbn; done).
    destruct (truthy (VNumber x)); cbn; done.
  - cbn [step timers]. destruct (tm !! id) as [d|] eqn:E; [|done].
    destruct Hst as [[-> Honly]|[_ ->]]; [|done].
    right. cbn. split; [eauto|].
    apply map_eq. intros id'. rewrite lookup_empty.
    destruct (decide (id = id')) as [->|Hne]; [apply lookup_delete_eq|].
    rewrite lookup_delete_ne by done.
    destruct (tm !! id') eqn:E'; [|done].
    pose proof (Honly id ltac:(eauto)). pose proof (Honly id' ltac:(eauto)).
    congruence.
  - cbn [step in_flight]. destruct (fl !! i) as [ts|] eqn:E; [|done].
    destruct Hst as [[-> _]|[[ts' ->] ->]]; [done|].
    destruct i; [|done]. left.
    unfold pollMotorData_resume.
    destruct (validate r), run; cbn; (split; [done|]); intros id [d Hd];
      first [ by apply lookup_insert_Some in Hd as [[-> _]|[_ Hd]]
            | done ].
Qed.

Lemma single_loop_run {conv : Conversions} evs : forall st,
  forallb (fun ev => negb (begins_cycle ev)) evs = true ->
  single_loop st -> single_loop (run st evs).
Proof.
  induction evs as [|ev evs IH]; intros st Hevs Hst; [done|].
  cbn [forallb] in Hevs. apply andb_true_iff in Hevs as [Hev Hevs].
  apply negb_true_iff in Hev. apply IH; [done|]. by apply single_loop_step.
Qed.

(** With the orchestrator's use of the worker (it only ever sends [stop]), a
    [stop] leaves no timeout pending at all: after it no timeout fires and,
    by [stopped_run], none is set, so the only request that can still settle
    is the one that was in flight. *)
Lemma stop_cancels_every_timeout {conv : Conversions} now evs now' :
  forallb (fun ev => negb (begins_cycle ev)) evs = true ->
  let stopped := step (run (load now) evs) (Message now' (command "stop")) in
  timers stopped = ∅ /\ (length (in_flight stopped) <= 1)%nat.
Proof.
  intros Hevs stopped.
  assert (Hloop : single_loop (run (load now) evs)).
  { apply single_loop_run; [done|]. right. split; [by exists now|done]. }
  subst stopped. rewrite step_stop.
  destruct (run (load now) evs) as [pi run pt ce tm nt fl fs ob uc].
  unfold single_loop in Hloop. cbn in Hloop.
  destruct Hloop as [[-> Honly]|[[ts ->] ->]].
  - destruct pt as [id|]; cbn.
    + split; [|lia]. apply map_eq. intros id'. rewrite lookup_empty.
      destruct (decide (id = id')) as [->|Hne]; [apply lookup_delete_eq|].
      rewrite lookup_delete_ne by done.
      destruct (tm !! id') eqn:E'; [|done].
      pose proof (Honly id' ltac:(eauto)). congruence.
    + split; [|lia]. apply map_eq. intros id'. rewrite lookup_empty.
      destruct (tm !! id') eqn:E'; [|done].
      pose proof (Honly id' ltac:(eauto)). congruence.
  - destruct pt as [id|]; cbn; (split; [|lia]); [apply delete_empty|done].
Qed.

(** ** The orchestrator *)

(** C1 when [new Worker(...)] throws [err]. The [catch] block calls
    [setupFallbackPolling], which registers the fallback interval and then
    reads [cleanup] before the [let cleanup] declaration has been evaluated:
    that read throws a ReferenceError, which leaves the [catch] block and
    [setupMotorDataWorker] itself. Both intervals stay registered and no
    handle is returned. *)
Theorem start_sequence_throws_when_worker_fails err :
  exists rt,
    Main.setupMotorDataWorker (Some err) Main.fresh
    = (inl (JsError "ReferenceError" "Cannot access 'cleanup' before initialization"),
       rt)
    /\ Main.intervals rt
       = <[2%positive := (Main.FallbackPoll, 1000)]>
           {[ 1%positive := (Main.FetchGeneralData, 5000) ]}
    /\ Main.cleanup rt = None
    /\ Main.worker rt = false.
Proof. eexists. repeat split. Qed.

(** When [new Worker(...)] succeeds the start sequence returns the handle. *)
Lemma start_sequence_with_worker :
  exists rt,
    Main.setupMotorDataWorker None Main.fresh
    = (inr [Main.ClearInterval 1%positive; Main.StopWorker], rt)
    /\ Main.intervals rt = {[ 1%positive := (Main.FetchGeneralData, 5000) ]}
    /\ Main.worker rt = true.
Proof. eexists. repeat split. Qed.

Lemma motorOnly_payload r st :
  Main.fetchMotorDataOnly_resume r st
  = match motor_payload r with
    | Some motor_data => Main.motor_merge motor_data st
    | None => st
    end.
Proof.
  destruct r as [err|[] status [err|data]]; try reflexivity.
  destruct data as [| | | | | |m]; try reflexivity.
  cbn. destruct (m !! "motor_data") as [md|]; [|reflexivity].
  cbn. by destruct (truthy md).
Qed.

Lemma fallback_payload r st :
  Main.fallbackPoll_resume r st
  = match motor_payload r with
    | Some motor_data => Main.motor_merge motor_data st
    | None => st
    end.
Proof.
  destruct r as [err|[] status [err|data]]; try reflexivity.
  destruct data as [| | | | | |m]; try reflexivity.
  cbn. destruct (m !! "motor_data") as [md|]; [|reflexivity].
  cbn. by destruct (truthy md).
Qed.

Lemma general_merge_frame data rd rd' k :
  Main.general_merge data rd = inr rd' ->
  k <> "pingStatus"%string -> k <> "robotStatus"%string ->
  k <> "cleaningDeviceStatus"%string ->
  rd' !! k = rd !! k.
Proof.
  unfold Main.general_merge. intros H ? ? ?.
  destruct (get_prop data "ping_status"); [by destruct (get_prop data "robot_status")|].
  destruct (get_prop data "robot_status"); [done|].
  destruct (get_prop data "cleaning_device_status"); [done|].
  injection H as <-. by rewrite !lookup_insert_ne.
Qed.

(** C5, as stated, fails: a motor update that arrives from the worker also
    merges the message's ping status into the snapshot's connectivity map. *)
Lemma worker_update_changes_pingStatus :
  let st := Main.State
              (<["pingStatus" := VObject {[ "r1" := VBool true ]}]>
                 {[ "motorData" := VObject ∅ ]}) 0 0 None false in
  let message := MotorDataMsg (VObject {[ "r1" := VObject ∅ ]})
                   (VObject {[ "r1" := VBool false ]}) 0 in
  Main.robotData st !! "pingStatus" = Some (VObject {[ "r1" := VBool true ]})
  /\ Main.robotData (Main.worker_onmessage message st) !! "pingStatus"
     = Some (VObject {[ "r1" := VBool false ]})
  /\ Main.robotData (Main.worker_onmessage message st) !! "pingStatus"
     <> Main.robotData st !! "pingStatus".
Proof.
  split; [reflexivity|]. split; [reflexivity|].
  intros H.
  apply (f_equal (fun o => match o with
                           | Some (VObject m) => m !! "r1"
                           | _ => None
                           end)) in H.
  vm_compute in H. discriminate H.
Qed.

(** C5, amended. A general-status update changes no property of the snapshot
    other than [pingStatus], [robotStatus] and [cleaningDeviceStatus] (so
    [motorData] stays as it is) and leaves the motor update key alone; a
    successful one sets each of the three to what the payload carries for it,
    if that is truthy, and otherwise to the property's previous value, or to
    an empty object if that is falsy too. A motor update from the direct motor-only fetch or from
    the fallback poller replaces [motorData] and nothing else in the snapshot.
    A motor update from the worker replaces [motorData], changes no property
    other than [motorData] and [pingStatus], and sets [pingStatus] to the
    previous connectivity map overridden by the entries of the message's ping
    status when that is truthy. No motor update touches [lastUpdate], [error]
    or [loading]. *)
Theorem merge_frames :
  (forall now r st k,
      k <> "pingStatus"%string -> k <> "robotStatus"%string ->
      k <> "cleaningDeviceStatus"%string ->
      Main.robotData (Main.fetchGeneralData_resume now r st) !! k
      = Main.robotData st !! k)
  /\ (forall now r st,
        Main.robotData (Main.fetchGeneralData_resume now r st) !! "motorData"
        = Main.robotData st !! "motorData"
        /\ Main.motorUpdateKey (Main.fetchGeneralData_resume now r st)
           = Main.motorUpdateKey st)
  /\ (forall now r data st,
        Main.json_or_throw r = inr data -> data <> VUndefined -> data <> VNull ->
        let st' := Main.fetchGeneralData_resume now r st in
        let carried from to :=
          js_or (js_or (read_prop data from) (field (Main.robotData st) to))
                (VObject ∅) in
        Main.robotData st' !! "pingStatus" = Some (carried "ping_status" "pingStatus")
        /\ Main.robotData st' !! "robotStatus"
           = Some (carried "robot_status" "robotStatus")
        /\ Main.robotData st' !! "cleaningDeviceStatus"
           = Some (carried "cleaning_device_status" "cleaningDeviceStatus"))
  /\ (forall now status payload st from to value,
        (from, to) ∈ [("ping_status", "pingStatus"); ("robot_status", "robotStatus");
                      ("cleaning_device_status", "cleaningDeviceStatus")]%string ->
        payload !! from = Some value -> truthy value = true ->
        Main.robotData
          (Main.fetchGeneralData_resume now
             (FetchResponse true status (inr (VObject payload))) st) !! to
        = Some value)
  /\ (forall r st,
        let st' := Main.fetchMotorDataOnly_resume r st in
        Main.robotData st'
        = match motor_payload r with
          | Some motor_data => <["motorData" := motor_data]> (Main.robotData st)
          | None => Main.robotData st
          end
        /\ Main.lastUpdate st' = Main.lastUpdate st
        /\ Main.error st' = Main.error st /\ Main.loading st' = Main.loading st)
  /\ (forall r st,
        let st' := Main.fallbackPoll_resume r st in
        Main.robotData st'
        = match motor_payload r with
          | Some motor_data => <["motorData" := motor_data]> (Main.robotData st)
          | None => Main.robotData st
          end
        /\ Main.lastUpdate st' = Main.lastUpdate st
        /\ Main.error st' = Main.error st /\ Main.loading st' = Main.loading st)
  /\ (forall message st k,
        k <> "motorData"%string -> k <> "pingStatus"%string ->
        Main.robotData (Main.worker_onmessage message st) !! k
        = Main.robotData st !! k)
  /\ (forall motorData pingStatus timestamp st,
        truthy motorData = true ->
        let st' := Main.worker_onmessage
                     (MotorDataMsg motorData pingStatus timestamp) st in
        Main.robotData st' !! "motorData" = Some motorData
        /\ Main.robotData st' !! "pingStatus"
           = (if truthy pingStatus
              then Some (VObject (own_props pingStatus
                                  ∪ own_props (field (Main.robotData st) "pingStatus")))
              else Main.robotData st !! "pingStatus"))
  /\ (forall message st,
        let st' := Main.worker_onmessage message st in
        Main.lastUpdate st' = Main.lastUpdate st
        /\ Main.error st' = Main.error st /\ Main.loading st' = Main.loading st).
Proof.
  assert (Hgen : forall now r st k,
    k <> "pingStatus"%string -> k <> "robotStatus"%string ->
    k <> "cleaningDeviceStatus"%string ->
    Main.robotData (Main.fetchGeneralData_resume now r st) !! k
    = Main.robotData st !! k).
  { intros now r st k ? ? ?. unfold Main.fetchGeneralData_resume.
    destruct (Main.json_or_throw r) as [err|data]; [done|].
    destruct (Main.general_merge data (Main.robotData st)) as [err|rd] eqn:E; [done|].
    cbn. by eapply general_merge_frame. }
  split; [exact Hgen|].
  split.
  { intros now r st. split; [by apply Hgen|].
    unfold Main.fetchGeneralData_resume.
    destruct (Main.json_or_throw r) as [err|data]; [done|].
    by destruct (Main.general_merge data (Main.robotData st)). }
  assert (Hcarried : forall now r data st,
    Main.json_or_throw r = inr data -> data <> VUndefined -> data <> VNull ->
    let st' := Main.fetchGeneralData_resume now r st in
    let carried from to :=
      js_or (js_or (read_prop data from) (field (Main.robotData st) to))
            (VObject ∅) in
    Main.robotData st' !! "pingStatus" = Some (carried "ping_status" "pingStatus")
    /\ Main.robotData st' !! "robotStatus"
       = Some (carried "robot_status" "robotStatus")
    /\ Main.robotData st' !! "cleaningDeviceStatus"
       = Some (carried "cleaning_device_status" "cleaningDeviceStatus")).
  { intros now r data st Hr Hu Hn st' carried. subst st' carried.
    unfold Main.fetchGeneralData_resume, Main.general_merge, read_prop. rewrite Hr.
    destruct data as [| |b|x|t|l|m]; [done|done|..]; cbn [get_prop Main.robotData];
      rewrite ?lookup_insert_eq;
      repeat (rewrite lookup_insert_ne by discriminate; rewrite ?lookup_insert_eq);
      done. }
  split; [exact Hcarried|].
  split.
  { intros now status payload st from to value Hin Hv Htr.
    destruct (Hcarried now (FetchResponse true status (inr (VObject payload)))
                (VObject payload) st eq_refl) as (Hp & Hr & Hc); [done|done|].
    assert (Hread : read_prop (VObject payload) from = value).
    { unfold read_prop. cbn [get_prop]. by rewrite Hv. }
    assert (Hor : forall old, js_or (js_or value old) (VObject ∅) = value).
    { intros old. unfold js_or at 2. rewrite Htr. unfold js_or. by rewrite Htr. }
    apply elem_of_cons in Hin as [[= -> ->]|Hin];
      [by rewrite Hp, Hread, Hor|].
    apply elem_of_cons in Hin as [[= -> ->]|Hin];
      [by rewrite Hr, Hread, Hor|].
    apply elem_of_cons in Hin as [[= -> ->]|Hin];
      [by rewrite Hc, Hread, Hor|].
    by apply elem_of_nil in Hin. }
  split.
  { intros r st st'. subst st'. rewrite motorOnly_payload.
    by destruct (motor_payload r). }
  split.
  { intros r st st'. subst st'. rewrite fallback_payload.
    by destruct (motor_payload r). }
  split.
  { intros [md ps ts|text] st k ? ?; [|done]. cbn.
    destruct (truthy md); [|done]. destruct (truthy ps); cbn.
    - by rewrite !lookup_insert_ne.
    - by rewrite lookup_insert_ne. }
  split.
  { intros md ps ts st Htr st'. subst st'. cbn. rewrite Htr.
    destruct (truthy ps); cbn.
    - rewrite lookup_insert_ne, !lookup_insert_eq by done. split; [done|].
      unfold spread2, field. by rewrite lookup_insert_ne.
    - rewrite lookup_insert_eq. split; [done|]. by rewrite lookup_insert_ne. }
  intros [md ps ts|text] st; [|done]. cbn. by destruct (truthy md).
Qed.

(** The amended C5 on a snapshot with two robots: a general-status update
    that carries a ping status and a robot status replaces both, sets the
    missing [cleaningDeviceStatus] to an empty object and keeps [motorData];
    a worker update with a ping status for one robot keeps [robotStatus] and
    the other robot's connectivity. *)
Lemma merge_frames_witness :
  let st := Main.State
              (<["pingStatus" := VObject (<["r2" := VBool true]> {[ "r1" := VBool true ]})]>
              (<["robotStatus" := VObject {[ "r1" := VString "idle" ]}]>
                 {[ "motorData" := VObject {[ "r1" := VNumber 1 ]} ]})) 4 0 None false in
  let general := FetchResponse true 200
                   (inr (VObject
                      (<["robot_status" := VObject {[ "r1" := VString "cleaning" ]}]>
                         {[ "ping_status" := VObject {[ "r1" := VBool false ]} ]}))) in
  let message := MotorDataMsg (VObject {[ "r1" := VNumber 2 ]})
                   (VObject {[ "r1" := VBool false ]}) 0 in
  Main.robotData (Main.fetchGeneralData_resume 9 general st) !! "motorData"
  = Main.robotData st !! "motorData"
  /\ Main.robotData (Main.fetchGeneralData_resume 9 general st) !! "pingStatus"
     = Some (VObject {[ "r1" := VBool false ]})
  /\ Main.robotData (Main.fetchGeneralData_resume 9 general st) !! "robotStatus"
     = Some (VObject {[ "r1" := VString "cleaning" ]})
  /\ Main.robotData (Main.fetchGeneralData_resume 9 general st) !! "cleaningDeviceStatus"
     = Some (VObject ∅)
  /\ Main.robotData (Main.worker_onmessage message st) !! "robotStatus"
     = Main.robotData st !! "robotStatus"
  /\ Main.robotData (Main.worker_onmessage message st) !! "pingStatus"
     = Some (VObject (<["r2" := VBool true]> {[ "r1" := VBool false ]})).
Proof.
  intros st general message.
  destruct merge_frames as (Hgen & _ & Hexact & Hcarry & _ & _ & Hwork & Hping & _).
  split; [apply Hgen; discriminate|].
  split.
  { apply (Hcarry 9 200 _ st "ping_status"%string "pingStatus"%string
             (VObject {[ "r1" := VBool false ]}));
      [apply list_elem_of_here|reflexivity|reflexivity]. }
  split.
  { apply (Hcarry 9 200 _ st "robot_status"%string "robotStatus"%string
             (VObject {[ "r1" := VString "cleaning" ]}));
      [apply list_elem_of_further, list_elem_of_here|reflexivity|reflexivity]. }
  split.
  { destruct (Hexact 9 general _ st eq_refl) as (_ & _ & H); [done|done|].
    etrans; [exact H|]. reflexivity. }
  split; [apply Hwork; discriminate|].
  destruct (Hping (VObject {[ "r1" := VNumber 2 ]})
              (VObject {[ "r1" := VBool false ]}) 0 st eq_refl) as [_ H].
  etrans; [exact H|]. reflexivity.
Defined.



(** * Further properties of the background poller *)

(** What the message listener can and cannot do, whatever the message: it
    posts nothing, leaves the interval, the error count and the timeout ids
    alone, sets no timeout (it can only cancel one) and issues at most one
    request. *)
Ltac frame_solve :=
  repeat split; try done; try apply delete_subseteq;
  try (left; split; reflexivity); try (right; split; reflexivity).

Lemma message_frame {conv : Conversions} st now data :
  let st' := step st (Message now data) in
  POLLING_INTERVAL st' = POLLING_INTERVAL st
  /\ consecutiveErrors st' = consecutiveErrors st
  /\ outbox st' = outbox st
  /\ next_timer st' = next_timer st
  /\ timers st' ⊆ timers st
  /\ ((in_flight st' = in_flight st /\ fetches st' = fetches st)
      \/ (in_flight st' = in_flight st ++ [now] /\ fetches st' = fetches st ++ [now])).
Proof.
  destruct st as [pi run pt ce tm nt fl fs ob uc].
  cbn [step]. unfold on_message, bind, lift.
  destruct (get_prop data "command") as [err|c]; [cbn; frame_solve|].
  cbn [ret].
  destruct (is_str c "start"); [cbn; frame_solve|].
  destruct (is_str c "stop"); [destruct pt; cbn; frame_solve|].
  destruct (is_str c "poll"); [destruct pt; cbn; frame_solve|].
  destruct (is_str c "setInterval"); [|cbn; frame_solve].
  destruct (get_prop data "interval") as [err|v]; [cbn; frame_solve|].
  cbn [ret].
  destruct v;
    try match goal with
        | |- context [truthy (VNumber ?x)] => destruct (truthy (VNumber x))
        end;
    cbn; frame_solve.
Qed.

(** X5. No command resets the error count or posts a message: whatever message
    arrives ([start] and [stop] included, and malformed ones), the listener
    leaves [consecutiveErrors], the outbox and the interval as they are and
    sets no timeout, so the backoff state survives a stop and restart. *)
Theorem messages_keep_backoff_state {conv : Conversions} st now data :
  let st' := step st (Message now data) in
  POLLING_INTERVAL st' = POLLING_INTERVAL st
  /\ consecutiveErrors st' = consecutiveErrors st
  /\ outbox st' = outbox st
  /\ timers st' ⊆ timers st.
Proof.
  intros st'. destruct (message_frame st now data) as (? & ? & ? & _ & ? & _).
  done.
Qed.

(** The invariants of the worker's state. *)
Lemma resume_frame {conv : Conversions} st timestamp r :
  let st' := pollMotorData_resume timestamp r st in
  POLLING_INTERVAL st' = POLLING_INTERVAL st
  /\ in_flight st' = in_flight st /\ fetches st' = fetches st
  /\ exists msg, outbox st' = outbox st ++ [msg]
       /\ consecutiveErrors st'
          = match msg with
            | ErrorMsg _ => consecutiveErrors st + 1
            | MotorDataMsg _ _ _ => 0
            end.
Proof.
  destruct st as [pi run pt ce tm nt fl fs ob uc]. unfold pollMotorData_resume.
  destruct (validate r), run; cbn; eauto 10.
Qed.

Lemma map_Forall_sub (P : positive -> float -> Prop) (m1 m2 : gmap positive float) :
  m1 ⊆ m2 -> map_Forall P m2 -> map_Forall P m1.
Proof. intros Hsub H i x Hi. eapply H, lookup_weaken; eauto. Qed.

Lemma delays_step {conv : Conversions} st ev :
  POLLING_INTERVAL st = 500%float ->
  map_Forall (fun _ d => d = 500%float \/ d = 1000%float) (timers st) ->
  POLLING_INTERVAL (step st ev) = 500%float
  /\ map_Forall (fun _ d => d = 500%float \/ d = 1000%float) (timers (step st ev)).
Proof.
  intros Hpi Htm. destruct ev as [now data|now id|i r].
  - destruct (message_frame st now data) as (-> & _ & _ & _ & Hsub & _).
    split; [done|]. by eapply map_Forall_sub.
  - destruct st as [pi run pt ce tm nt fl fs ob uc]. cbn in *.
    destruct (tm !! id); cbn; [|done].
    split; [done|]. by apply map_Forall_delete.
  - destruct st as [pi run pt ce tm nt fl fs ob uc]. cbn in *. subst pi.
    destruct (fl !! i); cbn; [|done]. unfold pollMotorData_resume.
    destruct (validate r), run; cbn; (split; [done|]); try done;
      (apply map_Forall_insert_2; [|done]);
      try match goal with |- context [if ?b then _ else _] => destruct b end;
      first [left; reflexivity | right; reflexivity].
Qed.

Lemma delays_run {conv : Conversions} now evs :
  let st := run (load now) evs in
  POLLING_INTERVAL st = 500%float
  /\ map_Forall (fun _ d => d = 500%float \/ d = 1000%float) (timers st).
Proof.
  unfold run. generalize (load now) (eq_refl : POLLING_INTERVAL (load now) = 500%float)
    (map_Forall_empty (fun (_ : positive) d => d = 500%float \/ d = 1000%float)
       : map_Forall _ (timers (load now))).
  induction evs as [|ev evs IH]; intros st Hpi Htm; [done|].
  cbn [foldl]. destruct (delays_step st ev Hpi Htm). by apply IH.
Qed.

(** X1. The polling interval never changes: in every state the worker can
    reach, whatever messages, timeouts and responses arrive, the interval is
    the 500 ms it was declared with, and every pending timeout was set with a
    delay of 500 ms or 1000 ms. *)
Theorem interval_is_always_500 {conv : Conversions} now evs :
  let st := run (load now) evs in
  POLLING_INTERVAL st = 500%float
  /\ forall id delay, timers st !! id = Some delay ->
       delay = 500%float \/ delay = 1000%float.
Proof. apply delays_run. Qed.

(** X1 on a worker whose first four requests fail: the fourth timeout is set
    with a delay of 1000 ms. *)
Lemma interval_is_always_500_witness :
  let conv := no_numerals in
  let failed := FetchRejected (JsError "TypeError" "Failed to fetch") in
  let st := run (load 0)
              [Settled 0 failed; TimerFires 1 1%positive;
               Settled 0 failed; TimerFires 2 2%positive;
               Settled 0 failed; TimerFires 3 3%positive; Settled 0 failed] in
  timers st !! 4%positive = Some 1000%float
  /\ (1000%float = 500%float \/ 1000%float = 1000%float).
Proof.
  intros conv failed st. split; [reflexivity|].
  destruct (interval_is_always_500 0
              [Settled 0 failed; TimerFires 1 1%positive;
               Settled 0 failed; TimerFires 2 2%positive;
               Settled 0 failed; TimerFires 3 3%positive; Settled 0 failed])
    as [_ H].
  apply (H 4%positive). reflexivity.
Defined.

Lemma accounting_step {conv : Conversions} st ev :
  length (fetches st) = (length (in_flight st) + length (outbox st))%nat ->
  length (fetches (step st ev))
  = (length (in_flight (step st ev)) + length (outbox (step st ev)))%nat.
Proof.
  intros H. destruct ev as [now data|now id|i r].
  - destruct (message_frame st now data)
      as (_ & _ & -> & _ & _ & [[-> ->]|[-> ->]]); [done|].
    rewrite !length_app. cbn. lia.
  - destruct st as [pi run pt ce tm nt fl fs ob uc]. cbn in *.
    destruct (tm !! id); cbn; [|done]. rewrite !length_app. cbn. lia.
  - cbn [step]. destruct (in_flight st !! i) as [ts|] eqn:E; [|done].
    destruct (resume_frame (set_in_flight (delete i (in_flight st)) st) ts r)
      as (_ & -> & -> & msg & -> & _).
    destruct st as [pi run pt ce tm nt fl fs ob uc]. cbn in *.
    apply lookup_lt_Some in E. rewrite length_app, length_delete by eauto using lookup_lt_is_Some_2.
    cbn. lia.
Qed.

(** X2. Every request is answered by exactly one message: in every reachable
    state the number of requests issued equals the number of requests still in
    flight plus the number of messages posted. *)
Theorem every_request_is_reported {conv : Conversions} now evs :
  let st := run (load now) evs in
  length (fetches st) = (length (in_flight st) + length (outbox st))%nat.
Proof.
  unfold run. generalize (load now)
    (eq_refl : length (fetches (load now))
               = (length (in_flight (load now)) + length (outbox (load now)))%nat).
  induction evs as [|ev evs IH]; intros st H; [done|].
  cbn [foldl]. by apply IH, accounting_step.
Qed.

Lemma trailing_errors_snoc l msg :
  trailing_errors (l ++ [msg])
  = match msg with
    | ErrorMsg _ => S (trailing_errors l)
    | MotorDataMsg _ _ _ => O
    end.
Proof. unfold trailing_errors. rewrite rev_unit. by destruct msg. Qed.

Lemma errors_step {conv : Conversions} st ev :
  consecutiveErrors st = Z.of_nat (trailing_errors (outbox st)) ->
  consecutiveErrors (step st ev) = Z.of_nat (trailing_errors (outbox (step st ev))).
Proof.
  intros H. destruct ev as [now data|now id|i r].
  - by destruct (message_frame st now data) as (_ & -> & -> & _).
  - destruct st as [pi run pt ce tm nt fl fs ob uc]. cbn in *.
    by destruct (tm !! id).
  - cbn [step]. destruct (in_flight st !! i) as [ts|] eqn:E; [|done].
    destruct (resume_frame (set_in_flight (delete i (in_flight st)) st) ts r)
      as (_ & _ & _ & msg & -> & ->).
    rewrite trailing_errors_snoc.
    destruct st as [pi run pt ce tm nt fl fs ob uc]. cbn in *.
    destruct msg; [done|]. lia.
Qed.

Lemma errors_run {conv : Conversions} now evs :
  consecutiveErrors (run (load now) evs)
  = Z.of_nat (trailing_errors (outbox (run (load now) evs))).
Proof.
  unfold run. generalize (load now)
    (eq_refl : consecutiveErrors (load now)
               = Z.of_nat (trailing_errors (outbox (load now)))).
  induction evs as [|ev evs IH]; intros st H; [done|].
  cbn [foldl]. by apply IH, errors_step.
Qed.

(** X3. In every reachable state the error count is the number of [error]
    messages posted since the last [motorData] message (or since the worker
    was created). So when a cycle of a running worker completes, the next one
    is delayed by 1000 ms exactly when the last four messages posted, the one
    of this cycle included, are all errors, and by 500 ms otherwise. *)
Theorem backoff_follows_the_outbox {conv : Conversions} now evs :
  let st := run (load now) evs in
  consecutiveErrors st = Z.of_nat (trailing_errors (outbox st))
  /\ forall i timestamp r,
       isRunning st = true -> in_flight st !! i = Some timestamp ->
       let st' := step st (Settled i r) in
       timers st' !! next_timer st
       = Some (if (3 <? trailing_errors (outbox st'))%nat
               then 1000%float else 500%float).
Proof.
  intros st. split; [apply errors_run|].
  intros i ts r Hrun Hi st'.
  pose proof (errors_run now (evs ++ [Settled i r])) as Herr.
  unfold run in Herr. rewrite foldl_app in Herr. cbn [foldl] in Herr.
  fold (run (load now) evs) in Herr. fold st in Herr. fold st' in Herr.
  destruct (delays_run now evs) as [Hpi _]. fold st in Hpi.
  subst st'. cbn [step] in *. rewrite Hi in *.
  destruct (resume_schedule (set_in_flight (delete i (in_flight st)) st) ts r)
    as [_ Htm].
  { by destruct st. }
  rewrite Htm, Herr.
  assert (Hnt : next_timer (set_in_flight (delete i (in_flight st)) st) = next_timer st)
    by (by destruct st).
  assert (Hpi' : POLLING_INTERVAL (set_in_flight (delete i (in_flight st)) st) = 500%float)
    by (by destruct st).
  rewrite Hnt, Hpi', lookup_insert_eq.
  destruct (Nat.ltb_spec 3 (trailing_errors (outbox (pollMotorData_resume ts r
              (set_in_flight (delete i (in_flight st)) st)))));
    [rewrite (proj2 (Z.ltb_lt _ _)) by lia|rewrite (proj2 (Z.ltb_ge _ _)) by lia]; done.
Qed.

(** X3 on a worker whose first three requests failed and whose fourth is in
    flight: when that one fails too, the next cycle is set 1000 ms later. *)
Lemma backoff_follows_the_outbox_witness :
  let conv := no_numerals in
  let failed := FetchRejected (JsError "TypeError" "Failed to fetch") in
  let st := run (load 0)
              [Settled 0 failed; TimerFires 1 1%positive;
               Settled 0 failed; TimerFires 2 2%positive;
               Settled 0 failed; TimerFires 3 3%positive] in
  trailing_errors (outbox st) = 3%nat
  /\ timers (step st (Settled 0 failed)) !! 4%positive = Some 1000%float.
Proof.
  intros conv failed st. split; [vm_compute; reflexivity|].
  destruct (backoff_follows_the_outbox 0
              [Settled 0 failed; TimerFires 1 1%positive;
               Settled 0 failed; TimerFires 2 2%positive;
               Settled 0 failed; TimerFires 3 3%positive]) as [_ H].
  fold st in H.
  assert (Hrun : isRunning st = true) by (vm_compute; reflexivity).
  assert (Hi : in_flight st !! 0%nat = Some 3) by (vm_compute; reflexivity).
  pose proof (H 0%nat 3 failed Hrun Hi) as H'.
  vm_compute in H'. vm_compute. exact H'.
Defined.

Lemma step_start {conv : Conversions} st now :
  step st (Message now (command "start")) = startPolling now (set_isRunning true st).
Proof. reflexivity. Qed.

(** X4. A [start] command that arrives while the running worker has a request
    in flight starts a second loop beside the first. Each loop sets its own
    timeout but [pollTimer] remembers only the later one, so a [stop] cancels
    that one only: the other timeout stays pending and, when it fires after
    the [stop], issues one more request. *)
Theorem second_start_leaks_a_timeout {conv : Conversions}
    st timestamp now1 now2 r1 r2 :
  isRunning st = true -> in_flight st = [timestamp] -> timers st = ∅ ->
  let st' := run st [Message now1 (command "start"); Settled 0 r1; Settled 0 r2;
                     Message now2 (command "stop")] in
  isRunning st' = false
  /\ in_flight st' = []
  /\ pollTimer st' = Some (Pos.succ (next_timer st))
  /\ (exists delay, timers st' = {[ next_timer st := delay ]})
  /\ forall now3,
       fetches (step st' (TimerFires now3 (next_timer st)))
       = fetches st ++ [now1; now3].
Proof.
  intros Hrun Hfl Htm. destruct st as [pi run pt ce tm nt fl fs ob uc].
  cbn in Hrun, Hfl, Htm. subst run fl tm.
  intros st'. subst st'. unfold Worker.run. cbn [foldl].
  rewrite step_stop, step_start. cbn [step]. cbn -[validate pollMotorData_resume].
  unfold pollMotorData_resume.
  assert (Hdel : forall d1 d2 : float,
    delete (Pos.succ nt) (<[Pos.succ nt := d2]> (<[nt := d1]> (∅ : gmap positive float)))
    = <[nt := d1]> ∅).
  { intros d1 d2. rewrite delete_insert_eq. apply delete_id.
    rewrite lookup_insert_ne by lia. apply lookup_empty. }
  destruct (validate r1), (validate r2); cbn; rewrite !Hdel;
    (repeat split; [eauto|]); intros now3; rewrite lookup_insert_eq; cbn;
    by rewrite <- app_assoc.
Qed.

(** X4 on a freshly created worker that receives [start] before its first
    response. *)
Lemma second_start_leaks_a_timeout_witness :
  let conv := no_numerals in
  let ok := FetchResponse true 200 (inr (VObject {[ "motor_data" := VObject ∅ ]})) in
  let st' := run (load 0) [Message 1 (command "start"); Settled 0 ok; Settled 0 ok;
                           Message 2 (command "stop")] in
  isRunning st' = false
  /\ (exists delay, timers st' = {[ 1%positive := delay ]})
  /\ fetches (step st' (TimerFires 3 1%positive)) = [0; 1; 3].
Proof.
  intros conv ok st'.
  destruct (second_start_leaks_a_timeout (load 0) 0 1 2 ok ok eq_refl eq_refl eq_refl)
    as (Hrun & _ & _ & Htm & Hfetch).
  split; [exact Hrun|]. split; [exact Htm|]. exact (Hfetch 3).
Defined.

(** * Further properties of the orchestrator *)

(** X6. Setting up with a working Web Worker and then calling the returned
    [cleanup] is a round trip on the page's intervals: between the two the
    general-status interval (5000 ms) is the only addition, the cleanup
    removes it and releases the worker, and calling the cleanup again changes
    nothing. *)
Theorem setup_then_cleanup rt :
  Main.intervals rt !! Main.next_interval rt = None ->
  exists c rt',
    Main.setupMotorDataWorker None rt = (inr c, rt')
    /\ Main.intervals rt'
       = <[Main.next_interval rt := (Main.FetchGeneralData, 5000)]> (Main.intervals rt)
    /\ Main.worker rt' = true
    /\ Main.intervals (Main.run_cleanup c rt') = Main.intervals rt
    /\ Main.worker (Main.run_cleanup c rt') = false
    /\ Main.run_cleanup c (Main.run_cleanup c rt') = Main.run_cleanup c rt'.
Proof.
  intros Hfresh. destruct rt as [iv nx wk cl gr]. cbn in Hfresh.
  eexists _, _. split; [reflexivity|]. cbn.
  rewrite delete_insert_eq, (delete_id _ _ Hfresh).
  repeat split. by rewrite (delete_id _ _ Hfresh).
Qed.

(** X6 on a page without intervals. *)
Lemma setup_then_cleanup_witness :
  exists c rt',
    Main.setupMotorDataWorker None Main.fresh = (inr c, rt')
    /\ Main.intervals (Main.run_cleanup c rt') = ∅
    /\ Main.worker (Main.run_cleanup c rt') = false.
Proof.
  destruct (setup_then_cleanup Main.fresh eq_refl)
    as (c & rt' & Hs & _ & _ & Hi & Hw & _).
  exists c, rt'. split; [exact Hs|]. split; [exact Hi|exact Hw].
Defined.

(** X7. [setupMotorDataUpdateRate] followed, once the one-second delay has
    fired, by the returned [cleanup] is a round trip on the page's timers: the
    main interval (1000 ms) and the motor interval (50 ms) are both cancelled
    and every other timer is as before. *)
Theorem rate_setup_then_cleanup rt :
  (forall id, (Main.rate_next rt <= id)%positive -> Main.rate_timers rt !! id = None) ->
  let started := Main.setupMotorDataUpdateRate rt in
  let running := Main.rate_timer_fires (Pos.succ (Main.rate_next rt)) started in
  Main.rate_timers running
  = <[Pos.succ (Pos.succ (Main.rate_next rt)) :=
        (Main.Repeating, Main.FetchMotorDataOnly, 50)]>
      (<[Main.rate_next rt := (Main.Repeating, Main.FetchAllData, 1000)]>
         (Main.rate_timers rt))
  /\ Main.rate_timers (Main.rate_cleanup running) = Main.rate_timers rt.
Proof.
  intros Hfresh. destruct rt as [tm nx mi mo rq]. cbn in Hfresh.
  pose proof (Hfresh nx ltac:(lia)) as H0.
  pose proof (Hfresh (Pos.succ nx) ltac:(lia)) as H1.
  pose proof (Hfresh (Pos.succ (Pos.succ nx)) ltac:(lia)) as H2.
  intros started running. subst started running.
  unfold Main.setupMotorDataUpdateRate, Main.rate_timer_fires. cbn.
  rewrite lookup_insert_eq. cbn. rewrite delete_insert_eq.
  rewrite (delete_id (<[nx:=_]> tm)) by (rewrite lookup_insert_ne by lia; done).
  split; [done|].
  rewrite delete_insert_ne, delete_insert_eq, delete_insert_eq by lia.
  rewrite (delete_id tm nx H0). by apply delete_id.
Qed.

(** X7 on a page without timers. *)
Lemma rate_setup_then_cleanup_witness :
  let rt := Main.RateRuntime ∅ 1%positive None None 0 in
  Main.rate_timers
    (Main.rate_cleanup
       (Main.rate_timer_fires 2%positive (Main.setupMotorDataUpdateRate rt))) = ∅.
Proof.
  intros rt.
  destruct (rate_setup_then_cleanup rt) as [_ H]; [|exact H].
  intros id _. apply lookup_empty.
Defined.

(** X8. If the returned [cleanup] is called before the one-second delay has
    fired, it cancels the main interval only: [motorDataInterval] is still
    [undefined] and the pending delay is not cancelled. When the delay then
    fires, the motor interval (50 ms) starts after the cleanup and stays until
    [cleanup] is called a second time. *)
Theorem rate_early_cleanup_leaks rt :
  (forall id, (Main.rate_next rt <= id)%positive -> Main.rate_timers rt !! id = None) ->
  let cleaned := Main.rate_cleanup (Main.setupMotorDataUpdateRate rt) in
  let later := Main.rate_timer_fires (Pos.succ (Main.rate_next rt)) cleaned in
  Main.rate_timers cleaned
  = <[Pos.succ (Main.rate_next rt) := (Main.OneShot, Main.StartMotorInterval, 1000)]>
      (Main.rate_timers rt)
  /\ Main.rate_timers later
     = <[Pos.succ (Pos.succ (Main.rate_next rt)) :=
           (Main.Repeating, Main.FetchMotorDataOnly, 50)]> (Main.rate_timers rt)
  /\ Main.rate_timers (Main.rate_cleanup later) = Main.rate_timers rt.
Proof.
  intros Hfresh. destruct rt as [tm nx mi mo rq]. cbn in Hfresh.
  pose proof (Hfresh nx ltac:(lia)) as H0.
  pose proof (Hfresh (Pos.succ nx) ltac:(lia)) as H1.
  pose proof (Hfresh (Pos.succ (Pos.succ nx)) ltac:(lia)) as H2.
  intros cleaned later. subst cleaned later.
  unfold Main.setupMotorDataUpdateRate, Main.rate_timer_fires, Main.rate_cleanup. cbn.
  rewrite delete_insert_ne, delete_insert_eq, (delete_id tm nx H0) by lia.
  split; [done|].
  rewrite lookup_insert_eq. cbn. rewrite delete_insert_eq, (delete_id tm _ H1).
  split; [done|].
  rewrite (delete_id (<[_:=_]> tm) nx) by (rewrite lookup_insert_ne by lia; done).
  rewrite delete_insert_eq. by apply delete_id.
Qed.

(** X8 on a page without timers: the motor interval is the one timer left. *)
Lemma rate_early_cleanup_leaks_witness :
  let rt := Main.RateRuntime ∅ 1%positive None None 0 in
  Main.rate_timers
    (Main.rate_timer_fires 2%positive
       (Main.rate_cleanup (Main.setupMotorDataUpdateRate rt)))
  = {[ 3%positive := (Main.Repeating, Main.FetchMotorDataOnly, 50) ]}.
Proof.
  intros rt.
  destruct (rate_early_cleanup_leaks rt) as (_ & H & _); [|exact H].
  intros id _. apply lookup_empty.
Defined.

Lemma truthy_js_or_object v : truthy (js_or v (VObject ∅)) = true.
Proof. unfold js_or. by destruct (truthy v) eqn:E. Qed.

(** X9. A general-status or complete refresh always ends with [loading] false
    and never touches the motor update key. If it fails at any stage (network
    error, error status, unparseable body, [null] payload) the snapshot and
    [lastUpdate] stay as they were and [error] holds a message that starts
    with "Failed to load data: ". If it succeeds, [error] is cleared,
    [lastUpdate] is the new reading and none of the status fields it writes is
    left falsy: a general refresh writes three truthy fields over the previous
    snapshot, a complete refresh replaces the snapshot by one with exactly the
    four truthy fields [pingStatus], [robotStatus], [cleaningDeviceStatus] and
    [motorData]. *)
Theorem refresh_outcomes now r st :
  let general := Main.fetchGeneralData_resume now r st in
  let all := Main.fetchAllData_resume now r st in
  Main.loading general = false /\ Main.loading all = false
  /\ Main.motorUpdateKey general = Main.motorUpdateKey st
  /\ Main.motorUpdateKey all = Main.motorUpdateKey st
  /\ match Main.json_or_throw r with
     | inr (VUndefined | VNull) | inl _ =>
         (exists text,
            Main.error general = Some ("Failed to load data: " +:+ text)
            /\ Main.error all = Some ("Failed to load data: " +:+ text))
         /\ Main.robotData general = Main.robotData st
         /\ Main.robotData all = Main.robotData st
         /\ Main.lastUpdate general = Main.lastUpdate st
         /\ Main.lastUpdate all = Main.lastUpdate st
     | inr _ =>
         Main.error general = None /\ Main.error all = None
         /\ Main.lastUpdate general = now /\ Main.lastUpdate all = now
         /\ Forall (fun k => truthy (field (Main.robotData general) k) = true
                             /\ truthy (field (Main.robotData all) k) = true)
              ["pingStatus"; "robotStatus"; "cleaningDeviceStatus"]%string
         /\ truthy (field (Main.robotData all) "motorData") = true
         /\ dom (Main.robotData all)
            = list_to_set ["motorData"; "cleaningDeviceStatus"; "robotStatus";
                           "pingStatus"]%string
     end.
Proof.
  intros general all. subst general all.
  unfold Main.fetchGeneralData_resume, Main.fetchAllData_resume, Main.general_merge.
  destruct (Main.json_or_throw r) as [err|data].
  { do 4 (split; [reflexivity|]). split; [|repeat split].
    exists (err_message err). split; reflexivity. }
  destruct data as [| |b|x|t|l|m]; cbn [get_prop].
  1,2: do 4 (split; [reflexivity|]); (split; [|repeat split]);
       eexists; split; reflexivity.
  all: do 4 (split; [reflexivity|]);
       cbn [Main.error Main.lastUpdate Main.robotData];
       do 4 (split; [reflexivity|]);
       (split; [|split]);
       [ repeat (apply Forall_cons_2; [split|]); try apply Forall_nil_2;
         unfold field; rewrite ?lookup_insert_eq;
         repeat (rewrite lookup_insert_ne by discriminate; rewrite ?lookup_insert_eq);
         cbn [default from_option id]; apply truthy_js_or_object
       | unfold field; rewrite lookup_insert_eq; apply truthy_js_or_object
       | rewrite !dom_insert_L, dom_empty_L; reflexivity ].
Qed.

(** * Further properties of the display helpers *)

(** ** Magnitudes of binary64 numbers *)

Lemma is_nan_false x : is_nan x = false -> Prim2SF x <> S754_nan.
Proof. intros H E. by rewrite (is_nan_nan x E) in H. Qed.

Lemma finite_magnitude_bound x s m e :
  Prim2SF x = S754_finite s m e ->
  0 < Z.pos m * 2 ^ (e + 1074) < 2 ^ 2098.
Proof.
  intros E. pose proof (finite_bounds x s m e E) as (Hm & He & _).
  assert (0 < 2 ^ (e + 1074)) by (apply Z.pow_pos_nonneg; lia).
  split; [lia|].
  assert (2 ^ (e + 1074) <= 2 ^ 2045) by (apply Z.pow_le_mono_r; lia).
  replace (2 ^ 2098) with (2 ^ 53 * 2 ^ 2045) by (rewrite <- Z.pow_add_r by lia; reflexivity).
  generalize dependent (2 ^ (e + 1074)). generalize dependent (2 ^ 2045).
  generalize dependent (2 ^ 53). intros. nia.
Qed.

(** Two finite non-zero magnitudes compare as their values do. *)
Lemma SFcompare_finite a sa ma ea b sb mb eb :
  Prim2SF a = S754_finite sa ma ea -> Prim2SF b = S754_finite sb mb eb ->
  SFcompare (S754_finite false ma ea) (S754_finite false mb eb)
  = Some (Z.pos ma * 2 ^ (ea + 1074) ?= Z.pos mb * 2 ^ (eb + 1074)).
Proof.
  intros Ea Eb.
  pose proof (finite_bounds a sa ma ea Ea) as (Hma & Hea & Hna).
  pose proof (finite_bounds b sb mb eb Eb) as (Hmb & Heb & Hnb).
  cbn [SFcompare]. f_equal. symmetry.
  destruct (Z.compare_spec ea eb) as [->|Hlt|Hgt].
  - rewrite Pos.compare_cont_spec. cbn [Pos.switch_Eq].
    assert (0 < 2 ^ (eb + 1074)) by (apply Z.pow_pos_nonneg; lia).
    generalize dependent (2 ^ (eb + 1074)). intros P HP.
    destruct (Pos.compare_spec ma mb) as [A|A|A].
    + subst. apply Z.compare_refl.
    + apply Pos2Z.pos_lt_pos in A. apply Z.compare_lt_iff. nia.
    + apply Pos2Z.pos_lt_pos in A. apply Z.compare_gt_iff. nia.
  - apply Z.compare_lt_iff. apply scale_lt; [lia|lia|apply Hnb; lia].
  - apply Z.compare_gt_iff. apply scale_lt; [lia|lia|apply Hna; lia].
Qed.

(** The magnitudes of two numbers, none of them NaN, compare as their values
    in units of 2^-1074 do. *)
Lemma SFcompare_abs a b :
  is_nan a = false -> is_nan b = false ->
  SFcompare (Prim2SF (abs a)) (Prim2SF (abs b)) = Some (magnitude a ?= magnitude b).
Proof.
  intros Ha Hb. apply is_nan_false in Ha, Hb.
  rewrite !FloatAxioms.abs_spec. unfold magnitude.
  assert (P : 0 < 2 ^ 2098) by (apply Z.pow_pos_nonneg; lia).
  destruct (Prim2SF a) as [sa|sa| |sa ma ea] eqn:Ea; [| |done|];
  (destruct (Prim2SF b) as [sb|sb| |sb mb eb] eqn:Eb; [| |done|]);
  cbn [SFabs SFcompare];
  try apply (SFcompare_finite a sa ma ea b sb mb eb Ea Eb);
  f_equal; symmetry;
  first [ apply Z.compare_refl
        | apply Z.compare_lt_iff;
          first [ exact P | apply (finite_magnitude_bound b sb mb eb Eb)
                | apply (finite_magnitude_bound a sa ma ea Ea) ]
        | apply Z.compare_gt_iff;
          first [ exact P | apply (finite_magnitude_bound b sb mb eb Eb)
                | apply (finite_magnitude_bound a sa ma ea Ea) ] ].
Qed.

Lemma ltb_magnitude a b :
  is_nan a = false -> is_nan b = false ->
  (abs a <? abs b)%float = (magnitude a <? magnitude b).
Proof.
  intros Ha Hb. rewrite FloatAxioms.ltb_spec. unfold SFltb.
  rewrite (SFcompare_abs a b Ha Hb). unfold Z.ltb.
  by destruct (magnitude a ?= magnitude b).
Qed.

Lemma leb_magnitude a b :
  is_nan a = false -> is_nan b = false ->
  (abs a <=? abs b)%float = (magnitude a <=? magnitude b).
Proof.
  intros Ha Hb. rewrite FloatAxioms.leb_spec. unfold SFleb.
  rewrite (SFcompare_abs a b Ha Hb). unfold Z.leb.
  by destruct (magnitude a ?= magnitude b).
Qed.

(** Comparisons with NaN are false. *)
Lemma abs_nan x : is_nan x = true -> Prim2SF (abs x) = S754_nan.
Proof.
  unfold is_nan. rewrite FloatAxioms.eqb_spec, FloatAxioms.abs_spec.
  destruct (Prim2SF x) as [s|s| |s m e]; [| |done|]; cbn [SFeqb SFcompare].
  - discriminate.
  - by destruct s.
  - rewrite Z.compare_refl, Pos.compare_cont_refl. by destruct s.
Qed.

Lemma ltb_nan_l x c : is_nan x = true -> (abs x <? c)%float = false.
Proof. intros H. by rewrite FloatAxioms.ltb_spec, (abs_nan x H). Qed.

Lemma ltb_nan_r x c : is_nan x = true -> (c <? abs x)%float = false.
Proof.
  intros H. rewrite FloatAxioms.ltb_spec, (abs_nan x H).
  by destruct (Prim2SF c) as [[]|[]| |[]].
Qed.

Lemma leb_nan_r x c : is_nan x = true -> (c <=? abs x)%float = false.
Proof.
  intros H. rewrite FloatAxioms.leb_spec, (abs_nan x H).
  by destruct (Prim2SF c) as [[]|[]| |[]].
Qed.

(** A positive constant is its own magnitude. *)
Lemma abs_constant c mc ec :
  Prim2SF c = S754_finite false mc ec -> abs c = c /\ is_nan c = false.
Proof.
  intros E. split.
  - rewrite <- (SF2Prim_Prim2SF (abs c)), FloatAxioms.abs_spec, E.
    cbn [SFabs]. rewrite <- E. apply SF2Prim_Prim2SF.
  - unfold is_nan. rewrite FloatAxioms.eqb_spec, E. cbn.
    by rewrite Z.compare_refl, Pos.compare_cont_refl.
Qed.

Lemma lower_binade m mc A B C :
  0 < m < 2 * C -> C <= mc - 1 -> 0 < A -> 2 <= B -> m * A < (mc - 1) * (A * B).
Proof.
  intros Hm Hmc HA HB.
  assert (m * A < 2 * C * A) by nia.
  assert (2 * C * A <= (mc - 1) * A * 2) by nia.
  assert ((mc - 1) * A * 2 <= (mc - 1) * A * B)
    by (apply Z.mul_le_mono_nonneg_l; nia).
  nia.
Qed.

(** [|x| < c] for a constant [c] that is the smallest binary64 number above
    the fraction [1 / den]: no binary64 number lies between the two, so the
    comparison is the exact one with [1 / den]. *)
Lemma below_fraction x c mc ec den :
  Prim2SF c = S754_finite false mc ec ->
  0 < den -> 2 ^ 52 <= Z.pos mc - 1 ->
  den * ((Z.pos mc - 1) * 2 ^ (ec + 1074)) < 2 ^ 1074 ->
  2 ^ 1074 < den * (Z.pos mc * 2 ^ (ec + 1074)) ->
  (abs x <? c)%float = negb (is_nan x) && (den * magnitude x <? 2 ^ 1074).
Proof.
  intros Ec Hden Hmc Hlo Hhi.
  destruct (abs_constant c mc ec Ec) as [Hc Hnc].
  destruct (is_nan x) eqn:Hx; [by apply ltb_nan_l|]. cbn [negb andb].
  rewrite <- Hc, (ltb_magnitude x c Hx Hnc).
  pose proof (finite_bounds c false mc ec Ec) as (_ & Hec & _).
  pose proof (finite_magnitude_bound c false mc ec Ec) as [_ Hcb].
  assert (HG : 0 < 2 ^ (ec + 1074)) by (apply Z.pow_pos_nonneg; lia).
  assert (HU : 0 < 2 ^ 1074) by (apply Z.pow_pos_nonneg; lia).
  assert (HI : 2 ^ 1074 < 2 ^ 2098) by (apply Z.pow_lt_mono_r; lia).
  unfold magnitude at 2. rewrite Ec.
  apply is_nan_false in Hx. unfold magnitude.
  destruct (Prim2SF x) as [s|s| |s m e] eqn:Ex; [| |done|].
  - transitivity true; [|symmetry]; apply Z.ltb_lt; [|lia].
    apply Z.mul_pos_pos; lia.
  - transitivity false; [|symmetry]; apply Z.ltb_ge; [lia|].
    clear -Hden HI HU. nia.
  - pose proof (finite_bounds x s m e Ex) as (Hm & He & _).
    destruct (Z.lt_ge_cases e ec) as [Hlt|Hge].
    + assert (Hb : Z.pos m * 2 ^ (e + 1074) < (Z.pos mc - 1) * 2 ^ (ec + 1074)).
      { replace (ec + 1074) with ((e + 1074) + (ec - e)) by lia.
        rewrite (Z.pow_add_r 2 (e + 1074) (ec - e)) by lia.
        apply (lower_binade _ _ _ _ (2 ^ 52)); [change (2 * 2 ^ 52) with (2 ^ 53); lia|lia| |].
        - apply Z.pow_pos_nonneg; lia.
        - change 2 with (2 ^ 1) at 1. apply Z.pow_le_mono_r; lia. }
      transitivity true; [|symmetry]; apply Z.ltb_lt.
      * clear -Hb HG. nia.
      * assert (den * (Z.pos m * 2 ^ (e + 1074))
                <= den * ((Z.pos mc - 1) * 2 ^ (ec + 1074))); [|lia].
        apply Z.mul_le_mono_nonneg_l; lia.
    + replace (e + 1074) with ((e - ec) + (ec + 1074)) by lia.
      rewrite (Z.pow_add_r 2 (e - ec) (ec + 1074)) by lia. rewrite Z.mul_assoc.
      set (k := Z.pos m * 2 ^ (e - ec)).
      destruct (Z.lt_ge_cases k (Z.pos mc)) as [Hk|Hk].
      * transitivity true; [|symmetry]; apply Z.ltb_lt.
        -- apply Z.mul_lt_mono_pos_r; lia.
        -- assert (den * (k * 2 ^ (ec + 1074))
                   <= den * ((Z.pos mc - 1) * 2 ^ (ec + 1074))); [|lia].
           apply Z.mul_le_mono_nonneg_l; [lia|].
           apply Z.mul_le_mono_nonneg_r; lia.
      * transitivity false; [|symmetry]; apply Z.ltb_ge.
        -- apply Z.mul_le_mono_nonneg_r; lia.
        -- assert (den * (Z.pos mc * 2 ^ (ec + 1074))
                   <= den * (k * 2 ^ (ec + 1074))); [|lia].
           apply Z.mul_le_mono_nonneg_l; [lia|].
           apply Z.mul_le_mono_nonneg_r; lia.
Qed.

Lemma below_0_0001 x :
  (abs x <? 0.0001)%float = negb (is_nan x) && (10000 * magnitude x <? 2 ^ 1074).
Proof.
  apply (below_fraction x 0.0001 7378697629483821 (-66) 10000);
    [reflexivity|done|vm_compute; discriminate|vm_compute; reflexivity..].
Qed.

Lemma below_0_001 x :
  (abs x <? 0.001)%float = negb (is_nan x) && (1000 * magnitude x <? 2 ^ 1074).
Proof.
  apply (below_fraction x 0.001 4611686018427388 (-62) 1000);
    [reflexivity|done|vm_compute; discriminate|vm_compute; reflexivity..].
Qed.

Lemma below_0_01 x :
  (abs x <? 0.01)%float = negb (is_nan x) && (100 * magnitude x <? 2 ^ 1074).
Proof.
  apply (below_fraction x 0.01 5764607523034235 (-59) 100);
    [reflexivity|done|vm_compute; discriminate|vm_compute; reflexivity..].
Qed.

(** [c <= |x|] is the negation of [|x| < c], except on NaN. *)
Lemma leb_negb_ltb c mc ec x :
  Prim2SF c = S754_finite false mc ec ->
  (c <=? abs x)%float = negb (is_nan x) && negb (abs x <? c)%float.
Proof.
  intros Ec. destruct (abs_constant c mc ec Ec) as [Hc Hnc].
  destruct (is_nan x) eqn:Hx; [by apply leb_nan_r|]. cbn [negb andb].
  rewrite <- Hc, (leb_magnitude c x Hnc Hx), (ltb_magnitude x c Hx Hnc).
  apply Z.leb_antisym.
Qed.

(** A magnitude above [c] is at least any constant [d <= c]. *)
Lemma ltb_leb c mc ec d md ed x :
  Prim2SF c = S754_finite false mc ec -> Prim2SF d = S754_finite false md ed ->
  magnitude d <= magnitude c ->
  (c <? abs x)%float = true -> (d <=? abs x)%float = true.
Proof.
  intros Ec Ed Hdc. destruct (abs_constant c mc ec Ec) as [Hc Hnc].
  destruct (abs_constant d md ed Ed) as [Hd Hnd].
  destruct (is_nan x) eqn:Hx; [by rewrite ltb_nan_r|].
  rewrite <- Hc, <- Hd, (leb_magnitude d x Hnd Hx), (ltb_magnitude c x Hnc Hx).
  rewrite Z.ltb_lt, Z.leb_le. lia.
Qed.

(** X10. On a number the three [isZeroValue] methods are exact tests against
    a decimal threshold: [MotorDataService] answers whether |x| < 1/10000,
    [MotorDataComponent] whether |x| < 1/1000 and [MotorDetailComponent]
    whether |x| < 1/100, and [MotorDataComponent.hasValue] whether
    |x| >= 1/1000; the binary64 constants [0.0001], [0.001] and [0.01] of the
    code are each the smallest binary64 number above the fraction, so no
    number falls between the two. NaN is neither zero nor a value. The
    magnitude is written in units of 2^-1074. *)
Theorem isZeroValue_exact (ToNumberOther : jsval -> float) x :
  MotorDataService.isZeroValue ToNumberOther (VNumber x)
  = negb (is_nan x) && (10000 * magnitude x <? 2 ^ 1074)
  /\ MotorDataComponent.isZeroValue ToNumberOther (VNumber x)
     = negb (is_nan x) && (1000 * magnitude x <? 2 ^ 1074)
  /\ MotorDetailComponent.isZeroValue ToNumberOther (VNumber x)
     = negb (is_nan x) && (100 * magnitude x <? 2 ^ 1074)
  /\ MotorDataComponent.hasValue ToNumberOther (VNumber x)
     = negb (is_nan x) && (2 ^ 1074 <=? 1000 * magnitude x).
Proof.
  split; [apply below_0_0001|]. split; [apply below_0_001|].
  split; [apply below_0_01|].
  unfold MotorDataComponent.hasValue, Math_abs. cbn [ToNumber].
  rewrite (leb_negb_ltb 0.001 4611686018427388 (-62) x eq_refl), below_0_001.
  destruct (is_nan x); [done|]. cbn [negb andb]. symmetry. apply Z.leb_antisym.
Qed.

Lemma magnitude_nonneg x : 0 <= magnitude x.
Proof.
  unfold magnitude. destruct (Prim2SF x) as [s|s| |s m e]; [done| |done|].
  - apply Z.pow_nonneg; lia.
  - apply Z.mul_nonneg_nonneg; [lia|apply Z.pow_nonneg; lia].
Qed.

Lemma below_mono y :
  ((abs y <? 0.0001)%float = true -> (abs y <? 0.001)%float = true)
  /\ ((abs y <? 0.001)%float = true -> (abs y <? 0.01)%float = true).
Proof.
  rewrite below_0_0001, below_0_001, below_0_01.
  pose proof (magnitude_nonneg y). destruct (is_nan y); [done|]. cbn [negb andb].
  rewrite !Z.ltb_lt. generalize dependent (magnitude y). generalize (2 ^ 1074).
  intros; split; lia.
Qed.

(** X11. The three zero tests nest: a value that [MotorDataService] calls
    zero is zero for [MotorDataComponent], and a value that
    [MotorDataComponent] calls zero is zero for [MotorDetailComponent]. In
    [MotorDataComponent], [hasValue] is the negation of [isZeroValue] on every
    value that converts to a number; on a value that converts to NaN (other
    than [undefined]) both are false. *)
Theorem isZeroValue_thresholds_nest (ToNumberOther : jsval -> float) v :
  (MotorDataService.isZeroValue ToNumberOther v = true ->
   MotorDataComponent.isZeroValue ToNumberOther v = true)
  /\ (MotorDataComponent.isZeroValue ToNumberOther v = true ->
      MotorDetailComponent.isZeroValue ToNumberOther v = true)
  /\ MotorDataComponent.hasValue ToNumberOther v
     = negb (MotorDataComponent.isZeroValue ToNumberOther v)
       && negb (is_nan (ToNumber ToNumberOther v)).
Proof.
  unfold MotorDataService.isZeroValue, MotorDataComponent.isZeroValue,
    MotorDetailComponent.isZeroValue, MotorDataComponent.hasValue, Math_abs.
  destruct v as [| |b|x|t|l|m]; [done|done|..];
    (split; [apply below_mono|]; split; [apply below_mono|]);
    rewrite (leb_negb_ltb 0.001 4611686018427388 (-62) _ eq_refl);
    apply andb_comm.
Qed.

(** X11 on the reading 0.00005, which all three call zero. *)
Lemma isZeroValue_thresholds_nest_witness :
  MotorDataService.isZeroValue (fun _ => nan) (VNumber 0.00005) = true
  /\ MotorDataComponent.isZeroValue (fun _ => nan) (VNumber 0.00005) = true
  /\ MotorDetailComponent.isZeroValue (fun _ => nan) (VNumber 0.00005) = true.
Proof.
  destruct (isZeroValue_thresholds_nest (fun _ => nan) (VNumber 0.00005))
    as (H1 & H2 & _).
  assert (H : MotorDataService.isZeroValue (fun _ => nan) (VNumber 0.00005) = true)
    by (vm_compute; reflexivity).
  split; [exact H|]. split; [exact (H1 H)|exact (H2 (H1 H))].
Defined.

Lemma gt_abs c mc ec y :
  Prim2SF c = S754_finite false mc ec ->
  (c <? y)%float = true -> (c <? abs y)%float = true.
Proof.
  intros Ec. rewrite !FloatAxioms.ltb_spec, FloatAxioms.abs_spec, Ec.
  destruct (Prim2SF y) as [[]|[]| |[] m e]; cbn [SFabs]; try done.
Qed.

(** A magnitude above [c] is not below a constant [d <= c]. *)
Lemma above_not_below c mc ec d md ed y :
  Prim2SF c = S754_finite false mc ec -> Prim2SF d = S754_finite false md ed ->
  magnitude d <= magnitude c ->
  (c <? abs y)%float = true -> (abs y <? d)%float = false.
Proof.
  intros Ec Ed Hdc H.
  destruct (abs_constant c mc ec Ec) as [Hc Hnc].
  destruct (abs_constant d md ed Ed) as [Hd Hnd].
  destruct (is_nan y) eqn:Hy; [by apply ltb_nan_l|].
  rewrite <- Hc, (ltb_magnitude c y Hnc Hy) in H.
  rewrite <- Hd, (ltb_magnitude y d Hy Hnd).
  apply Z.ltb_lt in H. apply Z.ltb_ge. lia.
Qed.

Ltac above_below c mc ec d md ed :=
  apply (above_not_below c mc ec d md ed);
  [reflexivity|reflexivity|vm_compute; discriminate|].

(** X12. A value that is classified as abnormal is never a zero value, for
    every kind and in each of the three modules: the two markings of a reading
    (abnormal, zero) exclude one another. *)
Theorem abnormal_is_never_zero (ToNumberOther : jsval -> float) value type :
  (MotorDataService.isMotorValueAbnormal ToNumberOther value type = true ->
   MotorDataService.isZeroValue ToNumberOther value = false)
  /\ (MotorDataComponent.isMotorValueAbnormal ToNumberOther value type = true ->
      MotorDataComponent.isZeroValue ToNumberOther value = false)
  /\ (MotorDetailComponent.isMotorValueAbnormal ToNumberOther value type = true ->
      MotorDetailComponent.isZeroValue ToNumberOther value = false).
Proof.
  unfold MotorDataService.isMotorValueAbnormal, MotorDataComponent.isMotorValueAbnormal,
    MotorDetailComponent.isMotorValueAbnormal, MotorDataService.isZeroValue,
    MotorDataComponent.isZeroValue, MotorDetailComponent.isZeroValue, Math_abs.
  destruct value as [| |b|x|t|l|m]; [done|done|..];
    destruct (is_str type "current");
    try destruct (is_str type "velocity"); try destruct (is_str type "position");
    repeat split; try discriminate; intros H;
    try apply (gt_abs 5 5629499534213120 (-50) _ eq_refl) in H.
  all: first
    [ above_below 5%float 5629499534213120%positive (-50) 0.0001%float 7378697629483821%positive (-66); exact H
    | above_below 5%float 5629499534213120%positive (-50) 0.001%float 4611686018427388%positive (-62); exact H
    | above_below 5%float 5629499534213120%positive (-50) 0.01%float 5764607523034235%positive (-59); exact H
    | above_below 1000%float 8796093022208000%positive (-43) 0.0001%float 7378697629483821%positive (-66); exact H
    | above_below 1000%float 8796093022208000%positive (-43) 0.001%float 4611686018427388%positive (-62); exact H
    | above_below 1000%float 8796093022208000%positive (-43) 0.01%float 5764607523034235%positive (-59); exact H
    | above_below 100000%float 6871947673600000%positive (-36) 0.0001%float 7378697629483821%positive (-66); exact H
    | above_below 100000%float 6871947673600000%positive (-36) 0.001%float 4611686018427388%positive (-62); exact H ].
Qed.

(** X12 on a velocity of 1500 rpm. *)
Lemma abnormal_is_never_zero_witness :
  MotorDataService.isMotorValueAbnormal (fun _ => nan) (VNumber 1500) (VString "velocity")
  = true
  /\ MotorDataService.isZeroValue (fun _ => nan) (VNumber 1500) = false.
Proof.
  assert (H : MotorDataService.isMotorValueAbnormal (fun _ => nan) (VNumber 1500)
                (VString "velocity") = true) by (vm_compute; reflexivity).
  split; [exact H|].
  exact (proj1 (abnormal_is_never_zero (fun _ => nan) (VNumber 1500) (VString "velocity")) H).
Defined.

(** ** Zero checks over the six readings *)

Lemma truthy_js_and a b : truthy (js_and a (VBool b)) = truthy a && b.
Proof. unfold js_and. by destruct (truthy a) eqn:E. Qed.

Lemma truthy_js_or a b : truthy (js_or a b) = truthy a || truthy b.
Proof. unfold js_or. destruct (truthy a) eqn:E; [by rewrite E|done]. Qed.

(** A truthy member is a member of a truthy value. *)
Lemma member_truthy md name entry :
  member md name = inr entry -> truthy entry = true -> truthy md = true.
Proof.
  destruct md as [| |b|x|t|l|m]; cbn [member get_prop]; try discriminate;
    try (intros [= <-]; discriminate); [|done..].
  destruct t as [|c t]; [|done].
  destruct (String.eqb name "length"); intros [= <-]; vm_compute; discriminate.
Qed.

Lemma service_areAllValuesZero_entry tno name md entry :
  member md name = inr entry -> truthy entry = true ->
  MotorDataService.areAllValuesZero tno name md
  = inr (negb (existsb (fun v => truthy v && (0.0001 <=? Math_abs tno v)%float)
                 (tracked entry))).
Proof.
  intros Hm He. unfold MotorDataService.areAllValuesZero.
  rewrite (member_truthy md name entry Hm He), Hm, He. cbn [negb].
  rewrite !truthy_js_or, !truthy_js_and. unfold tracked. cbn [existsb].
  by rewrite orb_false_r, !orb_assoc.
Qed.

Lemma component_hasNonZeroValues_entry tno name md entry :
  member md name = inr entry -> truthy entry = true ->
  exists r, MotorDataComponent.hasNonZeroValues tno name md = inr r
    /\ truthy r = existsb (fun v => truthy v && (0.001 <? Math_abs tno v)%float)
                    (tracked entry).
Proof.
  intros Hm He. unfold MotorDataComponent.hasNonZeroValues.
  rewrite Hm, He. cbn [negb]. eexists. split; [reflexivity|].
  rewrite !truthy_js_or, !truthy_js_and. unfold tracked. cbn [existsb].
  by rewrite orb_false_r, !orb_assoc.
Qed.

Lemma detail_areAllValuesZero_entry tno name md entry :
  member md name = inr entry -> truthy entry = true ->
  MotorDetailComponent.areAllValuesZero tno name md
  = inr (forallb (fun v => negb (truthy v) || (Math_abs tno v <? 0.01)%float)
           (tracked entry)).
Proof.
  intros Hm He. unfold MotorDetailComponent.areAllValuesZero.
  rewrite Hm, He. cbn [negb]. unfold tracked. cbn [forallb].
  by rewrite andb_true_r, !andb_assoc.
Qed.

(** Without a truthy entry the three checks answer "all zero". *)
Lemma areAllValuesZero_no_entry tno name md entry :
  member md name = inr entry -> truthy entry = false ->
  MotorDataService.areAllValuesZero tno name md = inr true
  /\ MotorDataComponent.hasNonZeroValues tno name md = inr (VBool false)
  /\ MotorDetailComponent.areAllValuesZero tno name md = inr true.
Proof.
  intros Hm He. unfold MotorDataService.areAllValuesZero,
    MotorDataComponent.hasNonZeroValues, MotorDetailComponent.areAllValuesZero.
  rewrite Hm, He. cbn [negb]. by destruct (negb (truthy md)).
Qed.

Lemma truthy_number_not_nan x : truthy (VNumber x) = true -> is_nan x = false.
Proof. cbn [truthy]. by destruct (is_nan x). Qed.

Lemma is_zero_magnitude x : is_nan x = false -> is_zero x = (magnitude x =? 0).
Proof.
  intros Hx. apply is_nan_false in Hx. unfold is_zero, magnitude.
  rewrite FloatAxioms.eqb_spec. change (Prim2SF 0) with (S754_zero false).
  destruct (Prim2SF x) as [s|s| |s m e] eqn:Ex; [by destruct s| |done|].
  - destruct s; cbn; symmetry; apply Z.eqb_neq; apply Z.pow_nonzero; lia.
  - pose proof (finite_magnitude_bound x s m e Ex).
    destruct s; cbn [SFeqb SFcompare]; symmetry; apply Z.eqb_neq; lia.
Qed.

(** On a reading, the operand [v && Math.abs(v) >= 0.0001] of the service's
    check is the negation of its [isZeroValue]. *)
Lemma service_operand tno v :
  reading v = true ->
  truthy v && (0.0001 <=? Math_abs tno v)%float
  = negb (MotorDataService.isZeroValue tno v).
Proof.
  destruct v as [| |b|x|t|l|m]; try discriminate; [done|done|].
  cbn [reading]. intros Hx. apply negb_true_iff in Hx.
  unfold MotorDataService.isZeroValue, Math_abs. cbn [ToNumber truthy].
  rewrite (leb_negb_ltb 0.0001 7378697629483821 (-66) x eq_refl), Hx.
  cbn [negb orb andb]. rewrite below_0_0001, Hx, (is_zero_magnitude x Hx).
  cbn [negb andb]. pose proof (magnitude_nonneg x) as Hge.
  assert (HU : 0 < 2 ^ 1074) by (apply Z.pow_pos_nonneg; lia).
  destruct (Z.eqb_spec (magnitude x) 0) as [E|E]; [|done].
  cbn [negb andb]. rewrite E. symmetry. apply negb_false_iff, Z.ltb_lt. lia.
Qed.

Lemma detail_operand tno v :
  reading v = true ->
  negb (truthy v) || (Math_abs tno v <? 0.01)%float
  = MotorDetailComponent.isZeroValue tno v.
Proof.
  destruct v as [| |b|x|t|l|m]; try discriminate; [done|done|].
  cbn [reading]. intros Hx. apply negb_true_iff in Hx.
  unfold MotorDetailComponent.isZeroValue, Math_abs. cbn [ToNumber truthy].
  rewrite Hx, (is_zero_magnitude x Hx), below_0_01, Hx. cbn [negb orb andb].
  assert (HU : 0 < 2 ^ 1074) by (apply Z.pow_pos_nonneg; lia).
  destruct (Z.eqb_spec (magnitude x) 0) as [E|E]; [|done].
  cbn [negb orb]. rewrite E. symmetry. apply Z.ltb_lt. lia.
Qed.

Lemma ltb_truthy tno c mc ec v :
  Prim2SF c = S754_finite false mc ec ->
  reading v = true ->
  truthy v && (c <? Math_abs tno v)%float = (c <? Math_abs tno v)%float.
Proof.
  intros Ec. destruct (abs_constant c mc ec Ec) as [Hc Hnc].
  unfold Math_abs.
  destruct v as [| |b|x|t|l|m]; try discriminate; cbn [ToNumber truthy reading andb].
  - intros _. symmetry. by apply ltb_nan_r.
  - intros _. symmetry. rewrite <- Hc, (ltb_magnitude c 0 Hnc eq_refl).
    apply Z.ltb_ge. change (magnitude 0) with 0. apply magnitude_nonneg.
  - intros Hx. apply negb_true_iff in Hx. rewrite Hx. cbn [orb].
    destruct (c <? abs x)%float eqn:H; [|apply andb_false_r].
    rewrite andb_true_r, (is_zero_magnitude x Hx).
    rewrite <- Hc, (ltb_magnitude c x Hnc Hx) in H. apply Z.ltb_lt in H.
    pose proof (magnitude_nonneg c). apply negb_true_iff, Z.eqb_neq. lia.
Qed.

Lemma leb_ltb_eqb a b : (a <=? b)%float = (a <? b)%float || (a =? b)%float.
Proof.
  rewrite FloatAxioms.leb_spec, FloatAxioms.ltb_spec, FloatAxioms.eqb_spec.
  unfold SFleb, SFltb, SFeqb. by destruct (SFcompare _ _) as [[]|].
Qed.

Lemma component_operand tno v :
  reading v = true ->
  MotorDataComponent.hasValue tno v
  = truthy v && (0.001 <? Math_abs tno v)%float || (0.001 =? Math_abs tno v)%float.
Proof.
  intros Hv. rewrite (ltb_truthy tno 0.001 4611686018427388 (-62) v eq_refl Hv).
  rewrite <- leb_ltb_eqb.
  destruct v as [| |b|x|t|l|m]; try discriminate; try reflexivity.
Qed.

Lemma existsb_on {A} (P : A -> bool) (f g : A -> bool) l :
  (forall v, P v = true -> f v = g v) -> forallb P l = true ->
  existsb f l = existsb g l.
Proof.
  intros H. induction l as [|a l IH]; [done|]. cbn [forallb existsb].
  intros [Ha Hl]%andb_true_iff. by rewrite (H a Ha), IH.
Qed.

Lemma forallb_on {A} (P : A -> bool) (f g : A -> bool) l :
  (forall v, P v = true -> f v = g v) -> forallb P l = true ->
  forallb f l = forallb g l.
Proof.
  intros H. induction l as [|a l IH]; [done|]. cbn [forallb].
  intros [Ha Hl]%andb_true_iff. by rewrite (H a Ha), IH.
Qed.

Lemma negb_existsb {A} (f : A -> bool) l :
  negb (existsb f l) = forallb (fun v => negb (f v)) l.
Proof.
  induction l as [|a l IH]; [done|]. cbn [forallb existsb].
  by rewrite negb_orb, IH.
Qed.

Lemma existsb_orb {A} (f g : A -> bool) l :
  existsb (fun v => f v || g v) l = existsb f l || existsb g l.
Proof.
  induction l as [|a l IH]; [done|]. cbn [existsb]. rewrite IH.
  destruct (f a), (g a), (existsb f l), (existsb g l); reflexivity.
Qed.

(** X13. On a payload whose six readings are numbers, [null] or absent, the
    per-robot zero checks are the per-value tests taken over the six readings:
    [areAllValuesZero] of [MotorDataService] and of [MotorDetailComponent] is
    [true] exactly when the module's [isZeroValue] holds of every reading.
    [hasNonZeroValues] of [MotorDataComponent] compares with [>] where
    [hasValue] compares with [>=]: some reading has a value exactly when
    [hasNonZeroValues] is truthy or some reading has the magnitude [0.001]
    itself. *)
Theorem zero_checks_read_isZeroValue (ToNumberOther : jsval -> float)
    robotName motorData entry :
  member motorData robotName = inr entry -> truthy entry = true ->
  forallb reading (tracked entry) = true ->
  MotorDataService.areAllValuesZero ToNumberOther robotName motorData
  = inr (forallb (MotorDataService.isZeroValue ToNumberOther) (tracked entry))
  /\ MotorDetailComponent.areAllValuesZero ToNumberOther robotName motorData
     = inr (forallb (MotorDetailComponent.isZeroValue ToNumberOther) (tracked entry))
  /\ exists r,
       MotorDataComponent.hasNonZeroValues ToNumberOther robotName motorData = inr r
       /\ existsb (MotorDataComponent.hasValue ToNumberOther) (tracked entry)
          = truthy r
            || existsb (fun v => (0.001 =? Math_abs ToNumberOther v)%float)
                 (tracked entry).
Proof.
  intros Hm He Hr. split; [|split].
  - rewrite (service_areAllValuesZero_entry _ _ _ entry Hm He), negb_existsb.
    f_equal. apply (forallb_on reading); [|exact Hr].
    intros v Hv. by rewrite (service_operand _ v Hv), negb_involutive.
  - rewrite (detail_areAllValuesZero_entry _ _ _ entry Hm He).
    f_equal. apply (forallb_on reading); [|exact Hr].
    intros v Hv. apply (detail_operand _ v Hv).
  - destruct (component_hasNonZeroValues_entry ToNumberOther _ _ entry Hm He)
      as (r & Hn & Ht).
    exists r. split; [exact Hn|]. rewrite Ht, <- existsb_orb.
    apply (existsb_on reading); [|exact Hr].
    intros v Hv. apply (component_operand _ v Hv).
Qed.

(** X13 on a robot whose only reading is a current of 0.001: it has a value,
    the service does not count it as zero, the detail view does, and
    [hasNonZeroValues] is falsy (it evaluates to [undefined]). *)
Lemma zero_checks_read_isZeroValue_witness :
  let entry := VObject {[ "motor1" := VObject {[ "current" := VNumber 0.001 ]} ]} in
  let motorData := VObject {[ "base1" := entry ]} in
  MotorDataService.areAllValuesZero (fun _ => nan) "base1" motorData = inr false
  /\ MotorDetailComponent.areAllValuesZero (fun _ => nan) "base1" motorData = inr true
  /\ MotorDataComponent.hasNonZeroValues (fun _ => nan) "base1" motorData
     = inr VUndefined
  /\ existsb (MotorDataComponent.hasValue (fun _ => nan)) (tracked entry) = true.
Proof.
  intros entry motorData.
  assert (Hm : member motorData "base1" = inr entry) by (vm_compute; reflexivity).
  assert (Hr : forallb reading (tracked entry) = true) by (vm_compute; reflexivity).
  destruct (zero_checks_read_isZeroValue (fun _ => nan) "base1" motorData entry
              Hm eq_refl Hr) as (H1 & H2 & r & H3 & H4).
  split; [rewrite H1; vm_compute; reflexivity|].
  split; [rewrite H2; vm_compute; reflexivity|].
  split; [vm_compute; reflexivity|].
  rewrite H4. apply orb_true_iff. right. vm_compute. reflexivity.
Defined.

Lemma existsb_impl {A} (f g : A -> bool) l :
  (forall v, f v = true -> g v = true) -> existsb f l = true -> existsb g l = true.
Proof.
  intros H. induction l as [|a l IH]; [done|]. cbn [existsb].
  intros [Ha|Hl]%orb_true_iff; apply orb_true_iff; [left; by apply H|right; by apply IH].
Qed.

Lemma member_entry_cases md name :
  (exists err, member md name = inl err /\ (md = VUndefined \/ md = VNull))
  \/ exists entry, member md name = inr entry.
Proof.
  destruct md as [| |b|x|t|l|m]; cbn [member get_prop]; eauto;
    destruct (String.eqb name "length"); eauto.
Qed.

Lemma existsb_impl_on {A} (P f g : A -> bool) l :
  (forall v, P v = true -> f v = true -> g v = true) -> forallb P l = true ->
  existsb f l = true -> existsb g l = true.
Proof.
  intros H. induction l as [|a l IH]; [done|]. cbn [existsb forallb].
  intros [Ha Hl]%andb_true_iff [Hf|He]%orb_true_iff; apply orb_true_iff;
    [left; by apply H|right; by apply IH].
Qed.

Lemma not_below_0_01 x :
  is_nan x = false -> (abs x <? 0.01)%float = false -> (0.001 <? abs x)%float = true.
Proof.
  intros Hx H. rewrite below_0_01, Hx in H. cbn [negb andb] in H.
  apply Z.ltb_ge in H.
  destruct (abs_constant 0.001 4611686018427388 (-62) eq_refl) as [Hc Hnc].
  rewrite <- Hc, (ltb_magnitude 0.001 x Hnc Hx). apply Z.ltb_lt.
  assert (Hk : 100 * magnitude 0.001 < 2 ^ 1074) by (vm_compute; reflexivity).
  generalize dependent (magnitude 0.001). generalize dependent (2 ^ 1074).
  intros. lia.
Qed.

Lemma detail_to_component_operand tno v :
  reading v = true ->
  negb (negb (truthy v) || (Math_abs tno v <? 0.01)%float) = true ->
  truthy v && (0.001 <? Math_abs tno v)%float = true.
Proof.
  intros Hv [Ht Hb]%negb_true_iff%orb_false_iff. apply negb_false_iff in Ht.
  rewrite Ht. cbn [andb].
  destruct v as [| |b|x|t|l|m]; try discriminate.
  apply not_below_0_01; [by apply truthy_number_not_nan|exact Hb].
Qed.

Lemma forallb_false_existsb {A} (f : A -> bool) l :
  forallb f l = false -> existsb (fun v => negb (f v)) l = true.
Proof.
  induction l as [|a l IH]; [done|]. cbn [forallb existsb].
  destruct (f a); [exact IH|done].
Qed.

(** X14. The per-robot zero checks nest the other way round: when
    [MotorDetailComponent] finds a reading that is not zero, so does
    [MotorDataComponent] (readings being numbers, [null] or absent), and when
    [MotorDataComponent.hasNonZeroValues] is truthy, [MotorDataService] does
    not report all values as zero. *)
Theorem zero_checks_nest (ToNumberOther : jsval -> float) robotName motorData :
  (forall entry, member motorData robotName = inr entry ->
     forallb reading (tracked entry) = true) ->
  (MotorDetailComponent.areAllValuesZero ToNumberOther robotName motorData = inr false ->
   exists r, MotorDataComponent.hasNonZeroValues ToNumberOther robotName motorData = inr r
             /\ truthy r = true)
  /\ (forall r,
        MotorDataComponent.hasNonZeroValues ToNumberOther robotName motorData = inr r ->
        truthy r = true ->
        MotorDataService.areAllValuesZero ToNumberOther robotName motorData = inr false).
Proof.
  intros Hr.
  destruct (member_entry_cases motorData robotName) as [(err & Hm & _)|(entry & Hm)].
  { unfold MotorDetailComponent.areAllValuesZero, MotorDataComponent.hasNonZeroValues.
    rewrite Hm. split; [discriminate|intros r; discriminate]. }
  destruct (truthy entry) eqn:He.
  2:{ destruct (areAllValuesZero_no_entry ToNumberOther _ _ entry Hm He) as (_ & -> & ->).
      split; [discriminate|]. by intros r [= <-]. }
  specialize (Hr entry Hm).
  rewrite (detail_areAllValuesZero_entry _ _ _ entry Hm He).
  rewrite (service_areAllValuesZero_entry _ _ _ entry Hm He).
  destruct (component_hasNonZeroValues_entry ToNumberOther _ _ entry Hm He)
    as (r & -> & Ht).
  revert Hr Ht. generalize (tracked entry). intros l Hr Ht. split.
  - intros [= H]. exists r. split; [reflexivity|]. rewrite Ht.
    apply forallb_false_existsb in H. revert H.
    apply (existsb_impl_on reading); [|exact Hr].
    intros v. apply detail_to_component_operand.
  - intros r' [= <-] Hr'. f_equal. apply negb_false_iff.
    rewrite Ht in Hr'. revert Hr'. apply existsb_impl.
    intros v [Hv Hlt]%andb_true_iff. rewrite Hv. cbn [andb].
    revert Hlt. apply (ltb_leb 0.001 4611686018427388 (-62) 0.0001 7378697629483821 (-66));
      [reflexivity|reflexivity|vm_compute; discriminate].
Qed.

(** X14 on a robot whose only reading is a velocity of 0.05 rpm. *)
Lemma zero_checks_nest_witness :
  let motorData :=
    VObject {[ "base1" := VObject {[ "motor1" := VObject {[ "vel_rpm" := VNumber 0.05 ]} ]} ]} in
  MotorDetailComponent.areAllValuesZero (fun _ => nan) "base1" motorData = inr false
  /\ MotorDataService.areAllValuesZero (fun _ => nan) "base1" motorData = inr false.
Proof.
  intros motorData.
  assert (Hd : MotorDetailComponent.areAllValuesZero (fun _ => nan) "base1" motorData
               = inr false) by (vm_compute; reflexivity).
  destruct (zero_checks_nest (fun _ => nan) "base1" motorData) as [H1 H2].
  { intros entry Hm. vm_compute in Hm. injection Hm as <-. vm_compute. reflexivity. }
  split; [exact Hd|]. destruct (H1 Hd) as (r & Hr & Ht). exact (H2 r Hr Ht).
Defined.

(** X15. [hasMotorData] of the two components is the same function, and
    [MotorDataService.hasMotorData] never throws. On every motor data other
    than [undefined] and [null] the service agrees with the components; on
    those two the service answers [false] where the components, which index
    the motor data without a guard, throw a TypeError. *)
Theorem hasMotorData_agreement robotName motorData :
  MotorDetailComponent.hasMotorData robotName motorData
  = MotorDataComponent.hasMotorData robotName motorData
  /\ (exists b, MotorDataService.hasMotorData robotName motorData = inr b)
  /\ match motorData with
     | VUndefined | VNull =>
         MotorDataService.hasMotorData robotName motorData = inr false
         /\ exists message,
              MotorDataComponent.hasMotorData robotName motorData
              = inl (JsError "TypeError" message)
     | _ =>
         MotorDataComponent.hasMotorData robotName motorData
         = MotorDataService.hasMotorData robotName motorData
     end.
Proof.
  split; [reflexivity|].
  unfold MotorDataService.hasMotorData, MotorDataComponent.hasMotorData.
  destruct (member_entry_cases motorData robotName) as [(err & Hm & Hmd)|(entry & Hm)].
  - destruct Hmd as [-> | ->]; cbn [truthy negb]; (split; [by eexists|]);
      (split; [reflexivity|]); cbn [member get_prop]; by eexists.
  - rewrite Hm. split.
    + destruct (negb (truthy motorData)); [by eexists|].
      destruct (negb (truthy entry)); by eexists.
    + destruct motorData as [| |b|x|t|l|m]; try discriminate Hm;
        (destruct (truthy entry) eqn:He; cbn [negb];
         [by rewrite (member_truthy _ _ _ Hm He)|by destruct (negb _)]).
Qed.

Lemma read_prop_truthy_keys motor k :
  truthy (read_prop motor k) = true -> (0 <? Object_keys_length motor)%nat = true.
Proof.
  destruct motor as [| |b|x|t|l|m]; try discriminate.
  unfold read_prop, Object_keys_length. cbn [get_prop own_props].
  destruct (m !! k) as [v|] eqn:E; [intros _|discriminate].
  apply Nat.ltb_lt. destruct (decide (size m = 0%nat)) as [Hz|Hz]; [|lia].
  apply map_size_empty_iff in Hz. subst m. by rewrite lookup_empty in E.
Qed.

Lemma tracked_truthy_keys entry :
  existsb truthy (tracked entry) = true ->
  (0 <? Object_keys_length (js_or (read_prop entry "motor1") (VObject ∅)))%nat
  || (0 <? Object_keys_length (js_or (read_prop entry "motor2") (VObject ∅)))%nat
  = true.
Proof.
  unfold tracked. cbn [existsb]. rewrite orb_false_r.
  intros H. apply orb_true_iff.
  repeat (apply orb_true_iff in H as [H|H];
          [eauto using read_prop_truthy_keys|]).
  eauto using read_prop_truthy_keys.
Qed.

(** X16. A reading that is not zero implies that there is data: whenever a
    module's zero check reports a non-zero reading for a robot, the module's
    [hasMotorData] is [true] for it. So of the conditions
    [hasMotorData && !areAllValuesZero] the first conjunct is implied by the
    second. *)
Theorem nonzero_reading_means_data (ToNumberOther : jsval -> float)
    robotName motorData :
  (MotorDataService.areAllValuesZero ToNumberOther robotName motorData = inr false ->
   MotorDataService.hasMotorData robotName motorData = inr true)
  /\ (forall r,
        MotorDataComponent.hasNonZeroValues ToNumberOther robotName motorData = inr r ->
        truthy r = true ->
        MotorDataComponent.hasMotorData robotName motorData = inr true)
  /\ (MotorDetailComponent.areAllValuesZero ToNumberOther robotName motorData = inr false ->
      MotorDetailComponent.hasMotorData robotName motorData = inr true).
Proof.
  destruct (member_entry_cases motorData robotName) as [(err & Hm & Hmd)|(entry & Hm)].
  { unfold MotorDataService.areAllValuesZero, MotorDataComponent.hasNonZeroValues,
      MotorDetailComponent.areAllValuesZero.
    rewrite Hm. destruct Hmd as [-> | ->]; cbn [truthy negb];
      (split; [discriminate|]); (split; [intros r|]); discriminate. }
  destruct (truthy entry) eqn:He.
  2:{ destruct (areAllValuesZero_no_entry ToNumberOther _ _ entry Hm He)
        as (-> & -> & ->).
      split; [discriminate|]. split; [|discriminate]. by intros r [= <-]. }
  rewrite (detail_areAllValuesZero_entry _ _ _ entry Hm He).
  rewrite (service_areAllValuesZero_entry _ _ _ entry Hm He).
  destruct (component_hasNonZeroValues_entry ToNumberOther _ _ entry Hm He)
    as (r & -> & Ht).
  unfold MotorDataService.hasMotorData, MotorDataComponent.hasMotorData,
    MotorDetailComponent.hasMotorData.
  rewrite (member_truthy _ _ _ Hm He), Hm, He. cbn [negb].
  pose proof (tracked_truthy_keys entry) as Hk.
  revert Ht Hk. generalize (tracked entry). intros l Ht Hk.
  split; [|split].
  - intros [= H]. f_equal. apply Hk. apply negb_false_iff in H. revert H.
    apply existsb_impl. by intros v [Hv _]%andb_true_iff.
  - intros r' [= <-] Hr'. f_equal. apply Hk. rewrite Ht in Hr'. revert Hr'.
    apply existsb_impl. by intros v [Hv _]%andb_true_iff.
  - intros [= H]. f_equal. apply Hk. apply forallb_false_existsb in H. revert H.
    apply existsb_impl.
    intros v [Hv _]%negb_true_iff%orb_false_iff. by apply negb_false_iff.
Qed.

(** X16 on a robot whose only reading is a current of 1.5 A. *)
Lemma nonzero_reading_means_data_witness :
  let motorData :=
    VObject {[ "base1" := VObject {[ "motor2" := VObject {[ "current" := VNumber 1.5 ]} ]} ]} in
  MotorDataService.areAllValuesZero (fun _ => nan) "base1" motorData = inr false
  /\ MotorDataService.hasMotorData "base1" motorData = inr true.
Proof.
  intros motorData.
  assert (H : MotorDataService.areAllValuesZero (fun _ => nan) "base1" motorData
              = inr false) by (vm_compute; reflexivity).
  split; [exact H|].
  exact (proj1 (nonzero_reading_means_data (fun _ => nan) "base1" motorData) H).
Defined.

(** ** Motor status and motor errors *)

Lemma array_some_filter p l :
  match array_filter (fun e => inr (p e)) l with
  | inr kept =>
      kept = List.filter p l
      /\ array_some (fun e => inr (p e)) l = inr (existsb p l)
  | inl _ => False
  end.
Proof.
  induction l as [|x l IH]; [done|]. cbn [array_filter array_some List.filter existsb].
  destruct (array_filter _ l) as [err|kept]; [done|]. destruct IH as [-> IH].
  rewrite IH. by destruct (p x).
Qed.

Lemma filter_nil_existsb {A} (p : A -> bool) l :
  List.filter p l = [] <-> existsb p l = false.
Proof.
  induction l as [|x l IH]; [done|]. cbn [List.filter existsb].
  destruct (p x); [split; discriminate|exact IH].
Qed.

(** X17. The motor status and the motor error list are read off the same
    errors. [getMotorStatusDisplay] and [getMotorErrors] are the same functions
    in [MotorDataService] and in [MotorDataComponent]. When [getMotorErrors]
    returns, every error it returns is a truthy entry with code '1201', the
    status display returns too, and its text is 'Error' (in red) exactly when
    the list is not empty, whatever [is_cleaning] and [is_navigating] say.
    When [getMotorErrors] throws (the error list is a truthy value that is not
    an array), it throws a TypeError and so does the status display. *)
Theorem status_display_matches_errors robotStatus :
  MotorDataComponent.getMotorStatusDisplay robotStatus
  = MotorDataService.getMotorStatusDisplay robotStatus
  /\ match MotorDataService.getMotorErrors robotStatus with
     | inl err =>
         err_name err = "TypeError"
         /\ exists err', MotorDataService.getMotorStatusDisplay robotStatus = inl err'
                         /\ err_name err' = "TypeError"
     | inr errors =>
         MotorDataComponent.getMotorErrors robotStatus = inr errors
         /\ Forall (fun e => truthy e = true
                             /\ read_prop e "error_code" = VString "1201") errors
         /\ exists d,
              MotorDataService.getMotorStatusDisplay robotStatus = inr d
              /\ (text d = "Error" <-> errors <> [])
              /\ (text d = "Error" -> color d = "text-red-500")
     end.
Proof.
  split; [reflexivity|].
  unfold MotorDataService.getMotorErrors, MotorDataService.getMotorStatusDisplay,
    MotorDataComponent.getMotorErrors.
  destruct (truthy robotStatus) eqn:Hs; cbn [negb orb].
  2:{ split; [done|]. split; [constructor|]. eexists. split; [reflexivity|]. done. }
  destruct (typeof_object robotStatus) eqn:Ho; cbn [negb orb].
  2:{ destruct robotStatus as [| |b|x|t|l|m]; try discriminate Ho; try discriminate Hs;
        cbn [read_prop get_prop truthy negb]; (split; [done|]); (split; [constructor|]);
        eexists; (split; [reflexivity|]); done. }
  unfold js_or.
  destruct (truthy (read_prop robotStatus "watch_doggo_error_rm")) eqn:Hw; cbn [negb].
  2:{ cbn [call_method array_some]. split; [done|]. split; [constructor|].
      destruct (truthy (read_prop robotStatus "is_cleaning"));
        [|destruct (truthy (read_prop robotStatus "is_navigating"))];
        (eexists; split; [reflexivity|]; done). }
  destruct (read_prop robotStatus "watch_doggo_error_rm") as [| |b|x|t|l|m];
    try discriminate Hw; cbn [call_method];
    try (split; [reflexivity|]; eexists; split; reflexivity).
  pose proof (array_some_filter
                (fun e => truthy e && is_str (read_prop e "error_code") "1201") l) as H.
  unfold MotorDataService.is_motor_error, MotorDataComponent.is_motor_error.
  destruct (array_filter _ l) as [err|kept]; [done|]. destruct H as [-> ->].
  split; [reflexivity|]. split.
  - apply List.Forall_forall. intros e [_ He]%List.filter_In.
    apply andb_true_iff in He as [He1 He2]. split; [exact He1|].
    destruct (read_prop e "error_code") as [| |b|x|t|l'|m]; try discriminate.
    cbn [is_str] in He2. apply String.eqb_eq in He2. by subst.
  - destruct (existsb _ l) eqn:He.
    + eexists. split; [reflexivity|]. cbn [text color]. split; [|done].
      split; [intros _|done]. intros Hn. apply filter_nil_existsb in Hn. congruence.
    + apply filter_nil_existsb in He. rewrite He.
      destruct (truthy (read_prop robotStatus "is_cleaning"));
        [|destruct (truthy (read_prop robotStatus "is_navigating"))];
        (eexists; split; [reflexivity|]; cbn [text color]; done).
Qed.

(** X17 on a cleaning robot with one motor error after a [null] entry: the
    display says 'Error', not 'Running'. *)
Lemma status_display_matches_errors_witness :
  let error := VObject {[ "error_code" := VString "1201" ]} in
  let robotStatus :=
    VObject {[ "watch_doggo_error_rm" := VArray [VNull; error];
               "is_cleaning" := VBool true ]} in
  MotorDataService.getMotorErrors robotStatus = inr [error]
  /\ exists d, MotorDataService.getMotorStatusDisplay robotStatus = inr d
               /\ text d = "Error" /\ color d = "text-red-500".
Proof.
  intros error robotStatus.
  assert (He : MotorDataService.getMotorErrors robotStatus = inr [error])
    by (vm_compute; reflexivity).
  split; [exact He|].
  pose proof (status_display_matches_errors robotStatus) as [_ H].
  rewrite He in H. destruct H as (_ & _ & d & Hd & Ht & Hc).
  exists d. split; [exact Hd|].
  assert (Hx : text d = "Error") by (apply Ht; discriminate).
  split; [exact Hx|exact (Hc Hx)].
Defined.

(** ** The error indicators of the robot button *)

Import RobotIndicatorComponent.

(** [some] and [find] run the same callback over the same elements. *)
Lemma array_find_some p l :
  match array_some p l with
  | inl err => array_find p l = inl err
  | inr true => exists x, array_find p l = inr x /\ x ∈ l /\ p x = inr true
  | inr false => array_find p l = inr VUndefined /\ Forall (fun x => p x = inr false) l
  end.
Proof.
  induction l as [|x l IH]; [by split|]. cbn [array_some array_find].
  destruct (p x) as [err|[]] eqn:Hp; [done|exists x; split; [done|split; [apply list_elem_of_here|done]]|].
  destruct (array_some p l) as [err|[]]; [done| |].
  - destruct IH as (y & ? & ? & ?). exists y. split; [done|]. split; [by apply list_elem_of_further|done].
  - destruct IH as [? ?]. split; [done|]. by constructor.
Qed.

Lemma existsb_is_str v codes :
  existsb (is_str v) codes = true -> exists code, v = VString code /\ code ∈ codes.
Proof.
  intros (c & Hc & Hs)%existsb_exists.
  destruct v as [| |b|x|t|l|m]; try discriminate.
  cbn [is_str] in Hs. apply String.eqb_eq in Hs. subst.
  exists c. split; [done|by apply list_elem_of_In].
Qed.

Lemma has_code_true codes error :
  has_code codes error = inr true ->
  exists code, get_prop error "error_code" = inr (VString code) /\ code ∈ codes
               /\ truthy error = true.
Proof.
  unfold has_code. destruct (get_prop error "error_code") as [err|v] eqn:E; [discriminate|].
  intros [= H]. apply existsb_is_str in H as (c & -> & Hc).
  exists c. split; [done|]. split; [done|].
  destruct error as [| |b|x|t|l|m]; try discriminate E; done.
Qed.

Lemma has_code_false codes error :
  has_code codes error = inr false ->
  get_prop error "error_code" = inr (read_prop error "error_code")
  /\ error <> VUndefined /\ error <> VNull.
Proof.
  unfold has_code, read_prop.
  destruct (get_prop error "error_code") as [err|code] eqn:E; [discriminate|].
  intros _. split; [done|]. split; intros ->; discriminate.
Qed.

Lemma member_first first l : member (VArray (first :: l)) "0" = inr first.
Proof.
  unfold member. change (String.eqb "0" "length") with false. cbv iota.
  unfold index_props. rewrite imap_cons. cbn [list_to_map foldr uncurry].
  change (pretty 0%nat) with "0"%string. by rewrite lookup_insert_eq.
Qed.

(** X18. On a robot whose active errors are an array, [mostSevereError]
    follows [hasCriticalError]: if the latter throws (a [null] entry before
    any critical one), the former throws the same error; if it is [true], the
    most severe error is one of the critical codes 1416, 1417 and 3605; if it
    is [false], the most severe error is [null] for an empty list and the code
    of the first error otherwise, so the guard of [activeErrors[0]?.error_code]
    never fires. *)
Theorem mostSevereError_matches_hasCriticalError robotStatus l :
  activeErrors robotStatus = VArray l ->
  match hasCriticalError robotStatus with
  | inl err => mostSevereError robotStatus = inl err
  | inr true =>
      exists code, mostSevereError robotStatus = inr (VString code)
                   /\ code ∈ ["1416"; "1417"; "3605"]%string
  | inr false =>
      mostSevereError robotStatus
      = inr (match l with
             | [] => VNull
             | first :: _ => read_prop first "error_code"
             end)
  end.
Proof.
  intros Hl. unfold hasCriticalError, mostSevereError, errorCount_is_0.
  rewrite Hl. cbn [call_method].
  destruct l as [|first l]; [reflexivity|].
  pose proof (array_find_some (has_code ["1416"; "1417"; "3605"]) (first :: l)) as H.
  destruct (array_some _ (first :: l)) as [err|[]].
  - by rewrite H.
  - destruct H as (x & -> & _ & Hx). apply has_code_true in Hx as (code & Hg & Hc & Ht).
    rewrite Ht, Hg. by exists code.
  - destruct H as [-> Hall]. cbn [truthy]. apply Forall_cons in Hall as [Hf _].
    apply has_code_false in Hf as (Hg & H1 & H2).
    rewrite member_first.
    rewrite Hg. by destruct first.
Qed.

(** X18 on a robot with the errors 1201 and 3605. *)
Lemma mostSevereError_matches_hasCriticalError_witness :
  let robotStatus :=
    VObject {[ "watch_doggo_error_rm" :=
                 VArray [VObject {[ "error_code" := VString "1201" ]};
                         VObject {[ "error_code" := VString "3605" ]}] ]} in
  hasCriticalError robotStatus = inr true
  /\ exists code, mostSevereError robotStatus = inr (VString code)
                  /\ code ∈ ["1416"; "1417"; "3605"]%string.
Proof.
  intros robotStatus.
  assert (Hc : hasCriticalError robotStatus = inr true) by (vm_compute; reflexivity).
  split; [exact Hc|].
  pose proof (mostSevereError_matches_hasCriticalError robotStatus _ eq_refl) as H.
  rewrite Hc in H. exact H.
Defined.

Lemma some_more_codes l :
  array_some (has_code ["1416"; "1417"]) l = inr true ->
  array_some (has_code ["1416"; "1417"; "3605"]) l = inr true.
Proof.
  induction l as [|x l IH]; [done|]. cbn [array_some]. unfold has_code at 1 3.
  destruct (get_prop x "error_code") as [err|code]; [done|]. cbn [existsb].
  destruct (is_str code "1416"); [done|]. destruct (is_str code "1417"); [done|].
  cbn [orb]. intros H. specialize (IH H). by destruct (is_str code "3605").
Qed.

Lemma some_fewer_codes l :
  Forall (fun e => read_prop e "error_code" <> VString "3605") l ->
  array_some (has_code ["1416"; "1417"; "3605"]) l = inr true ->
  array_some (has_code ["1416"; "1417"]) l = inr true.
Proof.
  induction l as [|x l IH]; [done|]. intros [Hx Hl]%Forall_cons.
  cbn [array_some]. unfold has_code at 1 3. unfold read_prop in Hx.
  destruct (get_prop x "error_code") as [err|code]; [done|]. cbn [existsb].
  destruct (is_str code "1416"); [done|]. destruct (is_str code "1417"); [done|].
  cbn [orb]. destruct (is_str code "3605") eqn:E; [|by apply IH].
  destruct code as [| |b|y|t|l'|m]; try discriminate.
  cbn [is_str] in E. apply String.eqb_eq in E. by subst.
Qed.

(** X19. On a robot whose active errors are an array, the badge colour is
    empty exactly when there is no error; a red badge implies a critical
    error; and a critical error gives a red badge provided no error has the
    code 3605, which [hasCriticalError] counts as critical and the badge does
    not. *)
Theorem red_badge_and_critical_errors robotStatus l :
  activeErrors robotStatus = VArray l ->
  (errorBadgeColor robotStatus = inr EmptyString <-> l = [])
  /\ (errorBadgeColor robotStatus = inr "bg-red-600 text-white" ->
      hasCriticalError robotStatus = inr true)
  /\ (hasCriticalError robotStatus = inr true ->
      Forall (fun e => read_prop e "error_code" <> VString "3605") l ->
      errorBadgeColor robotStatus = inr "bg-red-600 text-white").
Proof.
  intros Hl. unfold errorBadgeColor, hasCriticalError, errorCount_is_0.
  rewrite Hl. cbn [call_method].
  destruct l as [|first l].
  { split; [done|]. split; [discriminate|]. discriminate. }
  cbv iota. split.
  { destruct (array_some (has_code ["1416"; "1417"]) (first :: l)) as [err|[]];
      [split; discriminate..|].
    destruct (array_some (has_code ["1201"]) (first :: l)) as [err|[]];
      split; discriminate. }
  generalize (first :: l). intros l'.
  pose proof (some_more_codes l') as Hmore. pose proof (some_fewer_codes l') as Hfewer.
  destruct (array_some (has_code ["1416"; "1417"]) l') as [err|[]] eqn:E.
  - split; [discriminate|]. intros Hc Hn. by specialize (Hfewer Hn Hc).
  - split; [intros _; by apply Hmore|done].
  - split.
    + destruct (array_some (has_code ["1201"]) l') as [err|[]]; discriminate.
    + intros Hc Hn. by specialize (Hfewer Hn Hc).
Qed.

(** X19 on a robot with the errors 1201 and 1417. *)
Lemma red_badge_and_critical_errors_witness :
  let robotStatus :=
    VObject {[ "watch_doggo_error_rm" :=
                 VArray [VObject {[ "error_code" := VString "1201" ]};
                         VObject {[ "error_code" := VString "1417" ]}] ]} in
  hasCriticalError robotStatus = inr true
  /\ errorBadgeColor robotStatus = inr "bg-red-600 text-white".
Proof.
  intros robotStatus.
  assert (Hc : hasCriticalError robotStatus = inr true) by (vm_compute; reflexivity).
  split; [exact Hc|].
  destruct (red_badge_and_critical_errors robotStatus _ eq_refl) as (_ & _ & H).
  apply (H Hc). repeat constructor; vm_compute; discriminate.
Defined.

(** A robot whose only error is 3605 has a critical error, shown as the most
    severe one, but its badge is not the red one. *)
Example critical_3605_badge :
  let robotStatus :=
    VObject {[ "watch_doggo_error_rm" :=
                 VArray [VObject {[ "error_code" := VString "3605" ]}] ]} in
  hasCriticalError robotStatus = inr true
  /\ mostSevereError robotStatus = inr (VString "3605")
  /\ errorBadgeColor robotStatus = inr "bg-yellow-500 text-black".
Proof. repeat split; vm_compute; reflexivity. Qed.

(** An entry [null] in the error list makes the indicator throw where the
    motor service, whose callback guards the entry, skips it. *)
Example null_entry :
  let robotStatus := VObject {[ "watch_doggo_error_rm" := VArray [VNull] ]} in
  (exists err, hasCriticalError robotStatus = inl err /\ err_name err = "TypeError")
  /\ MotorDataService.getMotorErrors robotStatus = inr [].
Proof. split; [eexists; split|]; vm_compute; reflexivity. Qed.
